(** * MultiWayBlock: a shallow embedding of [lib/multiwayblock.py]

    The development follows the Python module class by class: [DropPath],
    [MultiHeadSelfAttention], [Mlp], [Block] and [MultiWayBlock]; the
    training size of [train_polyp.py] comes last.  Python exceptions are
    values of [exn] carried by the [result] monad; the caller's configuration
    object, which [make_path] overwrites and restores, is threaded
    explicitly.

    Tensors are a shape together with their logical, row-major contents.
    Shapes are naturals ([torch.Size] entries are never negative); the
    integers of the configuration object are [Z].  Tensor entries are exact
    rationals.  Where Python goes from an integer to a float and back
    ([int(a / b)] in [make_path], [head_dim ** -0.5], the training size) the
    arithmetic follows binary64: a result is rounded to 53 bits, ties to
    even, and a value beyond the floats raises [OverflowError]. *)

From Stdlib Require Import List Arith ZArith QArith Lia Bool.
From Stdlib Require Import Qround Qabs Qpower Lqa.
Import ListNotations.

Local Open Scope nat_scope.

(** ** Exceptions and fallible computations *)

Inductive exn : Set :=
| AssertionError
| RuntimeError
| TypeError
| ValueError
| IndexError
| AttributeError
| ZeroDivisionError
| OverflowError
| UnboundLocalError.

Inductive result (A : Type) : Type :=
| Ok (a : A)
| Raise (e : exn).

Arguments Ok {A} a.
Arguments Raise {A} e.

Definition bind {A B : Type} (m : result A) (k : A -> result B) : result B :=
  match m with
  | Ok a => k a
  | Raise e => Raise e
  end.

Notation "x <- m ;; k" := (bind m (fun x => k))
  (at level 61, m at next level, right associativity).
Notation "' p <- m ;; k" := (bind m (fun p => k))
  (at level 61, p pattern, m at next level, right associativity).

Definition raises {A : Type} (m : result A) : Prop :=
  exists e, m = Raise e.

(** ** Tensors *)

Record tensor (R : Type) : Type := mkTensor {
  shape : list nat;
  data : list R
}.

Arguments mkTensor {R} shape data.
Arguments shape {R} t.
Arguments data {R} t.

Definition numel (s : list nat) : nat := fold_right Nat.mul 1 s.

(** A tensor is well formed when it stores one entry per index. *)
Definition wf {R : Type} (t : tensor R) : Prop :=
  length (data t) = numel (shape t).

(** [tab n g] lays the blocks [g 0], ..., [g (n-1)] side by side. *)
Definition tab {R : Type} (n : nat) (g : nat -> list R) : list R :=
  flat_map g (seq 0 n).

Definition tab3 {R : Type} (B C N : nat) (g : nat -> nat -> nat -> R) : list R :=
  tab B (fun b => tab C (fun c => tab N (fun n => [g b c n]))).

Definition tab4 {R : Type} (B C H W : nat)
  (g : nat -> nat -> nat -> nat -> R) : list R :=
  tab B (fun b => tab C (fun c => tab H (fun h => tab W (fun w => [g b c h w])))).

(** Row-major offsets into a tensor whose trailing extents are given. *)
Definition flat3 (N D : nat) (b n d : nat) : nat := (b * N + n) * D + d.

Definition flat4 (C H W : nat) (b c h w : nat) : nat :=
  ((b * C + c) * H + h) * W + w.

(** [gather src idx] reads [src] at every offset of [idx]. *)
Definition gather {R : Type} (src : list R) (idx : list nat) : list R :=
  match src with
  | [] => []
  | d :: _ => map (fun k => nth k src d) idx
  end.

(** [Tensor.view]: the same entries under a new shape of equal size.  Every
    view taken in this file either splits or merges trailing axes of a
    transposed tensor or acts on a contiguous one, so the stride test of
    [view] always passes and only the size test is left. *)
Definition view {R : Type} (t : tensor R) (s : list nat) : result (tensor R) :=
  if numel s =? numel (shape t) then Ok (mkTensor s (data t))
  else Raise RuntimeError.

(** One extent of a [view] given as a Python integer: [-1] is inferred from
    the remaining extents, any other negative number is refused. *)
Definition infer_dim (known total : nat) (d : Z) : result nat :=
  if (0 <=? d)%Z then Ok (Z.to_nat d)
  else if (d =? -1)%Z then
    if known =? 0 then Raise RuntimeError
    else if total mod known =? 0 then Ok (total / known)
    else Raise RuntimeError
  else Raise RuntimeError.

(** [Tensor.permute(0,2,1)] on a three-axis tensor. *)
Definition permute021 {R : Type} (t : tensor R) : result (tensor R) :=
  match shape t with
  | [B; N; D] =>
      Ok (mkTensor [B; D; N]
            (gather (data t) (tab3 B D N (fun b d n => flat3 N D b n d))))
  | _ => Raise RuntimeError
  end.

(** ** Pixel (un)shuffle *)

(** Where the entries of an unshuffled map come from: entry
    [(b, c*f*f + i*f + j, h, w)] is read at [(b, c, h*f + i, w*f + j)] of a
    [B x C x H x W] input. *)
Definition unshuffle_index (B C H W f : nat) : list nat :=
  tab4 B (C * f * f) (H / f) (W / f)
    (fun b c h w =>
       flat4 C H W b (c / (f * f)) (h * f + (c mod (f * f)) / f) (w * f + c mod f)).

(** Where the entries of a shuffled map come from: entry
    [(b, c, h*f + i, w*f + j)] is read at [(b, c*f*f + i*f + j, h, w)]. *)
Definition shuffle_index (B C H W f : nat) : list nat :=
  tab4 B (C / (f * f)) (H * f) (W * f)
    (fun b c h w =>
       flat4 C H W b (c * f * f + (h mod f) * f + w mod f) (h / f) (w / f)).

(** Modelled from the spec: [nn.PixelUnshuffle] is an operator of the PyTorch
    library, whose code is not part of this repository.  Section 4.5 describes
    it as folding every [f x f] spatial block into the channel axis; the
    offsets are those of PyTorch's documentation,
    [out(b, c*f*f + i*f + j, h, w) = in(b, c, h*f + i, w*f + j)].
    Only four-axis inputs occur in this module. *)
Definition pixel_unshuffle {R : Type} (r : Z) (t : tensor R) : result (tensor R) :=
  match shape t with
  | [B; C; H; W] =>
      if (r <=? 0)%Z then Raise RuntimeError
      else
        let f := Z.to_nat r in
        if (H mod f =? 0) && (W mod f =? 0) then
          Ok (mkTensor [B; C * f * f; H / f; W / f]
                (gather (data t) (unshuffle_index B C H W f)))
        else Raise RuntimeError
  | _ => Raise RuntimeError
  end.

(** Modelled from the spec: [nn.PixelShuffle], the inverse rearrangement,
    again a PyTorch operator absent from the repository:
    [out(b, c, h*f + i, w*f + j) = in(b, c*f*f + i*f + j, h, w)]. *)
Definition pixel_shuffle {R : Type} (r : Z) (t : tensor R) : result (tensor R) :=
  match shape t with
  | [B; C; H; W] =>
      if (r <=? 0)%Z then Raise RuntimeError
      else
        let f := Z.to_nat r in
        if C mod (f * f) =? 0 then
          Ok (mkTensor [B; C / (f * f); H * f; W * f]
                (gather (data t) (shuffle_index B C H W f)))
        else Raise RuntimeError
  | _ => Raise RuntimeError
  end.

(** The two modules built in [_forward_each_paths]. *)
Inductive shuf : Set :=
| PixelUnshuffle (r : Z)
| PixelShuffle (r : Z).

Definition apply_shuf {R : Type} (s : shuf) (x : tensor R) : result (tensor R) :=
  match s with
  | PixelUnshuffle r => pixel_unshuffle r x
  | PixelShuffle r => pixel_shuffle r x
  end.

(** ** Rational tensors *)

Definition qtensor : Type := tensor Q.

(** A module mapping a tensor to a tensor ([nn.LayerNorm], [nn.Linear], [Mlp]). *)
Definition layer : Type := qtensor -> result qtensor.

(** A module returning its output together with attention probabilities. *)
Definition attn_module : Type := qtensor -> result (qtensor * qtensor).

Fixpoint map2 {A B C : Type} (f : A -> B -> C) (u : list A) (v : list B) : list C :=
  match u, v with
  | a :: u', b :: v' => f a b :: map2 f u' v'
  | _, _ => []
  end.

Definition shape_eqb (s1 s2 : list nat) : bool :=
  (length s1 =? length s2) && forallb (fun p => fst p =? snd p) (combine s1 s2).

(** [x + y] on tensors of one shape.  The summands of [Block.forward] are a
    tensor and the output of a sub-module fed with its normalisation; those
    of [MultiWayBlock.forward] are path outputs, which all have the shape of
    the spatial map (lemma [each_paths_shapes]).  Broadcasting between
    different shapes therefore never takes place and is refused here. *)
Definition tadd (x y : qtensor) : result qtensor :=
  if shape_eqb (shape x) (shape y)
  then Ok (mkTensor (shape x) (map2 Qplus (data x) (data y)))
  else Raise RuntimeError.

(** The [b]-th sample of a tensor of [B] samples, as a flat block. *)
Definition sample {R : Type} (per : nat) (b : nat) (l : list R) : list R :=
  firstn per (skipn (b * per) l).

(** [torch.cat(features, dim=1)] on four-axis tensors. *)
Definition cat_dim1 {R : Type} (ts : list (tensor R)) : result (tensor R) :=
  match ts with
  | [] => Raise RuntimeError
  | t0 :: rest =>
      match shape t0 with
      | [B; _; H; W] =>
          let same t :=
            match shape t with
            | [B'; _; H'; W'] => (B' =? B) && (H' =? H) && (W' =? W)
            | _ => false
            end in
          if forallb same rest then
            let chans t := nth 1 (shape t) 0 in
            Ok (mkTensor [B; fold_right Nat.add 0 (map chans ts); H; W]
                  (tab B (fun b =>
                     flat_map (fun t => sample (chans t * H * W) b (data t)) ts)))
          else Raise RuntimeError
      | _ => Raise RuntimeError
      end
  end.

(** [nn.Linear(n_in, n_out)]: the constructor refuses negative sizes; the
    module demands [n_in] as last extent and replaces it by [n_out].
    [affine] stands for the row-wise affine map of the layer's weights. *)
Definition nn_Linear (affine : list Q -> list Q) (n_in n_out : Z) : result layer :=
  if (n_in <? 0)%Z || (n_out <? 0)%Z then Raise RuntimeError
  else Ok (fun x =>
    match rev (shape x) with
    | d :: front =>
        if (Z.of_nat d =? n_in)%Z
        then Ok (mkTensor (rev front ++ [Z.to_nat n_out]) (affine (data x)))
        else Raise RuntimeError
    | [] => Raise RuntimeError
    end).

(** ** [class DropPath] *)

Module DropPath.

Record t : Type := mk {
  drop_prob : Q;
  scale_by_keep : bool;
  training : bool
}.

(** [DropPath.__init__(drop_prob, scale_by_keep)]; a fresh module is in
    training mode. *)
Definition __init__ (drop_prob : Q) (scale_by_keep : bool) : t :=
  mk drop_prob scale_by_keep true.

(** The values Python passes around in a call of [drop_path]. *)
Inductive pyval : Type :=
| VModule (m : t)
| VTensor (x : qtensor)
| VFloat (q : Q)
| VBool (b : bool).

(** Binding of positional arguments to a [def] with [required] parameters
    followed by parameters with [defaults]: too few or too many arguments
    raise [TypeError] before the body runs. *)
Definition bind_positional (required : nat) (defaults args : list pyval)
  : result (list pyval) :=
  let n := length args in
  if (n <? required) || (required + length defaults <? n)
  then Raise TypeError
  else Ok (args ++ skipn (n - required) defaults).

(** The outcome of [x.new_empty(shape).bernoulli_(keep_prob)] followed by the
    optional [div_(keep_prob)]: one factor per sample.  [rnd b] tells whether
    sample [b] was drawn as kept. *)
Definition random_tensor (keep_prob : Q) (scale : bool) (rnd : nat -> bool)
  (b : nat) : Q :=
  let r := if rnd b then 1%Q else 0%Q in
  if Qlt_le_dec 0 keep_prob then (if scale then (r / keep_prob)%Q else r) else r.

(** Lines 18-23 of [drop_path], on a tensor. *)
Definition stochastic (x : qtensor) (drop_prob : Q) (scale : bool)
  (rnd : nat -> bool) : result qtensor :=
  let keep_prob := (1 - drop_prob)%Q in
  match shape x with
  | [] => Raise IndexError
  | B :: rest =>
      if Qlt_le_dec keep_prob 0 then Raise RuntimeError
      else if Qlt_le_dec 1 keep_prob then Raise RuntimeError
      else
        Ok (mkTensor (shape x)
              (tab B (fun b =>
                 map (fun v => (v * random_tensor keep_prob scale rnd b)%Q)
                     (sample (numel rest) b (data x)))))
  end.

(** [def drop_path(x, drop_prob=0., training=False, scale_by_keep=True)], a
    plain function stored in the class body: it has no [self] parameter. *)
Definition drop_path (args : list pyval) (rnd : nat -> bool) : result pyval :=
  bound <- bind_positional 1 [VFloat 0; VBool false; VBool true] args ;;
  match bound with
  | [x; VFloat p; VBool training; VBool scale] =>
      if Qeq_bool p 0 || negb training then Ok x
      else
        match x with
        | VTensor xt => r <- stochastic xt p scale rnd ;; Ok (VTensor r)
        | _ => Raise AttributeError
        end
  | _ => Raise TypeError
  end.

(** [DropPath.forward]: [self.drop_path(...)] is a bound-method call, so
    [self] travels as the first positional argument in front of the four
    written ones. *)
Definition forward (self : t) (x : qtensor) (rnd : nat -> bool) : result pyval :=
  drop_path [VModule self; VTensor x; VFloat (drop_prob self);
             VBool (training self); VBool (scale_by_keep self)] rnd.

End DropPath.

(** ** Floating point *)

(** The nearest integer, ties going to the even one. *)
Definition round_half_even (q : Q) : Z :=
  let f := Qfloor q in
  match Qcompare (q - inject_Z f) (1 # 2) with
  | Lt => f
  | Gt => (f + 1)%Z
  | Eq => if Z.even f then f else (f + 1)%Z
  end.

(** The exponent [k] with [2^k <= a < 2^(k+1)], for a positive [a]. *)
Definition floor_log2 (a : Q) : Z :=
  let k := (Z.log2 (Qnum a) - Z.log2 (Z.pos (Qden a)))%Z in
  if Qle_bool (2 ^ k) a then k else (k - 1)%Z.

(** The binary64 value nearest to [q], ties to even: a significand of 53
    bits, exponents from -1074 upwards.  The exponent has no upper limit
    here; [float_overflow] tells whether the value is beyond the floats. *)
Definition round_binary64 (q : Q) : Q :=
  if Qeq_bool q 0 then 0%Q
  else
    let a := Qabs q in
    let e := Z.max (floor_log2 a - 52) (-1074) in
    let v := (inject_Z (round_half_even (a / 2 ^ e)) * 2 ^ e)%Q in
    if Qle_bool 0 q then v else (- v)%Q.

Definition float_overflow (v : Q) : bool := Qle_bool (2 ^ 1024) (Qabs v).

(** [int(v)] on a float: truncation towards zero. *)
Definition int_of_float (v : Q) : Z :=
  if Qle_bool 0 v then Qfloor v else Qceiling v.

(** The conversion of an integer operand to a float. *)
Definition float_of_int (n : Z) : result Q :=
  let v := round_binary64 (inject_Z n) in
  if float_overflow v then Raise OverflowError else Ok v.

(** [int(a / b)] on integers: the true division of two integers is the
    exact quotient rounded once to binary64; it raises on a zero divisor and
    on a quotient beyond the floats.  [int] then truncates towards zero. *)
Definition int_truediv (a b : Z) : result Z :=
  if (b =? 0)%Z then Raise ZeroDivisionError
  else
    let v := round_binary64 (inject_Z a / inject_Z b) in
    if float_overflow v then Raise OverflowError else Ok (int_of_float v).

(** ** [nn.Linear] and [nn.Dropout] with their values *)

Definition sumQ (l : list Q) : Q := fold_right Qplus 0%Q l.

Definition dot (u v : list Q) : Q := sumQ (map2 Qmult u v).

(** [f] applied to each of the [rows] rows of [len] entries of [l]. *)
Definition map_rows (len rows : nat) (f : list Q -> list Q) (l : list Q)
  : list Q :=
  tab rows (fun r => f (sample len r l)).

Module Linear.

Record t : Type := mk {
  in_features : nat;
  out_features : nat;
  weight : list (list Q);
  bias : option (list Q)
}.

(** [nn.Linear(n_in, n_out, bias)]: negative sizes are refused; [w] and [b]
    are the parameters the constructor draws. *)
Definition __init__ (n_in n_out : Z) (with_bias : bool) (w : list (list Q))
  (b : list Q) : result t :=
  if (n_in <? 0)%Z || (n_out <? 0)%Z then Raise RuntimeError
  else Ok (mk (Z.to_nat n_in) (Z.to_nat n_out) w
              (if with_bias then Some b else None)).

(** One output row: [W r + b]. *)
Definition row (self : t) (r : list Q) : list Q :=
  map (fun j =>
         (dot (nth j (weight self) []) r
          + match bias self with
            | Some b => nth j b 0
            | None => 0
            end)%Q)
      (seq 0 (out_features self)).

(** [F.linear]: the last extent must be [in_features]; every row of the
    input is mapped to a row of [out_features] entries. *)
Definition forward (self : t) (x : qtensor) : result qtensor :=
  match rev (shape x) with
  | d :: front =>
      if d =? in_features self
      then Ok (mkTensor (rev front ++ [out_features self])
                 (map_rows d (numel front) (row self) (data x)))
      else Raise RuntimeError
  | [] => Raise RuntimeError
  end.

End Linear.

Module Dropout.

Record t : Type := mk { p : Q }.

(** [nn.Dropout(p)]: [p] outside [0, 1] raises [ValueError]. *)
Definition __init__ (p : Q) : result t :=
  if Qlt_le_dec p 0 then Raise ValueError
  else if Qlt_le_dec 1 p then Raise ValueError
  else Ok (mk p).

(** [F.dropout(x, p, training)]: the input itself outside training or at
    [p = 0]; zeros at [p = 1]; otherwise the entries a Bernoulli draw keeps
    ([mask k] for entry [k]), divided by [1 - p]. *)
Definition forward (self : t) (training : bool) (mask : nat -> bool)
  (x : qtensor) : qtensor :=
  if negb training || Qeq_bool (p self) 0 then x
  else if Qeq_bool (p self) 1
  then mkTensor (shape x) (map (fun v => (v * 0)%Q) (data x))
  else mkTensor (shape x)
         (map2 (fun k v => if mask k then (v / (1 - p self))%Q else (v * 0)%Q)
               (seq 0 (length (data x))) (data x)).

End Dropout.

(** ** [class Mlp] *)

Module Mlp.

Record t : Type := mk {
  fc1 : Linear.t;
  act : Q -> Q;
  drop1 : Dropout.t;
  fc2 : Linear.t;
  drop2 : Dropout.t
}.

(** [Mlp.__init__], lines 63-70; [act] is the function [act_layer()]
    applies to every entry. *)
Definition __init__ (in_features hidden_features out_features : Z)
  (act : Q -> Q) (bias : bool) (drop_rate : Q)
  (w1 : list (list Q)) (b1 : list Q) (w2 : list (list Q)) (b2 : list Q)
  : result t :=
  fc1 <- Linear.__init__ in_features hidden_features bias w1 b1 ;;
  drop1 <- Dropout.__init__ drop_rate ;;
  fc2 <- Linear.__init__ hidden_features out_features bias w2 b2 ;;
  drop2 <- Dropout.__init__ drop_rate ;;
  Ok (mk fc1 act drop1 fc2 drop2).

(** [Mlp.forward], lines 72-75. *)
Definition forward (self : t) (training : bool) (mask1 mask2 : nat -> bool)
  (x : qtensor) : result qtensor :=
  x <- Linear.forward (fc1 self) x ;;
  let x := mkTensor (shape x) (map (act self) (data x)) in
  let x := Dropout.forward (drop1 self) training mask1 x in
  x <- Linear.forward (fc2 self) x ;;
  Ok (Dropout.forward (drop2 self) training mask2 x).

(** What [forward] does to one token outside training. *)
Definition token (self : t) (r : list Q) : list Q :=
  Linear.row (fc2 self) (map (act self) (Linear.row (fc1 self) r)).

End Mlp.

(** ** [class MultiHeadSelfAttention] *)

Module MultiHeadSelfAttention.

Record t : Type := mk {
  num_heads : Z;
  scale : Q;
  qkv : Linear.t;
  attn_drop : Dropout.t;
  proj : Linear.t;
  proj_drop : Dropout.t
}.

(** [__init__], lines 32-43.  [inv_sqrt head_dim] stands for the float
    [head_dim ** -0.5]: Python converts [head_dim] to a float, which raises
    [OverflowError] for an integer beyond the floats, and refuses the
    negative power of zero. *)
Definition __init__ (dim num_heads : Z) (qkv_bias : bool)
  (attn_drop proj_drop : Q) (inv_sqrt : Z -> Q)
  (wq : list (list Q)) (bq : list Q) (wp : list (list Q)) (bp : list Q)
  : result t :=
  if (num_heads =? 0)%Z then Raise ZeroDivisionError
  else if negb (dim mod num_heads =? 0)%Z then Raise AssertionError
  else
    let head_dim := (dim / num_heads)%Z in
    if (head_dim =? 0)%Z then Raise ZeroDivisionError
    else
      _ <- float_of_int head_dim ;;
      qkv <- Linear.__init__ dim (dim * 3) qkv_bias wq bq ;;
      attn_drop <- Dropout.__init__ attn_drop ;;
      proj <- Linear.__init__ dim dim true wp bp ;;
      proj_drop <- Dropout.__init__ proj_drop ;;
      Ok (mk num_heads (inv_sqrt head_dim) qkv attn_drop proj proj_drop).

(** [qkv.reshape(B, N, 3, h, d).permute(2, 0, 3, 1, 4)[s]]: entry
    [(b, hh, n, j)] of [q] ([s = 0]), [k] ([s = 1]) or [v] ([s = 2]). *)
Definition part (B h N d s : nat) (l : list Q) : list Q :=
  gather l (tab4 B h N d
              (fun b hh n j => flat3 N (3 * h * d) b n ((s * h + hh) * d + j))).

(** [(q @ k.transpose(-2, -1)) * scale]: for each of the [G = B*h] groups,
    the [N x N] products of rows of [q] and [k]. *)
Definition scores (G N d : nat) (scale : Q) (q k : list Q) : list Q :=
  tab G (fun g =>
    tab N (fun n =>
      map (fun m =>
             (dot (sample d (g * N + n) q) (sample d (g * N + m) k) * scale)%Q)
          (seq 0 N))).

(** [softmax] of one row, [exp] being the exponential. *)
Definition softmax_row (exp : Q -> Q) (l : list Q) : list Q :=
  let e := map exp l in
  map (fun v => (v / sumQ e)%Q) e.

(** [attn @ v]: for each group, the products of the rows of [attn] with the
    columns of [v]. *)
Definition weighted (G N d : nat) (attn v : list Q) : list Q :=
  tab G (fun g =>
    tab N (fun n =>
      map (fun j =>
             sumQ (map (fun m =>
                          (nth ((g * N + n) * N + m) attn 0
                           * nth ((g * N + m) * d + j) v 0)%Q)
                       (seq 0 N)))
          (seq 0 d))).

(** [forward], lines 45-58.  [exp] is the exponential of [softmax];
    [mask_attn] and [mask_proj] are the draws of the two dropouts. *)
Definition forward (self : t) (exp : Q -> Q) (training : bool)
  (mask_attn mask_proj : nat -> bool) (x : qtensor)
  : result (qtensor * qtensor) :=
  match shape x with
  | [B; N; D] =>
      qkv <- Linear.forward (qkv self) x ;;
      if (num_heads self =? 0)%Z then Raise ZeroDivisionError
      else if (num_heads self <? 0)%Z then Raise RuntimeError
      else
        let h := Z.to_nat (num_heads self) in
        let d := D / h in
        if negb (numel (shape qkv) =? numel [B; N; 3; h; d])
        then Raise RuntimeError
        else
          let q := part B h N d 0 (data qkv) in
          let k := part B h N d 1 (data qkv) in
          let v := part B h N d 2 (data qkv) in
          let attn := scores (B * h) N d (scale self) q k in
          let attn_probs :=
            mkTensor [B; h; N; N]
              (map_rows N (B * h * N) (softmax_row exp) attn) in
          let attn :=
            Dropout.forward (attn_drop self) training mask_attn attn_probs in
          let x := weighted (B * h) N d (data attn) v in
          let x := gather x (tab4 B N h d (fun b n hh j => flat4 h N d b hh n j)) in
          x <- view (mkTensor [B; N; h; d] x) [B; N; D] ;;
          x <- Linear.forward (proj self) x ;;
          let x := Dropout.forward (proj_drop self) training mask_proj x in
          Ok (x, attn_probs)
  | _ => Raise ValueError
  end.

End MultiHeadSelfAttention.

Module MHSA := MultiHeadSelfAttention.

(** ** What a block draws and the state it runs in *)

(** What the constructors of a block draw or are told from outside: the
    float [head_dim ** -0.5], the parameters of the four linear layers. *)
Record block_params : Type := mkParams {
  inv_sqrt : Z -> Q;
  w_qkv : list (list Q);
  b_qkv : list Q;
  w_proj : list (list Q);
  b_proj : list Q;
  w_fc1 : list (list Q);
  b_fc1 : list Q;
  w_fc2 : list (list Q);
  b_fc2 : list Q
}.

(** The state a call of [forward] runs in: the training flag and the draws
    of the four dropouts; [exp] is the exponential of [softmax]. *)
Record run : Type := mkRun {
  exp : Q -> Q;
  training : bool;
  mask_attn : nat -> bool;
  mask_proj : nat -> bool;
  mask_fc1 : nat -> bool;
  mask_fc2 : nat -> bool
}.

(** ** [class Block] *)

Module Block.

(** [DropPath(drop_path) if drop_path > 0. else nn.Identity()]. *)
Inductive gate : Type :=
| GDropPath (d : DropPath.t)
| GIdentity.

Record t : Type := mk {
  norm1 : layer;
  attn : attn_module;
  drop_path1 : gate;
  norm2 : layer;
  mlp : layer;
  drop_path2 : gate
}.

Definition make_gate (drop_path : Q) : gate :=
  if Qlt_le_dec 0 drop_path then GDropPath (DropPath.__init__ drop_path true)
  else GIdentity.

(** [Block.__init__], lines 82-92: [norm_layer(dim)],
    [MultiHeadSelfAttention(...)], the first gate, [norm_layer(dim)],
    [Mlp(dim, int(dim*mlp_ratio), dim, ...)] and the second gate, in this
    order.  [act] is the function [act_layer()] applies entry by entry; the
    resulting [t] holds the [forward] of both sub-modules in the state
    [rn]. *)
Definition __init__ (dim num_heads mlp_ratio : Z) (qkv_bias : bool)
  (attn_drop proj_drop : Q) (act : Q -> Q) (norm_layer : Z -> result layer)
  (drop_path drop_rate : Q) (ps : block_params) (rn : run) : result t :=
  norm1 <- norm_layer dim ;;
  attn <- MultiHeadSelfAttention.__init__ dim num_heads qkv_bias attn_drop
            proj_drop (inv_sqrt ps) (w_qkv ps) (b_qkv ps) (w_proj ps)
            (b_proj ps) ;;
  let drop_path1 := make_gate drop_path in
  norm2 <- norm_layer dim ;;
  mlp <- Mlp.__init__ dim (dim * mlp_ratio) dim act true drop_rate
           (w_fc1 ps) (b_fc1 ps) (w_fc2 ps) (b_fc2 ps) ;;
  let drop_path2 := make_gate drop_path in
  Ok (mk norm1
        (MultiHeadSelfAttention.forward attn (exp rn) (training rn)
           (mask_attn rn) (mask_proj rn))
        drop_path1 norm2
        (Mlp.forward mlp (training rn) (mask_fc1 rn) (mask_fc2 rn))
        drop_path2).

(** [Block.forward], lines 94-99. *)
Definition forward (self : t) (x : qtensor) : result (qtensor * qtensor) :=
  let skip := x in
  n1 <- norm1 self x ;;
  '(x, attn_probs) <- attn self n1 ;;
  x <- tadd skip x ;;
  n2 <- norm2 self x ;;
  m <- mlp self n2 ;;
  x <- tadd x m ;;
  Ok (x, attn_probs).

End Block.

(** Specification of section 4.4: both residual branches pass through
    StochasticDepth, whose contract (section 4.1) is the function
    [drop_path] applied to a tensor, a rate and the training flag. *)
Definition spec_StochasticDepth (rate : Q) (training : bool) (rnd : nat -> bool)
  (x : qtensor) : result qtensor :=
  if Qeq_bool rate 0 || negb training then Ok x
  else DropPath.stochastic x rate true rnd.

Definition spec_TransformerBlock (self : Block.t) (rate : Q) (training : bool)
  (rnd1 rnd2 : nat -> bool) (x : qtensor) : result (qtensor * qtensor) :=
  n1 <- Block.norm1 self x ;;
  '(a, attn_probs) <- Block.attn self n1 ;;
  a <- spec_StochasticDepth rate training rnd1 a ;;
  x1 <- tadd x a ;;
  n2 <- Block.norm2 self x1 ;;
  m <- Block.mlp self n2 ;;
  m <- spec_StochasticDepth rate training rnd2 m ;;
  out <- tadd x1 m ;;
  Ok (out, attn_probs).

(** ** The configuration object *)

Module Config.

Record t : Type := mk {
  hidden_size : Z;
  num_path : Z;
  direction : Z;
  pixshuf_factor : Z;
  concat : bool;
  num_heads : Z;
  mlp_ratio : Z;
  qkv_bias : bool;
  attn_drop : Q;
  proj_drop : Q;
  drop_rate : Q;
  drop_path : Q
}.

(** The assignment [config.hidden_size = v]. *)
Definition set_hidden_size (c : t) (v : Z) : t :=
  mk v (num_path c) (direction c) (pixshuf_factor c) (concat c) (num_heads c)
     (mlp_ratio c) (qkv_bias c) (attn_drop c) (proj_drop c) (drop_rate c)
     (drop_path c).

End Config.

(** [range(lo, hi)]. *)
Definition py_range (lo hi : Z) : list Z :=
  map (fun k => (lo + Z.of_nat k)%Z) (seq 0 (Z.to_nat (hi - lo))).

(** ** [class MultiWayBlock] *)

Module MultiWayBlock.

(** The caller's [block] class: called as [block(config, False)] on the
    shared configuration object, which it may read and write. *)
Definition factory : Type := Config.t -> bool -> Config.t * result attn_module.

Record t : Type := mk {
  dim : Z;
  num_path : Z;
  median : Z;
  total_dim : Z;
  pixshuf_factor : Z;
  direction : Z;
  concat : bool;
  paths : list (Z * attn_module);
  norm : option layer;
  fc : option layer
}.

Definition set_paths (self : t) (ps : list (Z * attn_module)) : t :=
  mk (dim self) (num_path self) (median self) (total_dim self)
     (pixshuf_factor self) (direction self) (concat self) ps
     (norm self) (fc self).

Definition set_fusion (self : t) (n f : layer) : t :=
  mk (dim self) (num_path self) (median self) (total_dim self)
     (pixshuf_factor self) (direction self) (concat self) (paths self)
     (Some n) (Some f).

(** [getattr(self, f"path{i}")]. *)
Fixpoint lookup (i : Z) (ps : list (Z * attn_module)) : result attn_module :=
  match ps with
  | [] => Raise AttributeError
  | (j, m) :: rest => if (i =? j)%Z then Ok m else lookup i rest
  end.

(** Lines 136-147: the width written into the configuration for path [i]. *)
Definition new_dim (self : t) (i : Z) : result Z :=
  let f := pixshuf_factor self in
  if (direction self =? 0)%Z then
    if (i <? median self)%Z then Ok (dim self * f ^ (i * 2))%Z
    else if (i >? median self)%Z
    then int_truediv (dim self) (f ^ ((i - median self) * 2))
    else Ok (dim self)
  else if (direction self =? 1)%Z then
    if (i =? 1)%Z then Ok (dim self)
    else Ok (dim self * f ^ ((i - 1) * 2))%Z
  else
    if (i =? 1)%Z then Ok (dim self)
    else int_truediv (dim self) (f ^ ((i - 1) * 2)).

(** The loop of [make_path]; the configuration is the state. *)
Fixpoint make_path_loop (self : t) (block : factory) (idx : list Z)
  (config : Config.t) (acc : list (Z * attn_module))
  : Config.t * result (list (Z * attn_module)) :=
  match idx with
  | [] => (config, Ok acc)
  | i :: rest =>
      match new_dim self i with
      | Raise e => (config, Raise e)
      | Ok d =>
          let config := Config.set_hidden_size config d in
          match block config false with
          | (config, Raise e) => (config, Raise e)
          | (config, Ok m) =>
              make_path_loop self block rest config (acc ++ [(i, m)])
          end
      end
  end.

(** [make_path], lines 133-154. *)
Definition make_path (self : t) (block : factory) (config : Config.t)
  : Config.t * result t :=
  match make_path_loop self block (py_range 1 (num_path self + 1)) config [] with
  | (config, Raise e) => (config, Raise e)
  | (config, Ok ps) =>
      (Config.set_hidden_size config (dim self), Ok (set_paths self ps))
  end.

(** Lines 119-125: the attributes [__init__] copies from the configuration. *)
Definition attributes (config : Config.t) : t :=
  let n := Config.num_path config in
  mk (Config.hidden_size config) n
     (if (n mod 2 =? 1)%Z then n / 2 + 1 else n / 2)%Z
     (Config.hidden_size config * n)%Z
     (Config.pixshuf_factor config) (Config.direction config)
     (Config.concat config) [] None None.

(** [__init__], lines 111-130.  [norm_layer] is the constructor argument of
    that name and [affine] the map computed by the weights of [self.fc]. *)
Definition __init__ (config : Config.t) (block : factory)
  (norm_layer : Z -> result layer) (affine : list Q -> list Q)
  : Config.t * result t :=
  let d := Config.direction config in
  if negb ((d =? 0) || (d =? 1) || (d =? 2))%Z then (config, Raise AssertionError)
  else if ((d =? 0) && (Config.num_path config mod 2 =? 0))%Z
  then (config, Raise AssertionError)
  else
    match make_path (attributes config) block config with
    | (config, Raise e) => (config, Raise e)
    | (config, Ok self) =>
        if concat self then
          (config,
           nl <- norm_layer (total_dim self) ;;
           f <- nn_Linear affine (total_dim self) (dim self) ;;
           Ok (set_fusion self nl f))
        else (config, Ok self)
    end.

(** Lines 160-180: the pair [(shuf1, shuf2)] of a path, or [None] where the
    loop clears [flag]. *)
Definition select_shuf (self : t) (i : Z) : option (shuf * shuf) :=
  let f := pixshuf_factor self in
  if (direction self =? 0)%Z then
    if (i <? median self)%Z
    then Some (PixelUnshuffle (f * i), PixelShuffle (f * i))
    else if (i >? median self)%Z
    then Some (PixelShuffle (f * (i - median self)),
               PixelUnshuffle (f * (i - median self)))
    else None
  else if (direction self =? 1)%Z then
    if (i =? 1)%Z then None
    else Some (PixelUnshuffle (f * (i - 1)), PixelShuffle (f * (i - 1)))
  else
    if (i =? 1)%Z then None
    else Some (PixelShuffle (f * (i - 1)), PixelUnshuffle (f * (i - 1))).

(** Line 182: [shuf1(x) if flag else x]. *)
Definition resample_in (self : t) (i : Z) (x : qtensor) : result qtensor :=
  match select_shuf self i with
  | Some (shuf1, _) => apply_shuf shuf1 x
  | None => Ok x
  end.

(** Line 187: [shuf2(x) if flag else x]. *)
Definition resample_out (self : t) (i : Z) (x : qtensor) : result qtensor :=
  match select_shuf self i with
  | Some (_, shuf2) => apply_shuf shuf2 x
  | None => Ok x
  end.

(** Lines 182-184: the token sequence handed to [path{i}]. *)
Definition tokens_in (self : t) (i : Z) (x : qtensor) : result qtensor :=
  x <- resample_in self i x ;;
  match shape x with
  | [B; D; H; W] =>
      x <- view x [B; D; H * W] ;;
      permute021 x
  | _ => Raise ValueError
  end.

(** One round of the loop of [_forward_each_paths], lines 182-187. *)
Definition each_path (self : t) (i : Z) (x : qtensor)
  : result (qtensor * qtensor) :=
  x <- resample_in self i x ;;
  match shape x with
  | [B; D; H; W] =>
      x <- view x [B; D; H * W] ;;
      x <- permute021 x ;;
      path <- lookup i (paths self) ;;
      '(x, attn_probs) <- path x ;;
      x <- permute021 x ;;
      x <- view x [B; D; H; W] ;;
      x <- resample_out self i x ;;
      Ok (x, attn_probs)
  | _ => Raise ValueError
  end.

(** The variables the loop of [_forward_each_paths] rebinds: [x], the list
    [features], and [attn_probs], unbound until the first round has run. *)
Record loop_state : Type := mkLoop {
  cur : qtensor;
  features : list qtensor;
  attn_probs : option qtensor
}.

Fixpoint each_paths_loop (self : t) (idx : list Z) (st : loop_state)
  : result loop_state :=
  match idx with
  | [] => Ok st
  | i :: rest =>
      '(x, a) <- each_path self i (cur st) ;;
      each_paths_loop self rest (mkLoop x (features st ++ [x]) (Some a))
  end.

(** [_forward_each_paths], lines 156-191. *)
Definition _forward_each_paths (self : t) (x : qtensor)
  : result (list qtensor * qtensor) :=
  st <- each_paths_loop self (py_range 1 (num_path self + 1)) (mkLoop x [] None) ;;
  match attn_probs st with
  | Some a => Ok (features st, a)
  | None => Raise UnboundLocalError
  end.

(** Line 196: the token sequence as a spatial map. *)
Definition spatial (x : qtensor) : result qtensor :=
  match shape x with
  | [B; N; D] =>
      let H := Nat.sqrt N in
      let W := H in
      x <- permute021 x ;;
      view x [B; D; H; W]
  | _ => Raise ValueError
  end.

Definition get_layer (l : option layer) : result layer :=
  match l with
  | Some f => Ok f
  | None => Raise AttributeError
  end.

(** [forward], lines 193-208.  [int(np.sqrt(N))] is the integer square root
    for every [N] below [2^52]. *)
Definition forward (self : t) (x : qtensor) : result (qtensor * qtensor) :=
  match shape x with
  | [B; N; D] =>
      x <- spatial x ;;
      '(features, attn_probs) <- _forward_each_paths self x ;;
      if concat self then
        x <- cat_dim1 features ;;
        c <- infer_dim (B * N) (numel (shape x)) (total_dim self) ;;
        x <- view x [B; c; N] ;;
        x <- permute021 x ;;
        fc <- get_layer (fc self) ;;
        norm <- get_layer (norm self) ;;
        x <- norm x ;;
        x <- fc x ;;
        Ok (x, attn_probs)
      else
        match features with
        | [] => Raise IndexError
        | x :: rest =>
            x <- fold_left (fun acc f => x <- acc ;; tadd x f) rest (Ok x) ;;
            c <- infer_dim (B * N) (numel (shape x)) (dim self) ;;
            x <- view x [B; c; N] ;;
            x <- permute021 x ;;
            Ok (x, attn_probs)
        end
  | _ => Raise ValueError
  end.

(** The tensor bound to [x] when the last round of the loop starts. *)
Definition last_round_input (self : t) (x : qtensor) : result qtensor :=
  st <- each_paths_loop self (py_range 1 (num_path self)) (mkLoop x [] None) ;;
  Ok (cur st).

End MultiWayBlock.

(** ** The specification's notion of an invalid configuration *)

(** Section 3: [median = num_path//2 + 1] if [num_path] is odd, else
    [num_path//2]. *)
Definition spec_median (c : Config.t) : Z :=
  let n := Config.num_path c in
  if (n mod 2 =? 1)%Z then (n / 2 + 1)%Z else (n / 2)%Z.

(** The working dimension of path [i] before any rounding, as the exact
    quotient the constructor computes. *)
Definition spec_working_dim (c : Config.t) (i : Z) : Q :=
  let d := inject_Z (Config.hidden_size c) in
  let f := Config.pixshuf_factor c in
  let up k := (d * inject_Z (f ^ k))%Q in
  let down k := (d / inject_Z (f ^ k))%Q in
  if (Config.direction c =? 0)%Z then
    if (i <? spec_median c)%Z then up (i * 2)%Z
    else if (i >? spec_median c)%Z then down ((i - spec_median c) * 2)%Z
    else d
  else if (Config.direction c =? 1)%Z then
    if (i =? 1)%Z then d else up ((i - 1) * 2)%Z
  else
    if (i =? 1)%Z then d else down ((i - 1) * 2)%Z.

Definition is_positive_integer (q : Q) : bool :=
  (Qden (Qred q) =? 1)%positive && (0 <? Qnum (Qred q))%Z.

(** Section 4.5, failure policy: the three reasons for a ConfigError. *)
Definition spec_invalid (c : Config.t) : bool :=
  let d := Config.direction c in
  negb ((d =? 0) || (d =? 1) || (d =? 2))%Z
  || ((d =? 0) && (Config.num_path c mod 2 =? 0))%Z
  || existsb (fun i => negb (is_positive_integer (spec_working_dim c i)))
       (py_range 1 (Config.num_path c + 1)).

(** The two reasons the constructor tests. *)
Definition asserted_invalid (c : Config.t) : Prop :=
  let d := Config.direction c in
  ~ (d = 0 \/ d = 1 \/ d = 2)%Z \/ (d = 0 /\ Config.num_path c mod 2 = 0)%Z.

(** ** A concrete block class for the examples *)

Module Demo.

(** A block sized to [width]: like any block made of [nn.LayerNorm] and
    [nn.Linear] it refuses tokens of another width; it returns its input and
    uniform attention over the [N] keys of a single head. *)
Definition path (width : Z) : attn_module :=
  fun x =>
    match shape x with
    | [B; N; D] =>
        if (Z.of_nat D =? width)%Z
        then Ok (x, mkTensor [B; 1; N; N]
                      (repeat (1 # Pos.of_nat N)%Q (B * N * N)))
        else Raise RuntimeError
    | _ => Raise RuntimeError
    end.

(** The class handed to [MultiWayBlock]: it reads the width from the
    configuration and leaves the configuration alone. *)
Definition block : MultiWayBlock.factory :=
  fun config _ => (config, Ok (path (Config.hidden_size config))).

(** A block class that refuses a zero width. *)
Definition strict_block : MultiWayBlock.factory :=
  fun config _ =>
    if (Config.hidden_size config <=? 0)%Z then (config, Raise AssertionError)
    else (config, Ok (path (Config.hidden_size config))).

Definition norm_layer (d : Z) : result layer :=
  Ok (fun x =>
        match rev (shape x) with
        | last :: _ => if (Z.of_nat last =? d)%Z then Ok x else Raise RuntimeError
        | [] => Raise RuntimeError
        end).

Definition affine (l : list Q) : list Q := l.

Definition config (hidden_size num_path direction pixshuf_factor : Z)
  (concat : bool) : Config.t :=
  Config.mk hidden_size num_path direction pixshuf_factor concat
            1 4 false 0 0 0 0.

Definition build (c : Config.t) : Config.t * result MultiWayBlock.t :=
  MultiWayBlock.__init__ c block norm_layer affine.

(** The block built from a configuration the constructor accepts. *)
Definition built (c : Config.t) : MultiWayBlock.t :=
  match snd (build c) with
  | Ok self => self
  | Raise _ => MultiWayBlock.attributes c
  end.

(** A tensor of the given shape filled with [0, 1, 2, ...]. *)
Definition iota (s : list nat) : qtensor :=
  mkTensor s (map (fun k => inject_Z (Z.of_nat k)) (seq 0 (numel s))).

End Demo.

(** ** Concrete modules for the examples *)

Module Sample.

(** A stand-in for the exponential: positive on every rational. *)
Definition exp (v : Q) : Q := (1 + v * v)%Q.

Definition mlp : Mlp.t :=
  Mlp.mk (Linear.mk 2 3 [[1; 0]; [0; 1]; [1; 1]]%Q (Some [0; 0; 1]%Q))
         (fun v => (v * v)%Q) (Dropout.mk 0)
         (Linear.mk 3 2 [[1; 0; 0]; [0; 1; 1]]%Q (Some [0; 0]%Q))
         (Dropout.mk 0).

(** Two heads of width 2 on 4 channels. *)
Definition attention : MultiHeadSelfAttention.t :=
  MultiHeadSelfAttention.mk 2 1
    (Linear.mk 4 12
       [[1; 0; 0; 0]; [0; 1; 0; 0]; [0; 0; 1; 0]; [0; 0; 0; 1];
        [1; 1; 0; 0]; [0; 1; 1; 0]; [0; 0; 1; 1]; [1; 0; 0; 1];
        [1; 0; 1; 0]; [0; 1; 0; 1]; [1; 1; 1; 0]; [0; 1; 1; 1]]%Q None)
    (Dropout.mk (1 # 2))
    (Linear.mk 4 4
       [[1; 0; 0; 0]; [0; 1; 0; 0]; [0; 0; 1; 0]; [0; 0; 0; 1]]%Q
       (Some [0; 0; 0; 0]%Q))
    (Dropout.mk 0).

(** A block of 2 channels in 2 heads, hence of [head_dim = 1]: the query
    and key weights are zero, the value and output projections and the two
    layers of the [Mlp] are the identity matrix.  [power] stands for
    [head_dim ** -0.5]. *)
Definition plain_params (power : Z -> Q) : block_params :=
  mkParams power
    [[0; 0]; [0; 0]; [0; 0]; [0; 0]; [1; 0]; [0; 1]]%Q []
    [[1; 0]; [0; 1]]%Q [0; 0]%Q
    [[1; 0]; [0; 1]]%Q [0; 0]%Q
    [[1; 0]; [0; 1]]%Q [0; 0]%Q.

(** The two sub-modules [Block.__init__] builds from [plain_params]. *)
Definition plain_attention (scale : Q) : MultiHeadSelfAttention.t :=
  MultiHeadSelfAttention.mk 2 scale
    (Linear.mk 2 6 [[0; 0]; [0; 0]; [0; 0]; [0; 0]; [1; 0]; [0; 1]]%Q None)
    (Dropout.mk 0)
    (Linear.mk 2 2 [[1; 0]; [0; 1]]%Q (Some [0; 0]%Q))
    (Dropout.mk 0).

Definition plain_mlp : Mlp.t :=
  Mlp.mk (Linear.mk 2 2 [[1; 0]; [0; 1]]%Q (Some [0; 0]%Q)) (fun v => v)
         (Dropout.mk 0)
         (Linear.mk 2 2 [[1; 0]; [0; 1]]%Q (Some [0; 0]%Q)) (Dropout.mk 0).

(** Training mode with the exponential [e]; every dropout draw keeps its
    entry. *)
Definition training_run (e : Q -> Q) : run :=
  mkRun e true (fun _ => true) (fun _ => true) (fun _ => true)
        (fun _ => true).

(** [nn.Identity] in the place of [norm_layer]. *)
Definition identity_norm (_ : Z) : result layer := Ok (fun x => Ok x).

End Sample.

(** ** The training size of [train_polyp.py] *)

(** A Python number: an [int] or a [float]. *)
Inductive pynum : Type :=
| PInt (n : Z)
| PFloat (v : Q).

Definition num_value (p : pynum) : Q :=
  match p with
  | PInt n => inject_Z n
  | PFloat v => v
  end.

(** The result of one floating-point operation whose exact value is [q].
    A product beyond the floats is the float infinity, which stays infinite
    under the division by 32 and which [round] refuses with
    [OverflowError]; nothing else is done with it in between, so the
    exception is raised here. *)
Definition float_op (q : Q) : result Q :=
  let v := round_binary64 q in
  if float_overflow v then Raise OverflowError else Ok v.

(** Line 86 of [train]: [int(round(opt.img_size * rate / 32) * 32)].  With
    an [int] rate the product is an integer and the division the true
    division of two integers; with a [float] rate [img_size] is converted
    first and both operations are those of floats.  [round] returns the
    nearest integer, ties to even. *)
Definition trainsize (img_size : Z) (rate : pynum) : result Z :=
  match rate with
  | PInt n =>
      v <- float_op (inject_Z (img_size * n) / 32) ;;
      Ok (round_half_even v * 32)%Z
  | PFloat r =>
      x <- float_of_int img_size ;;
      y <- float_op (x * r) ;;
      z <- float_op (y / 32) ;;
      Ok (round_half_even z * 32)%Z
  end.

(** [size_rates = [0.75, 1, 1.25]]. *)
Definition size_rates : list pynum := [PFloat (3 # 4); PInt 1; PFloat (5 # 4)].

(** A block of 4 channels and 2 heads for the examples, in training mode. *)
Module SampleBlock.

Definition params : block_params :=
  mkParams (fun _ => 1%Q)
    (Linear.weight (MultiHeadSelfAttention.qkv Sample.attention)) []
    (Linear.weight (MultiHeadSelfAttention.proj Sample.attention))
    [0; 0; 0; 0]%Q
    [[1; 0; 0; 0]; [0; 1; 0; 0]; [0; 0; 1; 0]; [0; 0; 0; 1];
     [1; 1; 0; 0]; [0; 1; 1; 0]; [0; 0; 1; 1]; [1; 0; 0; 1]]%Q
    [0; 0; 0; 0; 1; 1; 1; 1]%Q
    [[1; 0; 0; 0; 0; 0; 0; 1]; [0; 1; 0; 0; 0; 0; 1; 0];
     [0; 0; 1; 0; 0; 1; 0; 0]; [0; 0; 0; 1; 1; 0; 0; 0]]%Q
    [0; 0; 0; 0]%Q.

Definition state : run :=
  mkRun Sample.exp true (fun k => Nat.even k) (fun _ => true)
        (fun k => Nat.odd k) (fun _ => true).

Definition block : Block.t :=
  match Block.__init__ 4 2 2 false (1 # 2) 0 (fun v => (v * v)%Q)
          (fun _ => Ok (fun x => Ok x)) (1 # 2) 0 params state with
  | Ok b => b
  | Raise _ =>
      Block.mk (fun x => Ok x) (fun x => Ok (x, x)) Block.GIdentity
               (fun x => Ok x) (fun x => Ok x) Block.GIdentity
  end.

End SampleBlock.


(** ** The rounds of [_forward_each_paths], one after the other *)

(** [chained self x idx ys]: the rounds for the indices [idx], started on
    [x], succeed and produce the maps [ys], each round being run on the map
    the round before it produced. *)
Fixpoint chained (self : MultiWayBlock.t) (x : qtensor) (idx : list Z)
  (ys : list qtensor) : Prop :=
  match idx, ys with
  | [], [] => True
  | i :: idx', y :: ys' =>
      (exists a, MultiWayBlock.each_path self i x = Ok (y, a))
      /\ chained self y idx' ys'
  | _, _ => False
  end.
(** * Properties *)

(** ** Tabulated lists *)

Section Tabulate.

Context {R : Type}.

Lemma flat_map_ext_in (A : Type) (f g : A -> list R) (l : list A) :
  (forall a, In a l -> f a = g a) -> flat_map f l = flat_map g l.
Proof.
  induction l as [|a l IH]; simpl; intros E; [reflexivity|].
  rewrite (E a) by (now left). rewrite IH; [reflexivity|].
  intros b Hb. apply E. now right.
Qed.

Lemma tab_ext (n : nat) (g g' : nat -> list R) :
  (forall i, i < n -> g i = g' i) -> tab n g = tab n g'.
Proof.
  intros E. apply flat_map_ext_in. intros i Hi. apply in_seq in Hi.
  apply E. lia.
Qed.

Lemma length_flat_map_seq (m : nat) (g : nat -> list R) (n s : nat) :
  (forall i, length (g i) = m) -> length (flat_map g (seq s n)) = n * m.
Proof.
  intros Hg. revert s. induction n as [|n IH]; intros s; simpl; [reflexivity|].
  rewrite length_app, Hg, IH. reflexivity.
Qed.

Lemma length_tab (m n : nat) (g : nat -> list R) :
  (forall i, length (g i) = m) -> length (tab n g) = n * m.
Proof. apply length_flat_map_seq. Qed.

Lemma nth_flat_map_seq (m : nat) (g : nat -> list R) (d : R) (n s i j : nat) :
  (forall i, length (g i) = m) -> i < n -> j < m ->
  nth (i * m + j) (flat_map g (seq s n)) d = nth j (g (s + i)) d.
Proof.
  intros Hg. revert s i. induction n as [|n IH]; intros s i Hi Hj; [lia|].
  simpl. destruct i as [|i].
  - simpl. rewrite app_nth1 by (rewrite Hg; exact Hj).
    now rewrite Nat.add_0_r.
  - rewrite app_nth2 by (rewrite Hg; simpl; lia).
    rewrite Hg. replace (S i * m + j - m) with (i * m + j) by (simpl; lia).
    rewrite IH by lia. f_equal. f_equal. lia.
Qed.

Lemma nth_tab (m n : nat) (g : nat -> list R) (d : R) (i j : nat) :
  (forall i, length (g i) = m) -> i < n -> j < m ->
  nth (i * m + j) (tab n g) d = nth j (g i) d.
Proof.
  intros Hg Hi Hj. unfold tab. now rewrite (nth_flat_map_seq m g d n 0 i j).
Qed.

Lemma length_tab4 (B C H W : nat) (g : nat -> nat -> nat -> nat -> R) :
  length (tab4 B C H W g) = B * C * H * W.
Proof.
  unfold tab4.
  rewrite (length_tab (C * H * W)); [lia|]. intros b.
  rewrite (length_tab (H * W)); [lia|]. intros c.
  rewrite (length_tab W); [lia|]. intros h.
  rewrite (length_tab 1); [lia|]. reflexivity.
Qed.

Lemma nth_tab4 (B C H W : nat) (g : nat -> nat -> nat -> nat -> R) (d : R)
  (b c h w : nat) :
  b < B -> c < C -> h < H -> w < W ->
  nth (flat4 C H W b c h w) (tab4 B C H W g) d = g b c h w.
Proof.
  intros Hb Hc Hh Hw. unfold tab4, flat4.
  assert (L1 : forall b c h w', length ((fun w => [g b c h w]) w') = 1)
    by reflexivity.
  assert (L2 : forall b c h,
             length (tab W (fun w => [g b c h w])) = W).
  { intros. rewrite (length_tab 1); [lia|]. reflexivity. }
  assert (L3 : forall b c,
             length (tab H (fun h => tab W (fun w => [g b c h w]))) = H * W).
  { intros. rewrite (length_tab W); [lia|]. intros. apply L2. }
  assert (L4 : forall b,
             length (tab C (fun c => tab H (fun h => tab W (fun w => [g b c h w]))))
             = C * (H * W)).
  { intros. rewrite (length_tab (H * W)); [lia|]. intros. apply L3. }
  replace (((b * C + c) * H + h) * W + w)
    with (b * (C * (H * W)) + (c * (H * W) + (h * W + (w * 1 + 0)))) by lia.
  assert (B1 : h * W + (w * 1 + 0) < H * W) by nia.
  assert (B2 : c * (H * W) + (h * W + (w * 1 + 0)) < C * (H * W)) by nia.
  rewrite (nth_tab (C * (H * W))); [|intros; apply L4|exact Hb|exact B2].
  rewrite (nth_tab (H * W)); [|intros; apply L3|exact Hc|exact B1].
  rewrite (nth_tab W); [|intros; apply L2|exact Hh|lia].
  rewrite (nth_tab 1); [|intros; apply L1|exact Hw|lia].
  reflexivity.
Qed.

Lemma tab4_ext (B C H W : nat) (g g' : nat -> nat -> nat -> nat -> R) :
  (forall b c h w, b < B -> c < C -> h < H -> w < W -> g b c h w = g' b c h w) ->
  tab4 B C H W g = tab4 B C H W g'.
Proof.
  intros E. unfold tab4.
  apply tab_ext; intros b Hb. apply tab_ext; intros c Hc.
  apply tab_ext; intros h Hh. apply tab_ext; intros w Hw.
  now rewrite E.
Qed.

End Tabulate.

Lemma map_tab {A R : Type} (f : A -> R) (n : nat) (g : nat -> list A) :
  map f (tab n g) = tab n (fun i => map f (g i)).
Proof.
  unfold tab. induction (seq 0 n) as [|a l IH]; simpl; [reflexivity|].
  now rewrite map_app, IH.
Qed.

Lemma map_tab4 {A R : Type} (f : A -> R) (B C H W : nat)
  (g : nat -> nat -> nat -> nat -> A) :
  map f (tab4 B C H W g) = tab4 B C H W (fun b c h w => f (g b c h w)).
Proof.
  unfold tab4. rewrite map_tab. apply tab_ext; intros b _.
  rewrite map_tab. apply tab_ext; intros c _.
  rewrite map_tab. apply tab_ext; intros h _.
  rewrite map_tab. reflexivity.
Qed.

(** Every offset below [B*C*H*W] is the offset of one index. *)
Lemma flat4_decompose (C H W k : nat) :
  0 < C -> 0 < H -> 0 < W ->
  k = flat4 C H W (k / (C * H * W)) (k / (H * W) mod C) (k / W mod H) (k mod W).
Proof.
  intros HC HH HW. unfold flat4.
  pose proof (Nat.div_mod_eq k W) as E1.
  pose proof (Nat.div_mod_eq (k / W) H) as E2.
  pose proof (Nat.div_mod_eq (k / W / H) C) as E3.
  rewrite (Nat.Div0.div_div k W H) in E2, E3.
  rewrite (Nat.Div0.div_div k (W * H) C) in E3.
  replace (C * H * W) with (W * H * C) by lia.
  replace (H * W) with (W * H) by lia.
  generalize dependent (k / (W * H * C)). intros a.
  generalize dependent (k / (W * H) mod C). intros m3.
  generalize dependent (k / (W * H)). intros q2.
  generalize dependent (k / W mod H). intros m2.
  generalize dependent (k / W). intros q1.
  generalize dependent (k mod W). intros m1.
  intros E1 E2 E3. subst k q1 q2. lia.
Qed.

Lemma tab4_flat4 (B C H W : nat) :
  tab4 B C H W (flat4 C H W) = seq 0 (B * C * H * W).
Proof.
  apply (nth_ext _ _ 0 0).
  - now rewrite length_tab4, length_seq.
  - intros k Hk. rewrite length_tab4 in Hk.
    assert (0 < C /\ 0 < H /\ 0 < W) as (HC & HH & HW) by nia.
    rewrite seq_nth by exact Hk. simpl.
    rewrite (flat4_decompose C H W k HC HH HW) at 1.
    rewrite nth_tab4.
    + symmetry. now apply flat4_decompose.
    + apply Nat.Div0.div_lt_upper_bound. nia.
    + now apply Nat.mod_upper_bound; lia.
    + now apply Nat.mod_upper_bound; lia.
    + now apply Nat.mod_upper_bound; lia.
Qed.

(** ** Gathering *)

Lemma gather_seq {R : Type} (src : list R) :
  gather src (seq 0 (length src)) = src.
Proof.
  destruct src as [|d l]; [reflexivity|]. unfold gather.
  apply (nth_ext _ _ d d).
  - now rewrite length_map, length_seq.
  - intros k Hk. rewrite length_map, length_seq in Hk.
    rewrite (nth_indep _ _ (nth 0 (d :: l) d))
      by (now rewrite length_map, length_seq).
    rewrite (map_nth (fun k => nth k (d :: l) d) (seq 0 (length (d :: l))) 0 k).
    now rewrite seq_nth.
Qed.

Lemma gather_gather {R : Type} (src : list R) (idx1 idx2 : list nat) :
  Forall (fun k => k < length idx1) idx2 ->
  gather (gather src idx1) idx2
  = gather src (map (fun k => nth k idx1 0) idx2).
Proof.
  intros Hin. destruct src as [|d l]; [reflexivity|].
  unfold gather at 2 3.
  destruct idx1 as [|i0 idx1].
  - destruct idx2 as [|k idx2]; [reflexivity|].
    inversion Hin as [|? ? Hk _]. simpl in Hk. lia.
  - set (F := fun k => nth k (d :: l) d).
    change (map F (i0 :: idx1)) with (F i0 :: map F idx1).
    unfold gather. rewrite map_map.
    apply map_ext_in. intros k Hk.
    rewrite Forall_forall in Hin. specialize (Hin k Hk).
    change (F i0 :: map F idx1) with (map F (i0 :: idx1)).
    rewrite (nth_indep _ _ (F 0)) by (now rewrite length_map).
    now rewrite map_nth.
Qed.

(** ** Pixel shuffle and unshuffle invert each other *)

Lemma Forall_tab4 (P : nat -> Prop) (B C H W : nat)
  (g : nat -> nat -> nat -> nat -> nat) :
  (forall b c h w, b < B -> c < C -> h < H -> w < W -> P (g b c h w)) ->
  Forall P (tab4 B C H W g).
Proof.
  intros Hg. apply Forall_forall. intros k Hk. unfold tab4, tab in Hk.
  apply in_flat_map in Hk as (b & Hb & Hk). apply in_seq in Hb.
  apply in_flat_map in Hk as (c & Hc & Hk). apply in_seq in Hc.
  apply in_flat_map in Hk as (h & Hh & Hk). apply in_seq in Hh.
  apply in_flat_map in Hk as (w & Hw & Hk). apply in_seq in Hw.
  destruct Hk as [<-|[]]. apply Hg; lia.
Qed.

Lemma flat4_lt (B C H W b c h w : nat) :
  b < B -> c < C -> h < H -> w < W -> flat4 C H W b c h w < B * C * H * W.
Proof.
  intros Hb Hc Hh Hw. unfold flat4.
  assert (b * C + c < B * C) by nia.
  assert ((b * C + c) * H + h < B * C * H) by nia.
  nia.
Qed.

Section IndexArithmetic.

Variable f : nat.
Hypothesis f_pos : 0 < f.

Lemma block_lt (i j : nat) : i < f -> j < f -> i * f + j < f * f.
Proof. intros. nia. Qed.

Lemma channel_div (c i j : nat) :
  i < f -> j < f -> (c * f * f + i * f + j) / (f * f) = c.
Proof.
  intros Hi Hj. symmetry.
  apply (Nat.div_unique _ _ _ (i * f + j)); [now apply block_lt|lia].
Qed.

Lemma channel_mod (c i j : nat) :
  i < f -> j < f -> (c * f * f + i * f + j) mod (f * f) = i * f + j.
Proof.
  intros Hi Hj. symmetry.
  apply (Nat.mod_unique _ _ c); [now apply block_lt|lia].
Qed.

Lemma channel_mod_row (c i j : nat) :
  j < f -> (c * f * f + i * f + j) mod f = j.
Proof. intros Hj. symmetry. apply (Nat.mod_unique _ _ (c * f + i)); lia. Qed.

Lemma row_div (i j : nat) : j < f -> (i * f + j) / f = i.
Proof. intros Hj. symmetry. apply (Nat.div_unique _ _ _ j); lia. Qed.

Lemma row_mod (i j : nat) : j < f -> (i * f + j) mod f = j.
Proof. intros Hj. symmetry. apply (Nat.mod_unique _ _ i); lia. Qed.

Lemma div_mod_back (h : nat) : h / f * f + h mod f = h.
Proof. pose proof (Nat.div_mod_eq h f). lia. Qed.

Lemma mod_lt (h : nat) : h mod f < f.
Proof. apply Nat.mod_upper_bound. lia. Qed.

Lemma exact_div (H : nat) : H mod f = 0 -> H / f * f = H.
Proof. intros E. pose proof (div_mod_back H). lia. Qed.

Lemma div_lt_exact (H h : nat) : H mod f = 0 -> h < H -> h / f < H / f.
Proof.
  intros E Hh. apply Nat.Div0.div_lt_upper_bound.
  rewrite Nat.mul_comm, exact_div by exact E. exact Hh.
Qed.

Lemma channel_split (c : nat) :
  c / (f * f) * f * f + (c mod (f * f)) / f * f + c mod f = c.
Proof.
  pose proof (Nat.div_mod_eq c (f * f)) as E1.
  pose proof (Nat.div_mod_eq (c mod (f * f)) f) as E2.
  assert (Em : (c mod (f * f)) mod f = c mod f).
  { rewrite Nat.Div0.mod_mul_r, (Nat.mul_comm f), Nat.Div0.mod_add.
    apply Nat.Div0.mod_mod. }
  lia.
Qed.

Lemma channel_row_lt (c : nat) : (c mod (f * f)) / f < f.
Proof.
  apply Nat.Div0.div_lt_upper_bound. apply Nat.mod_upper_bound. nia.
Qed.

(** Reading an unshuffled map through the shuffle offsets visits the offsets
    of the original map in order. *)
Lemma shuffle_unshuffle_index (B C H W : nat) :
  H mod f = 0 -> W mod f = 0 ->
  map (fun k => nth k (unshuffle_index B C H W f) 0)
      (shuffle_index B (C * f * f) (H / f) (W / f) f)
  = seq 0 (B * C * H * W).
Proof.
  intros EH EW. unfold shuffle_index.
  replace (C * f * f / (f * f)) with C
    by (rewrite <- Nat.mul_assoc, Nat.div_mul; lia).
  rewrite !exact_div by assumption.
  rewrite map_tab4, <- tab4_flat4.
  apply tab4_ext. intros b c h w Hb Hc Hh Hw.
  pose proof (mod_lt h). pose proof (mod_lt w).
  unfold unshuffle_index. rewrite nth_tab4.
  - rewrite channel_div, channel_mod, channel_mod_row, row_div by assumption.
    now rewrite !div_mod_back.
  - exact Hb.
  - assert (h mod f * f + w mod f < f * f) by (now apply block_lt). nia.
  - now apply div_lt_exact.
  - now apply div_lt_exact.
Qed.

(** Reading a shuffled map through the unshuffle offsets does the same. *)
Lemma unshuffle_shuffle_index (B C H W : nat) :
  C mod (f * f) = 0 ->
  map (fun k => nth k (shuffle_index B C H W f) 0)
      (unshuffle_index B (C / (f * f)) (H * f) (W * f) f)
  = seq 0 (B * C * H * W).
Proof.
  intros EC. unfold unshuffle_index.
  assert (EC' : C / (f * f) * f * f = C).
  { pose proof (Nat.div_mod_eq C (f * f)). lia. }
  rewrite EC', !Nat.div_mul by lia.
  rewrite map_tab4, <- tab4_flat4.
  apply tab4_ext. intros b c h w Hb Hc Hh Hw.
  pose proof (mod_lt c). pose proof (channel_row_lt c).
  unfold shuffle_index. rewrite nth_tab4.
  - rewrite !row_div, !row_mod by assumption.
    now rewrite channel_split.
  - exact Hb.
  - apply Nat.Div0.div_lt_upper_bound.
    pose proof (Nat.div_mod_eq C (f * f)). lia.
  - nia.
  - nia.
Qed.

Lemma shuffle_index_bound (B C H W : nat) :
  Forall (fun k => k < B * C * H * W) (shuffle_index B C H W f).
Proof.
  apply Forall_tab4. intros b c h w Hb Hc Hh Hw.
  pose proof (mod_lt h). pose proof (mod_lt w).
  apply flat4_lt.
  - exact Hb.
  - assert (h mod f * f + w mod f < f * f) by (now apply block_lt).
    pose proof (Nat.div_mod_eq C (f * f)).
    assert (S c <= C / (f * f)) by lia.
    assert (S c * (f * f) <= C / (f * f) * (f * f))
      by (apply Nat.mul_le_mono_r; assumption).
    lia.
  - apply Nat.Div0.div_lt_upper_bound. lia.
  - apply Nat.Div0.div_lt_upper_bound. lia.
Qed.

Lemma unshuffle_index_bound (B C H W : nat) :
  Forall (fun k => k < B * C * H * W) (unshuffle_index B C H W f).
Proof.
  apply Forall_tab4. intros b c h w Hb Hc Hh Hw.
  pose proof (mod_lt c). pose proof (channel_row_lt c).
  apply flat4_lt.
  - exact Hb.
  - apply Nat.Div0.div_lt_upper_bound. lia.
  - pose proof (Nat.div_mod_eq H f).
    assert (S h <= H / f) by lia.
    assert (S h * f <= H / f * f) by (apply Nat.mul_le_mono_r; assumption).
    lia.
  - pose proof (Nat.div_mod_eq W f).
    assert (S w <= W / f) by lia.
    assert (S w * f <= W / f * f) by (apply Nat.mul_le_mono_r; assumption).
    lia.
Qed.

End IndexArithmetic.

Lemma numel4 (B C H W : nat) : numel [B; C; H; W] = B * C * H * W.
Proof. simpl. lia. Qed.

Lemma unshuffle_then_shuffle {R : Type} (x : tensor R) (r : Z) (B C H W : nat) :
  shape x = [B; C; H; W] -> wf x -> (0 < r)%Z ->
  H mod Z.to_nat r = 0 -> W mod Z.to_nat r = 0 ->
  (u <- pixel_unshuffle r x ;; pixel_shuffle r u) = Ok x.
Proof.
  destruct x as [s d]. unfold wf. simpl. intros -> Hwf Hr EH EW.
  rewrite numel4 in Hwf.
  assert (Er : (r <=? 0)%Z = false) by (apply Z.leb_gt; exact Hr).
  assert (Hf : 0 < Z.to_nat r) by lia.
  unfold pixel_unshuffle. simpl shape. rewrite Er. cbv zeta.
  rewrite EH, EW. simpl andb. cbv iota. unfold bind.
  unfold pixel_shuffle. simpl shape. rewrite Er. cbv zeta.
  set (f := Z.to_nat r) in *.
  replace (C * f * f mod (f * f)) with 0
    by (rewrite <- Nat.mul_assoc, Nat.Div0.mod_mul; reflexivity).
  simpl Nat.eqb. cbv iota. simpl data.
  rewrite gather_gather.
  - rewrite (shuffle_unshuffle_index f Hf) by assumption.
    rewrite <- Hwf, gather_seq.
    replace (C * f * f / (f * f)) with C
      by (rewrite <- Nat.mul_assoc, Nat.div_mul; lia).
    now rewrite !(exact_div f Hf) by assumption.
  - unfold unshuffle_index at 1. rewrite length_tab4.
    apply (shuffle_index_bound f Hf).
Qed.

Lemma shuffle_then_unshuffle {R : Type} (x : tensor R) (r : Z) (B C H W : nat) :
  shape x = [B; C; H; W] -> wf x -> (0 < r)%Z ->
  C mod (Z.to_nat r * Z.to_nat r) = 0 ->
  (u <- pixel_shuffle r x ;; pixel_unshuffle r u) = Ok x.
Proof.
  destruct x as [s d]. unfold wf. simpl. intros -> Hwf Hr EC.
  rewrite numel4 in Hwf.
  assert (Er : (r <=? 0)%Z = false) by (apply Z.leb_gt; exact Hr).
  assert (Hf : 0 < Z.to_nat r) by lia.
  unfold pixel_shuffle. simpl shape. rewrite Er. cbv zeta.
  rewrite EC. simpl Nat.eqb. cbv iota. unfold bind.
  unfold pixel_unshuffle. simpl shape. rewrite Er. cbv zeta.
  set (f := Z.to_nat r) in *.
  rewrite !Nat.Div0.mod_mul. simpl andb. cbv iota. simpl data.
  rewrite gather_gather.
  - rewrite (unshuffle_shuffle_index f Hf) by assumption.
    rewrite <- Hwf, gather_seq.
    rewrite !Nat.div_mul by lia.
    replace (C / (f * f) * f * f) with C
      by (pose proof (Nat.div_mod_eq C (f * f)); lia).
    reflexivity.
  - unfold shuffle_index at 1. rewrite length_tab4.
    apply (unshuffle_index_bound f Hf).
Qed.

(** C6. Pixel unshuffle by a factor [r] followed by pixel shuffle by the same
    factor gives back a [B x C x H x W] tensor whose [H] and [W] are multiples
    of [r], and shuffle followed by unshuffle gives back a tensor whose [C] is
    a multiple of [r*r]: same shape, same entries.  This holds for every
    positive factor, in particular for 2, 3 and 4. *)
Theorem pixel_resample_round_trip {R : Type} (x : tensor R) (r : Z)
  (B C H W : nat) :
  shape x = [B; C; H; W] -> wf x -> (0 < r)%Z ->
  (H mod Z.to_nat r = 0 -> W mod Z.to_nat r = 0 ->
   (u <- pixel_unshuffle r x ;; pixel_shuffle r u) = Ok x)
  /\ (C mod (Z.to_nat r * Z.to_nat r) = 0 ->
      (u <- pixel_shuffle r x ;; pixel_unshuffle r u) = Ok x).
Proof.
  intros Hs Hwf Hr. split.
  - intros EH EW. now apply (unshuffle_then_shuffle x r B C H W).
  - intros EC. now apply (shuffle_then_unshuffle x r B C H W).
Qed.

Lemma pixel_resample_round_trip_witness :
  (u <- pixel_unshuffle 3 (Demo.iota [2; 1; 6; 3]) ;; pixel_shuffle 3 u)
  = Ok (Demo.iota [2; 1; 6; 3])
  /\ (u <- pixel_shuffle 2 (Demo.iota [1; 8; 1; 2]) ;; pixel_unshuffle 2 u)
     = Ok (Demo.iota [1; 8; 1; 2]).
Proof.
  split.
  - apply (pixel_resample_round_trip (Demo.iota [2; 1; 6; 3]) 3 2 1 6 3);
      reflexivity.
  - apply (pixel_resample_round_trip (Demo.iota [1; 8; 1; 2]) 2 1 8 1 2);
      reflexivity.
Defined.

(** ** Shapes of the tensor operations *)

Lemma view_shape {R : Type} (x y : tensor R) (s : list nat) :
  view x s = Ok y -> shape y = s.
Proof.
  unfold view. destruct (_ =? _); [|discriminate]. now intros [= <-].
Qed.

Lemma permute021_shape {R : Type} (x y : tensor R) :
  permute021 x = Ok y ->
  exists B N D, shape x = [B; N; D] /\ shape y = [B; D; N].
Proof.
  unfold permute021.
  destruct (shape x) as [|B [|N [|D [|? ?]]]]; try discriminate.
  intros [= <-]. now exists B, N, D.
Qed.

Lemma pixel_unshuffle_shape {R : Type} (x u : tensor R) (r : Z)
  (B C H W : nat) :
  shape x = [B; C; H; W] -> pixel_unshuffle r x = Ok u ->
  0 < Z.to_nat r /\ H mod Z.to_nat r = 0 /\ W mod Z.to_nat r = 0
  /\ shape u = [B; C * Z.to_nat r * Z.to_nat r; H / Z.to_nat r; W / Z.to_nat r].
Proof.
  intros Hs. unfold pixel_unshuffle. rewrite Hs.
  destruct (Z.leb_spec r 0); [discriminate|].
  destruct (Nat.eqb_spec (H mod Z.to_nat r) 0); [|discriminate].
  destruct (Nat.eqb_spec (W mod Z.to_nat r) 0); [|discriminate].
  simpl. intros [= <-]. repeat split; try assumption. lia.
Qed.

Lemma pixel_shuffle_shape {R : Type} (x u : tensor R) (r : Z)
  (B C H W : nat) :
  shape x = [B; C; H; W] -> pixel_shuffle r x = Ok u ->
  0 < Z.to_nat r /\ C mod (Z.to_nat r * Z.to_nat r) = 0
  /\ shape u = [B; C / (Z.to_nat r * Z.to_nat r); H * Z.to_nat r; W * Z.to_nat r].
Proof.
  intros Hs. unfold pixel_shuffle. rewrite Hs.
  destruct (Z.leb_spec r 0); [discriminate|].
  destruct (Nat.eqb_spec (C mod (Z.to_nat r * Z.to_nat r)) 0); [|discriminate].
  intros [= <-]. repeat split; try assumption. lia.
Qed.

(** ** [DropPath] *)

(** Called as the plain function it is defined as, [drop_path] hands its
    input back when the rate is zero or the training flag is off. *)
Lemma drop_path_identity (x : qtensor) (p : Q) (training scale : bool)
  (rnd : nat -> bool) :
  Qeq_bool p 0 = true \/ training = false ->
  DropPath.drop_path
    [DropPath.VTensor x; DropPath.VFloat p; DropPath.VBool training;
     DropPath.VBool scale] rnd
  = Ok (DropPath.VTensor x).
Proof.
  intros [E | ->]; unfold DropPath.drop_path; simpl.
  - now rewrite E.
  - now rewrite orb_true_r.
Qed.

(** The defaults of [drop_path] make the one-argument call the identity. *)
Lemma drop_path_defaults (x : qtensor) (rnd : nat -> bool) :
  DropPath.drop_path [DropPath.VTensor x] rnd = Ok (DropPath.VTensor x).
Proof. reflexivity. Qed.

(** C5 (the code departs from the claim).  [DropPath.forward] calls
    [self.drop_path] with four arguments; the bound method adds [self] in
    front, [drop_path] accepts four positional arguments at most, and the
    call raises [TypeError] for every module state and every input: the
    input is never returned. *)
Theorem DropPath_forward_raises (self : DropPath.t) (x : qtensor)
  (rnd : nat -> bool) :
  DropPath.forward self x rnd = Raise TypeError.
Proof. reflexivity. Qed.

(** ** [Block] *)

(** [Block.forward] never consults [drop_path1] and [drop_path2]. *)
Lemma Block_forward_ignores_gates (n1 : layer) (a : attn_module)
  (n2 m : layer) (g1 g2 g1' g2' : Block.gate) (x : qtensor) :
  Block.forward (Block.mk n1 a g1 n2 m g2) x
  = Block.forward (Block.mk n1 a g1' n2 m g2') x.
Proof. reflexivity. Qed.

(** Where StochasticDepth is the identity (rate zero, or evaluation mode)
    the block computes the composition of section 4.4. *)
Lemma Block_forward_spec_without_drop (self : Block.t) (rate : Q)
  (training : bool) (rnd1 rnd2 : nat -> bool) (x : qtensor) :
  Qeq_bool rate 0 = true \/ training = false ->
  Block.forward self x = spec_TransformerBlock self rate training rnd1 rnd2 x.
Proof.
  intros H.
  assert (E : Qeq_bool rate 0 || negb training = true).
  { destruct H as [-> | ->]; [reflexivity | apply orb_true_r]. }
  unfold Block.forward, spec_TransformerBlock, spec_StochasticDepth.
  rewrite E. unfold bind.
  destruct (Block.norm1 self x) as [n1|e]; [|reflexivity].
  destruct (Block.attn self n1) as [[a p]|e]; [|reflexivity].
  destruct (tadd x a) as [x1|e]; [|reflexivity].
  destruct (Block.norm2 self x1) as [n2|e]; [|reflexivity].
  destruct (Block.mlp self n2) as [m|e]; reflexivity.
Qed.

(** Replaces a closed term by its value. *)
Ltac evaluate t :=
  let v := eval vm_compute in t in change t with v.

(** The attention of the plain block on the tokens [[0; 1]]: both scores are
    0, each head attends to its single key with weight [e 0 / e 0], and the
    value projection returns the tokens. *)
Lemma plain_attention_forward (e : Q -> Q) (m1 m2 : nat -> bool) :
  e 0%Q = 1%Q ->
  MHSA.forward (Sample.plain_attention 1) e true m1 m2 (Demo.iota [1; 1; 2])
  = Ok (mkTensor [1; 1; 2] [0; 1]%Q, mkTensor [1; 2; 1; 1] [1; 1]%Q).
Proof.
  intros He. unfold MHSA.forward.
  evaluate (shape (Demo.iota [1; 1; 2])). cbv iota beta.
  evaluate (Linear.forward (MHSA.qkv (Sample.plain_attention 1))
              (Demo.iota [1; 1; 2])).
  cbn [bind].
  evaluate (MHSA.num_heads (Sample.plain_attention 1) =? 0)%Z.
  evaluate (MHSA.num_heads (Sample.plain_attention 1) <? 0)%Z.
  cbv iota zeta beta.
  match goal with
  | |- context [negb ?b] => evaluate (negb b)
  end.
  cbv iota.
  match goal with
  | |- context [MHSA.scores ?a ?b ?c ?d ?q ?k] =>
      evaluate (MHSA.scores a b c d q k)
  end.
  match goal with
  | |- context [map_rows ?n ?r (MHSA.softmax_row e) ?l] =>
      let n' := eval vm_compute in n in
      let r' := eval vm_compute in r in
      change (map_rows n r (MHSA.softmax_row e) l)
        with (map_rows n' r' (MHSA.softmax_row e) l);
      replace (map_rows n' r' (MHSA.softmax_row e) l) with [1; 1]%Q
  end.
  2:{ cbv [map_rows tab sample Nat.mul Nat.add firstn skipn seq flat_map app
           MHSA.softmax_row map sumQ fold_right].
      rewrite He. reflexivity. }
  vm_compute. reflexivity.
Qed.

(** C2 (the code departs from the claim).  A block of 2 channels and 2
    heads built with [drop_path = 1/2] owns two [DropPath] modules, yet in
    training mode, on a sample that StochasticDepth drops, [Block.forward]
    still adds both branches: on the input [[0; 1]] of shape [(1, 1, 2)] it
    returns [[0; 4]] where the composition of section 4.4 returns the input
    [[0; 1]].  [power] is [head_dim ** -0.5] and [e] the exponential of the
    softmax; the run evaluates them at [head_dim = 1] and at the score 0
    only. *)
Theorem Block_forward_not_gated (power : Z -> Q) (e : Q -> Q) :
  power 1%Z = 1%Q -> e 0%Q = 1%Q ->
  exists blk,
    Block.__init__ 2 2 1 false 0 0 (fun v => v) Sample.identity_norm
      (1 # 2) 0 (Sample.plain_params power) (Sample.training_run e) = Ok blk
    /\ Block.drop_path1 blk = Block.GDropPath (DropPath.__init__ (1 # 2) true)
    /\ Block.drop_path2 blk = Block.GDropPath (DropPath.__init__ (1 # 2) true)
    /\ Block.forward blk (Demo.iota [1; 1; 2])
       = Ok (mkTensor [1; 1; 2] [0; 4]%Q, mkTensor [1; 2; 1; 1] [1; 1]%Q)
    /\ spec_TransformerBlock blk (1 # 2) true (fun _ => false) (fun _ => false)
         (Demo.iota [1; 1; 2])
       = Ok (mkTensor [1; 1; 2] [0; 1]%Q, mkTensor [1; 2; 1; 1] [1; 1]%Q).
Proof.
  intros Hp He.
  exists (Block.mk (fun x => Ok x)
            (MHSA.forward (Sample.plain_attention (power 1%Z)) e true
               (fun _ => true) (fun _ => true))
            (Block.make_gate (1 # 2)) (fun x => Ok x)
            (Mlp.forward Sample.plain_mlp true (fun _ => true) (fun _ => true))
            (Block.make_gate (1 # 2))).
  split; [reflexivity|].
  split; [reflexivity|]. split; [reflexivity|].
  rewrite Hp. split.
  - unfold Block.forward.
    cbn [Block.norm1 Block.attn Block.norm2 Block.mlp bind].
    rewrite (plain_attention_forward e _ _ He). cbn [bind].
    vm_compute. reflexivity.
  - unfold spec_TransformerBlock.
    cbn [Block.norm1 Block.attn Block.norm2 Block.mlp bind].
    rewrite (plain_attention_forward e _ _ He). cbn [bind].
    vm_compute. reflexivity.
Qed.

Lemma Block_forward_not_gated_witness :
  exists blk,
    Block.__init__ 2 2 1 false 0 0 (fun v => v) Sample.identity_norm
      (1 # 2) 0 (Sample.plain_params (fun _ => 1%Q))
      (Sample.training_run Sample.exp) = Ok blk
    /\ Block.drop_path1 blk = Block.GDropPath (DropPath.__init__ (1 # 2) true)
    /\ Block.drop_path2 blk = Block.GDropPath (DropPath.__init__ (1 # 2) true)
    /\ Block.forward blk (Demo.iota [1; 1; 2])
       = Ok (mkTensor [1; 1; 2] [0; 4]%Q, mkTensor [1; 2; 1; 1] [1; 1]%Q)
    /\ spec_TransformerBlock blk (1 # 2) true (fun _ => false) (fun _ => false)
         (Demo.iota [1; 1; 2])
       = Ok (mkTensor [1; 1; 2] [0; 1]%Q, mkTensor [1; 2; 1; 1] [1; 1]%Q).
Proof.
  apply (Block_forward_not_gated (fun _ => 1%Q) Sample.exp);
    reflexivity.
Defined.

(** ** [MultiWayBlock]: construction *)

Lemma in_py_range (lo hi i : Z) :
  In i (py_range lo hi) <-> (lo <= i < hi)%Z.
Proof.
  unfold py_range. rewrite in_map_iff. split.
  - intros (k & <- & Hk). apply in_seq in Hk. lia.
  - intros Hi. exists (Z.to_nat (i - lo)). split; [lia|].
    apply in_seq. lia.
Qed.

Lemma py_range_snoc (n : Z) :
  (1 <= n)%Z -> py_range 1 (n + 1) = py_range 1 n ++ [n].
Proof.
  intros Hn. unfold py_range.
  replace (Z.to_nat (n + 1 - 1)) with (S (Z.to_nat (n - 1))) by lia.
  rewrite seq_S, map_app. f_equal. cbn [map Nat.add]. f_equal. lia.
Qed.

Lemma py_range_empty (lo hi : Z) : (hi <= lo)%Z -> py_range lo hi = [].
Proof.
  intros H. unfold py_range.
  replace (Z.to_nat (hi - lo)) with 0 by lia. reflexivity.
Qed.

Lemma set_hidden_size_twice (c : Config.t) (v w : Z) :
  Config.set_hidden_size (Config.set_hidden_size c v) w
  = Config.set_hidden_size c w.
Proof. reflexivity. Qed.

Lemma set_hidden_size_same (c : Config.t) :
  Config.set_hidden_size c (Config.hidden_size c) = c.
Proof. now destruct c. Qed.

Section Construction.

Variable block : MultiWayBlock.factory.

(** The caller's block class reads the configuration without writing it. *)
Hypothesis block_reads : forall c flag, fst (block c flag) = c.

(** Whatever happens in the loop of [make_path], only [hidden_size] moves. *)
Lemma make_path_loop_frame (self : MultiWayBlock.t) (c0 : Config.t)
  (idx : list Z) :
  forall (config : Config.t) (acc : list (Z * attn_module)),
    (exists v, config = Config.set_hidden_size c0 v) ->
    exists v,
      fst (MultiWayBlock.make_path_loop self block idx config acc)
      = Config.set_hidden_size c0 v.
Proof.
  induction idx as [|i rest IH]; intros config acc Hc; simpl.
  - exact Hc.
  - destruct (MultiWayBlock.new_dim self i) as [d|e]; [|exact Hc].
    pose proof (block_reads (Config.set_hidden_size config d) false) as Hb.
    destruct (block (Config.set_hidden_size config d) false) as [c' [m|e]];
      simpl in Hb; subst c'.
    + apply IH. destruct Hc as [v ->]. now exists d.
    + destruct Hc as [v ->]. now exists d.
Qed.

Lemma make_path_restores (self self' : MultiWayBlock.t)
  (config config' : Config.t) :
  MultiWayBlock.dim self = Config.hidden_size config ->
  MultiWayBlock.make_path self block config = (config', Ok self') ->
  config' = config.
Proof.
  intros Hd. unfold MultiWayBlock.make_path.
  destruct (make_path_loop_frame self config
              (py_range 1 (MultiWayBlock.num_path self + 1)) config [])
    as [v Hv].
  { exists (Config.hidden_size config). symmetry. apply set_hidden_size_same. }
  destruct (MultiWayBlock.make_path_loop self block _ config [])
    as [c1 [ps|e]]; simpl in Hv; [|discriminate].
  intros [= <- _]. subst c1.
  now rewrite set_hidden_size_twice, Hd, set_hidden_size_same.
Qed.

End Construction.

(** C10. When the caller's block class does not write to the configuration,
    a construction that returns leaves the configuration object equal, field
    by field, to the one the caller passed: [make_path] puts the base
    [hidden_size] back after the last path.  [forward] and
    [_forward_each_paths] never mention the configuration; their embeddings
    take no configuration argument. *)
Theorem construction_restores_config (config config' : Config.t)
  (block : MultiWayBlock.factory) (norm_layer : Z -> result layer)
  (affine : list Q -> list Q) (self : MultiWayBlock.t) :
  (forall c flag, fst (block c flag) = c) ->
  MultiWayBlock.__init__ config block norm_layer affine = (config', Ok self) ->
  config' = config.
Proof.
  intros Hb. unfold MultiWayBlock.__init__.
  destruct (negb _); [discriminate|].
  destruct (_ && _)%bool; [discriminate|].
  destruct (MultiWayBlock.make_path (MultiWayBlock.attributes config) block config)
    as [c1 [s1|e]] eqn:E; [|discriminate].
  apply (make_path_restores block Hb) in E; [|reflexivity]. subst c1.
  destruct (MultiWayBlock.concat s1); [|now intros [= <- _]].
  intros [= <- _]. reflexivity.
Qed.

Lemma construction_restores_config_witness :
  fst (Demo.build (Demo.config 16 3 0 2 true)) = Demo.config 16 3 0 2 true.
Proof.
  eapply (construction_restores_config (Demo.config 16 3 0 2 true) _
            Demo.block Demo.norm_layer Demo.affine).
  - intros c flag. reflexivity.
  - reflexivity.
Defined.

(** A construction that fails inside [make_path] returns early and leaves
    the derived width in the caller's configuration. *)
Lemma failed_construction_leaves_width :
  Demo.config 3 2 2 2 false <> Demo.config 0 2 2 2 false
  /\ MultiWayBlock.__init__ (Demo.config 3 2 2 2 false) Demo.strict_block
       Demo.norm_layer Demo.affine
     = (Demo.config 0 2 2 2 false, Raise AssertionError).
Proof. split; [discriminate | reflexivity]. Qed.

(** *** Binary64 quotients *)

Section Rounding.

Local Open Scope Q_scope.

Lemma round_half_even_cases (q : Q) :
  (round_half_even q = Qfloor q /\ q - inject_Z (Qfloor q) <= 1 # 2)
  \/ (round_half_even q = (Qfloor q + 1)%Z /\ 1 # 2 <= q - inject_Z (Qfloor q)).
Proof.
  unfold round_half_even.
  destruct (Qcompare_spec (q - inject_Z (Qfloor q)) (1 # 2)) as [E|L|G].
  - destruct (Z.even (Qfloor q)); [left | right]; split;
      try reflexivity; rewrite E; apply Qle_refl.
  - left. split; [reflexivity | now apply Qlt_le_weak].
  - right. split; [reflexivity | now apply Qlt_le_weak].
Qed.

Lemma round_half_even_near (q : Q) :
  inject_Z (round_half_even q) - q <= 1 # 2 /\ q - inject_Z (round_half_even q) <= 1 # 2.
Proof.
  pose proof (Qfloor_le q) as Hlo. pose proof (Qlt_floor q) as Hhi.
  rewrite inject_Z_plus in Hhi. change (inject_Z 1) with 1 in Hhi.
  destruct (round_half_even_cases q) as [[-> H] | [-> H]].
  - split; lra.
  - rewrite inject_Z_plus. change (inject_Z 1) with 1. split; lra.
Qed.

Lemma round_half_even_nonneg (q : Q) : 0 <= q -> (0 <= round_half_even q)%Z.
Proof.
  intros Hq.
  assert (0 <= Qfloor q)%Z.
  { change 0%Z with (Qfloor 0). now apply Qfloor_resp_le. }
  destruct (round_half_even_cases q) as [[-> _] | [-> _]]; lia.
Qed.

Lemma two_power_pos (z : Z) : 0 < 2 ^ z.
Proof. apply Qpower_0_lt. reflexivity. Qed.

(** [floor_log2] is a lower bound of the binary logarithm. *)
Lemma floor_log2_le (a : Q) : 0 < a -> 2 ^ floor_log2 a <= a.
Proof.
  intros Ha. unfold floor_log2.
  destruct (Qle_bool _ a) eqn:E; [now apply Qle_bool_iff|].
  destruct a as [n d]. cbn [Qnum Qden].
  assert (Hn : (0 < n)%Z).
  { unfold Qlt in Ha. simpl in Ha. lia. }
  replace (Z.log2 n - Z.log2 (Z.pos d) - 1)%Z
    with (Z.log2 n - Z.succ (Z.log2 (Z.pos d)))%Z by lia.
  rewrite Qpower_minus by discriminate.
  change 2 with (inject_Z 2).
  rewrite <- !Zpower_Qpower
    by (try apply Z.le_le_succ_r; apply Z.log2_nonneg).
  destruct (Z.log2_spec n Hn) as [Hlo _].
  destruct (Z.log2_spec (Z.pos d) ltac:(lia)) as [_ Hhi].
  set (X := (2 ^ Z.log2 n)%Z) in *.
  set (Y := (2 ^ Z.succ (Z.log2 (Z.pos d)))%Z) in *.
  apply Qle_shift_div_r.
  - change 0 with (inject_Z 0). rewrite <- Zlt_Qlt. lia.
  - unfold Qle, Qmult, inject_Z. simpl. nia.
Qed.

Lemma floor_log2_lt (a : Q) : 0 < a -> a < 2 ^ (floor_log2 a + 1).
Proof.
  intros Ha. unfold floor_log2.
  destruct (Qle_bool _ a) eqn:E.
  - destruct a as [n d]. cbn [Qnum Qden].
    assert (Hn : (0 < n)%Z).
    { unfold Qlt in Ha. simpl in Ha. lia. }
    replace (Z.log2 n - Z.log2 (Z.pos d) + 1)%Z
      with (Z.succ (Z.log2 n) - Z.log2 (Z.pos d))%Z by lia.
    rewrite Qpower_minus by discriminate.
    change 2 with (inject_Z 2).
    rewrite <- !Zpower_Qpower
      by (try apply Z.le_le_succ_r; apply Z.log2_nonneg).
    destruct (Z.log2_spec n Hn) as [_ Hhi].
    destruct (Z.log2_spec (Z.pos d) ltac:(lia)) as [Hlo _].
    assert (HY : (0 < 2 ^ Z.log2 (Z.pos d))%Z)
      by (apply Z.pow_pos_nonneg; [lia | apply Z.log2_nonneg]).
    set (X := (2 ^ Z.succ (Z.log2 n))%Z) in *.
    set (Y := (2 ^ Z.log2 (Z.pos d))%Z) in *.
    apply Qlt_shift_div_l.
    + change 0 with (inject_Z 0). rewrite <- Zlt_Qlt. lia.
    + assert (H1 : (n * Y <= n * Z.pos d)%Z) by nia.
      assert (H2 : (n * Z.pos d < X * Z.pos d)%Z) by nia.
      unfold Qlt, Qmult, inject_Z. cbn [Qnum Qden].
      rewrite ?Pos.mul_1_r, ?Z.mul_1_r. lia.
  - replace (Z.log2 (Qnum a) - Z.log2 (Z.pos (Qden a)) - 1 + 1)%Z
      with (Z.log2 (Qnum a) - Z.log2 (Z.pos (Qden a)))%Z by lia.
    apply Qnot_le_lt. intros H. apply Qle_bool_iff in H. congruence.
Qed.

(** A quotient below [2^1023] rounds to a finite float. *)
Lemma round_binary64_finite (q : Q) :
  Qabs q < 2 ^ 1023 -> float_overflow (round_binary64 q) = false.
Proof.
  intros Hq. unfold float_overflow.
  destruct (Qle_bool (2 ^ 1024) (Qabs (round_binary64 q))) eqn:E;
    [|reflexivity].
  exfalso. apply Qle_bool_iff in E. revert E.
  unfold round_binary64.
  destruct (Qeq_bool q 0) eqn:Ez.
  { intros E. vm_compute in E. now apply E. }
  apply Qeq_bool_neq in Ez.
  set (a := Qabs q) in *.
  assert (Ha : 0 < a).
  { pose proof (Qabs_nonneg q) as Hn. fold a in Hn.
    destruct (Qlt_le_dec 0 a) as [|Hle]; [assumption|].
    exfalso. apply Ez. apply Qabs_Qle_condition in Hle. lra. }
  set (e := Z.max (floor_log2 a - 52) (-1074)).
  set (t := 2 ^ e).
  assert (Ht : 0 < t) by apply two_power_pos.
  assert (He : (e <= 970)%Z).
  { pose proof (floor_log2_le a Ha) as Hl.
    destruct (Z_le_gt_dec 1023 (floor_log2 a)) as [Hbig|]; [|lia].
    pose proof (Qpower_le_compat_l 2 1023 (floor_log2 a) Hbig) as Hp.
    assert (2 ^ 1023 <= 2 ^ floor_log2 a) by (apply Hp; lra). lra. }
  assert (Ht' : t <= 2 ^ 970).
  { apply Qpower_le_compat_l; [exact He | lra]. }
  assert (H970 : 2 ^ 970 <= 2 ^ 1023).
  { apply Qpower_le_compat_l; [lia | lra]. }
  assert (H1024 : 2 ^ 1024 == 2 * 2 ^ 1023).
  { change 1024%Z with (1 + 1023)%Z. now rewrite Qpower_plus. }
  set (P := 2 ^ 1023) in *.
  set (x := a / t).
  pose proof (round_half_even_near x) as [Hup _].
  assert (Hx : 0 <= x).
  { unfold x. apply Qle_shift_div_l; [exact Ht | lra]. }
  pose proof (round_half_even_nonneg x Hx) as Hm.
  set (m := round_half_even x) in *.
  assert (Hm' : 0 <= inject_Z m).
  { change 0 with (inject_Z 0). now rewrite <- Zle_Qle. }
  assert (Hv : inject_Z m * t <= a + t * (1 # 2)).
  { assert (inject_Z m * t <= (x + (1 # 2)) * t).
    { apply Qmult_le_compat_r; lra. }
    assert ((x + (1 # 2)) * t == a + t * (1 # 2)).
    { unfold x. field. lra. }
    lra. }
  assert (Hv0 : 0 <= inject_Z m * t).
  { apply Qmult_le_0_compat; lra. }
  intros E.
  assert (Qabs (if Qle_bool 0 q then inject_Z m * t else - (inject_Z m * t))
          == inject_Z m * t) as Eabs.
  { destruct (Qle_bool 0 q).
    - now apply Qabs_pos.
    - rewrite Qabs_opp. now apply Qabs_pos. }
  rewrite Eabs in E. lra.
Qed.


Lemma Qabs_inject_Z (z : Z) : Qabs (inject_Z z) = inject_Z (Z.abs z).
Proof. reflexivity. Qed.

Lemma quotient_bound (a b : Z) :
  b <> 0%Z -> (Z.abs a < 2 ^ 1023)%Z ->
  Qabs (inject_Z a / inject_Z b) < 2 ^ 1023.
Proof.
  intros Hb Ha. unfold Qdiv.
  rewrite Qabs_Qmult, Qabs_Qinv, !Qabs_inject_Z.
  assert (HB : 1 <= inject_Z (Z.abs b)).
  { change 1 with (inject_Z 1). rewrite <- Zle_Qle. lia. }
  assert (HA : inject_Z (Z.abs a) < 2 ^ 1023).
  { change 2 with (inject_Z 2). rewrite <- Zpower_Qpower by lia.
    now rewrite <- Zlt_Qlt. }
  assert (HA0 : 0 <= inject_Z (Z.abs a)).
  { change 0 with (inject_Z 0). rewrite <- Zle_Qle. lia. }
  set (P := 2 ^ 1023) in *. set (A := inject_Z (Z.abs a)) in *.
  set (B := inject_Z (Z.abs b)) in *.
  apply Qlt_shift_div_r; [lra|].
  assert (0 <= A * (B - 1)) by (apply Qmult_le_0_compat; lra).
  assert (0 <= (P - A) * B) by (apply Qmult_le_0_compat; lra).
  assert (P * B == A * (B - 1) + (P - A) * B + A) by ring.
  destruct (Qlt_le_dec A (P * B)) as [|Hle]; [assumption|].
  exfalso.
  assert (0 < (P - A) * B).
  { apply Qmult_lt_0_compat; lra. }
  lra.
Qed.

Lemma round_half_even_comp (q q' : Q) :
  q == q' -> round_half_even q = round_half_even q'.
Proof.
  intros E. unfold round_half_even.
  rewrite (Qfloor_comp _ _ E).
  assert (E' : q - inject_Z (Qfloor q') == q' - inject_Z (Qfloor q'))
    by (rewrite E; reflexivity).
  now rewrite (Qcompare_comp _ _ E' _ _ (Qeq_refl (1 # 2))).
Qed.

Lemma round_half_even_Z (z : Z) : round_half_even (inject_Z z) = z.
Proof.
  unfold round_half_even. rewrite Qfloor_Z.
  assert (E : inject_Z z - inject_Z z == 0) by ring.
  rewrite (Qcompare_comp _ _ E _ _ (Qeq_refl (1 # 2))). reflexivity.
Qed.

(** A value with a significand below [2^53] and an exponent a float can
    carry is rounded to itself. *)
Lemma round_binary64_exact (q : Q) (m s : Z) :
  q == inject_Z m / 2 ^ s -> (Z.abs m < 2 ^ 53)%Z -> (0 <= s <= 1074)%Z ->
  round_binary64 q == q.
Proof.
  intros Eq Hm Hs. unfold round_binary64.
  destruct (Qeq_bool q 0) eqn:Ez.
  { apply Qeq_bool_iff in Ez. now rewrite Ez. }
  apply Qeq_bool_neq in Ez.
  assert (Hps : 0 < 2 ^ s) by apply two_power_pos.
  assert (Ea : Qabs q == inject_Z (Z.abs m) / 2 ^ s).
  { rewrite (Qabs_wd _ _ Eq). unfold Qdiv.
    rewrite Qabs_Qmult, Qabs_Qinv, Qabs_inject_Z.
    rewrite (Qabs_pos (2 ^ s)) by lra. reflexivity. }
  set (a := Qabs q) in *.
  assert (Ha : 0 < a).
  { pose proof (Qabs_nonneg q) as Hn. fold a in Hn.
    destruct (Qlt_le_dec 0 a) as [|Hle]; [assumption|].
    exfalso. apply Ez. apply Qabs_Qle_condition in Hle. lra. }
  pose proof (floor_log2_le a Ha) as Hlo.
  set (L := floor_log2 a) in *.
  set (e := Z.max (L - 52) (-1074)).
  assert (HM : inject_Z (Z.abs m) < 2 ^ 53).
  { change 2 with (inject_Z 2). rewrite <- Zpower_Qpower by lia.
    now rewrite <- Zlt_Qlt. }
  assert (Ha' : a < 2 ^ (53 - s)).
  { rewrite Ea, Qpower_minus by discriminate.
    unfold Qdiv. apply Qmult_lt_compat_r; [|exact HM].
    now apply Qinv_lt_0_compat. }
  assert (HL : (L < 53 - s)%Z).
  { destruct (Z_lt_ge_dec L (53 - s)) as [|Hge]; [assumption|]. exfalso.
    assert (2 ^ (53 - s) <= 2 ^ L)
      by (apply Qpower_le_compat_l; [lia | lra]).
    lra. }
  assert (He : (e <= - s)%Z) by (unfold e; lia).
  set (j := (- s - e)%Z).
  assert (Hj : (0 <= j)%Z) by (unfold j; lia).
  assert (Hpe : 0 < 2 ^ e) by apply two_power_pos.
  assert (Ex : a / 2 ^ e == inject_Z (Z.abs m * 2 ^ j)).
  { rewrite Ea, inject_Z_mult, Zpower_Qpower by exact Hj.
    change (inject_Z 2) with 2. unfold j.
    replace (- s - e)%Z with (- s + - e)%Z by lia.
    rewrite Qpower_plus, !Qpower_opp by discriminate.
    field. split; lra. }
  rewrite (round_half_even_comp _ _ Ex), round_half_even_Z.
  assert (Ev : inject_Z (Z.abs m * 2 ^ j) * 2 ^ e == a).
  { rewrite <- Ex. field. lra. }
  destruct (Qle_bool 0 q) eqn:Es.
  - apply Qle_bool_iff in Es. rewrite Ev. unfold a. now apply Qabs_pos.
  - assert (q <= 0).
    { apply Qlt_le_weak, Qnot_le_lt. intros H.
      apply Qle_bool_iff in H. congruence. }
    rewrite Ev. unfold a. rewrite Qabs_neg by assumption. ring.
Qed.

End Rounding.

(** The quotient is rounded before [int] truncates it, and it may be
    beyond the floats. *)
Lemma int_truediv_examples :
  int_truediv 6 4 = Ok 1%Z
  /\ int_truediv (-7) 2 = Ok (-3)%Z
  /\ int_truediv (2 ^ 54 - 1) 4 = Ok (2 ^ 52)%Z
  /\ int_truediv (10 ^ 400) (10 ^ 399) = Ok 10%Z
  /\ int_truediv (10 ^ 400) 4 = Raise OverflowError
  /\ int_truediv 1 0 = Raise ZeroDivisionError.
Proof. repeat split; vm_compute; reflexivity. Qed.

Lemma float_of_int_examples :
  float_of_int (2 ^ 53 + 1) = Ok (inject_Z (2 ^ 53))
  /\ float_of_int (2 ^ 1024 - 2 ^ 970 - 1)
     = Ok (inject_Z (2 ^ 1024 - 2 ^ 971))
  /\ float_of_int (2 ^ 1024 - 2 ^ 970) = Raise OverflowError.
Proof. repeat split; vm_compute; reflexivity. Qed.

Lemma int_truediv_defined (a b : Z) :
  b <> 0%Z -> (Z.abs a < 2 ^ 1023)%Z -> exists z, int_truediv a b = Ok z.
Proof.
  intros Hb Ha. unfold int_truediv.
  destruct (Z.eqb_spec b 0); [contradiction|].
  rewrite round_binary64_finite by (now apply quotient_bound). eauto.
Qed.

Lemma int_of_float_Z (v : Q) (z : Z) : (v == inject_Z z)%Q -> int_of_float v = z.
Proof.
  intros E. unfold int_of_float.
  destruct (Qle_bool 0 v).
  - rewrite (Qfloor_comp _ _ E). apply Qfloor_Z.
  - rewrite (Qceiling_comp _ _ E). apply Qceiling_Z.
Qed.

(** An exact quotient below [2^53] is returned as it is. *)
Lemma int_truediv_exact (k b : Z) :
  b <> 0%Z -> (Z.abs k < 2 ^ 53)%Z -> int_truediv (k * b) b = Ok k.
Proof.
  intros Hb Hk. unfold int_truediv.
  destruct (Z.eqb_spec b 0); [contradiction|].
  assert (E : (inject_Z (k * b) / inject_Z b == inject_Z k / 2 ^ 0)%Q).
  { rewrite inject_Z_mult. simpl. field.
    change 0%Q with (inject_Z 0). rewrite inject_Z_injective. exact Hb. }
  assert (Hq : (Qabs (inject_Z (k * b) / inject_Z b) < 2 ^ 1023)%Q).
  { rewrite (Qabs_wd _ _ E).
    change (inject_Z k / 2 ^ 0)%Q with (inject_Z k / inject_Z 1)%Q.
    apply quotient_bound; [discriminate|].
    apply Z.lt_trans with (2 ^ 53)%Z; [exact Hk | reflexivity]. }
  rewrite (round_binary64_finite _ Hq). f_equal.
  apply int_of_float_Z.
  rewrite (round_binary64_exact _ k 0 E Hk ltac:(lia)), E. simpl. field.
Qed.

(** *** Which configurations are refused *)

(** With a non-zero factor and a base width within the floats every width
    of the loop is computed. *)
Lemma new_dim_defined (self : MultiWayBlock.t) (i : Z) :
  MultiWayBlock.pixshuf_factor self <> 0%Z ->
  (Z.abs (MultiWayBlock.dim self) < 2 ^ 1023)%Z -> (1 <= i)%Z ->
  exists d, MultiWayBlock.new_dim self i = Ok d.
Proof.
  intros Hf Hd Hi. unfold MultiWayBlock.new_dim.
  destruct (MultiWayBlock.direction self =? 0)%Z.
  - destruct (Z.ltb_spec i (MultiWayBlock.median self)); [eauto|].
    destruct (Z.gtb_spec i (MultiWayBlock.median self)); [|eauto].
    apply int_truediv_defined; [|exact Hd]. apply Z.pow_nonzero; lia.
  - destruct (MultiWayBlock.direction self =? 1)%Z.
    + destruct (i =? 1)%Z; eauto.
    + destruct (i =? 1)%Z; [eauto|].
      apply int_truediv_defined; [|exact Hd]. apply Z.pow_nonzero; lia.
Qed.

(** The loop of [make_path] completes when every width it derives is
    computed and accepted by the block class; [reachable] holds of the
    configurations the block class is called on. *)
Lemma make_path_loop_defined (self : MultiWayBlock.t)
  (block : MultiWayBlock.factory) (reachable : Config.t -> Prop)
  (idx : list Z) :
  (forall c d, reachable c -> reachable (Config.set_hidden_size c d)) ->
  (forall c, reachable c -> reachable (fst (block c false))) ->
  (forall i, In i idx ->
     exists d, MultiWayBlock.new_dim self i = Ok d
               /\ forall c, reachable c -> Config.hidden_size c = d ->
                            exists m, snd (block c false) = Ok m) ->
  forall config acc,
    reachable config ->
    exists config' ps,
      MultiWayBlock.make_path_loop self block idx config acc = (config', Ok ps).
Proof.
  intros Hset Hblock.
  induction idx as [|i rest IH]; intros Hd config acc Hr; simpl.
  - eauto.
  - destruct (Hd i) as (d & -> & Hb); [now left|].
    pose proof (Hset config d Hr) as Hr'.
    destruct (Hb _ Hr' eq_refl) as (m & Hm).
    pose proof (Hblock _ Hr') as Hr''.
    destruct (block (Config.set_hidden_size config d) false) as [c' r].
    simpl in Hm, Hr''. subst r.
    apply IH; [|exact Hr'']. intros j Hj. apply Hd. now right.
Qed.

Lemma make_path_attributes (self self' : MultiWayBlock.t)
  (block : MultiWayBlock.factory) (config config' : Config.t) :
  MultiWayBlock.make_path self block config = (config', Ok self') ->
  exists ps, self' = MultiWayBlock.set_paths self ps.
Proof.
  unfold MultiWayBlock.make_path.
  destruct (MultiWayBlock.make_path_loop self block _ config [])
    as [c1 [ps|e]]; [|discriminate].
  intros [= _ <-]. now exists ps.
Qed.

Lemma asserted_invalid_tests (c : Config.t) :
  asserted_invalid c <->
  (negb ((Config.direction c =? 0) || (Config.direction c =? 1)
         || (Config.direction c =? 2))%Z = true
   \/ ((Config.direction c =? 0) && (Config.num_path c mod 2 =? 0))%Z = true).
Proof.
  unfold asserted_invalid.
  rewrite negb_true_iff, andb_true_iff, !orb_false_iff, !Z.eqb_neq, !Z.eqb_eq.
  intuition lia.
Qed.

(** The two tests of the constructor come first: a configuration they
    refuse raises [AssertionError] and nothing is built or written. *)
Lemma construction_asserts (config : Config.t)
  (block : MultiWayBlock.factory) (norm_layer : Z -> result layer)
  (affine : list Q -> list Q) :
  asserted_invalid config ->
  MultiWayBlock.__init__ config block norm_layer affine
  = (config, Raise AssertionError).
Proof.
  intros Hbad. apply asserted_invalid_tests in Hbad.
  unfold MultiWayBlock.__init__.
  destruct (negb _); [reflexivity|].
  destruct Hbad as [Hbad | ->]; [discriminate | reflexivity].
Qed.

(** C4, as the code has it.  Construction raises [AssertionError], before
    anything else is done, when [direction] is outside {0,1,2} or [direction]
    is 0 and [num_path] is even.  When every path can be built and, in concat
    mode, [norm_layer] accepts [total_dim] and the sizes of [self.fc] are not
    negative, these are the only configurations on which it raises.  A path
    can be built when its width is computed and the block class accepts the
    configurations carrying it; [reachable] is any set of configurations
    that holds the caller's and is closed under the assignment to
    [hidden_size] and under what the block class writes.  No test looks at
    the working dimensions: [int()] truncates the quotient. *)
Theorem construction_raises_iff (config : Config.t)
  (block : MultiWayBlock.factory) (norm_layer : Z -> result layer)
  (affine : list Q -> list Q) (reachable : Config.t -> Prop) :
  reachable config ->
  (forall c d, reachable c -> reachable (Config.set_hidden_size c d)) ->
  (forall c, reachable c -> reachable (fst (block c false))) ->
  (forall i, (1 <= i <= Config.num_path config)%Z ->
     exists d,
       MultiWayBlock.new_dim (MultiWayBlock.attributes config) i = Ok d
       /\ forall c, reachable c -> Config.hidden_size c = d ->
                    exists m, snd (block c false) = Ok m) ->
  (Config.concat config = true ->
   (exists l,
      norm_layer (Config.hidden_size config * Config.num_path config)%Z = Ok l)
   /\ (0 <= Config.hidden_size config * Config.num_path config)%Z
   /\ (0 <= Config.hidden_size config)%Z) ->
  (raises (snd (MultiWayBlock.__init__ config block norm_layer affine))
   <-> asserted_invalid config)
  /\ (asserted_invalid config ->
      MultiWayBlock.__init__ config block norm_layer affine
      = (config, Raise AssertionError)).
Proof.
  intros Hr Hset Hblock Hb Hsize.
  split; [|apply construction_asserts]. split.
  - intros [e He]. apply asserted_invalid_tests.
    unfold MultiWayBlock.__init__ in He.
    destruct (negb _); [now left|].
    destruct (_ && _)%bool; [now right|]. exfalso.
    destruct (make_path_loop_defined (MultiWayBlock.attributes config) block
                reachable (py_range 1 (Config.num_path config + 1))
                Hset Hblock) with
      (config := config) (acc := @nil (Z * attn_module)) as (c1 & ps & Hl).
    { intros i Hi. apply in_py_range in Hi. apply Hb. lia. }
    { exact Hr. }
    unfold MultiWayBlock.make_path in He.
    change (MultiWayBlock.num_path (MultiWayBlock.attributes config))
      with (Config.num_path config) in He.
    rewrite Hl in He. cbn [MultiWayBlock.concat MultiWayBlock.set_paths] in He.
    change (MultiWayBlock.concat (MultiWayBlock.attributes config))
      with (Config.concat config) in He.
    destruct (Config.concat config); [|discriminate].
    destruct (Hsize eq_refl) as ([l Hl'] & Ht & Hh).
    cbn [MultiWayBlock.total_dim MultiWayBlock.dim MultiWayBlock.attributes] in He.
    simpl in He. rewrite Hl' in He. unfold nn_Linear in He. simpl in He.
    destruct (Z.ltb_spec (Config.hidden_size config * Config.num_path config) 0);
      [lia|].
    destruct (Z.ltb_spec (Config.hidden_size config) 0); [lia|].
    discriminate.
  - intros Hi. exists AssertionError.
    now rewrite (construction_asserts config block norm_layer affine Hi).
Qed.

Lemma construction_raises_iff_witness :
  (raises (snd (MultiWayBlock.__init__ (Demo.config 16 3 0 2 true)
                  Demo.strict_block Demo.norm_layer Demo.affine))
   <-> asserted_invalid (Demo.config 16 3 0 2 true))
  /\ (asserted_invalid (Demo.config 16 3 0 2 true) ->
      MultiWayBlock.__init__ (Demo.config 16 3 0 2 true)
        Demo.strict_block Demo.norm_layer Demo.affine
      = (Demo.config 16 3 0 2 true, Raise AssertionError)).
Proof.
  apply (construction_raises_iff (Demo.config 16 3 0 2 true)
           Demo.strict_block Demo.norm_layer Demo.affine (fun _ => True)).
  - exact I.
  - intros c d _. exact I.
  - intros c _. exact I.
  - intros i Hi. simpl in Hi.
    assert (Hc : i = 1%Z \/ i = 2%Z \/ i = 3%Z) by lia.
    destruct Hc as [-> | [-> | ->]];
      (eexists; split; [vm_compute; reflexivity|]);
      intros c _ Hc; unfold Demo.strict_block; rewrite Hc;
      eexists; reflexivity.
  - intros _. split; [eexists; reflexivity|]. simpl. lia.
Defined.

(** C4, counterexample.  With [hidden_size = 6], [direction = 2],
    [num_path = 2] and [pixshuf_factor = 2] the second path has working
    dimension 6/4, which is not an integer, so the configuration is invalid
    in the sense of section 4.5; construction completes all the same and
    builds the second path at width 1. *)
Lemma construction_accepts_fractional_width :
  ~ (raises (snd (Demo.build (Demo.config 6 2 2 2 false)))
     <-> spec_invalid (Demo.config 6 2 2 2 false) = true).
Proof.
  intros [_ H]. destruct (H eq_refl) as [e He].
  vm_compute in He. discriminate He.
Qed.

Lemma fractional_width_truncated :
  spec_working_dim (Demo.config 6 2 2 2 false) 2 == 3 # 2
  /\ exists self,
       snd (Demo.build (Demo.config 6 2 2 2 false)) = Ok self
       /\ MultiWayBlock.new_dim self 2 = Ok 1%Z.
Proof.
  split; [reflexivity|]. eexists. split; reflexivity.
Qed.

(** ** [MultiWayBlock]: the widths of construction and of [forward] *)

(** C1 (the code departs from the claim).  [make_path] sizes a path by
    [pixshuf_factor ** (2*k)], [_forward_each_paths] resamples by the factor
    [pixshuf_factor * k], which multiplies the channels by
    [(pixshuf_factor * k) ** 2].  With [direction = 1], [num_path = 3],
    [pixshuf_factor = 3] and [hidden_size = 4], path 3 is built at width 324
    and receives, from a 6 x 6 map, channels of width 144; the block built at
    324 refuses them and [forward] raises. *)
Theorem path_width_mismatch :
  spec_invalid (Demo.config 4 3 1 3 false) = false
  /\ exists self x,
       snd (Demo.build (Demo.config 4 3 1 3 false)) = Ok self
       /\ MultiWayBlock.spatial (Demo.iota [1; 36; 4]) = Ok x
       /\ shape x = [1; 4; 6; 6]
       /\ MultiWayBlock.new_dim self 3 = Ok 324%Z
       /\ (exists t, MultiWayBlock.resample_in self 3 x = Ok t
                     /\ shape t = [1; 144; 1; 1])
       /\ MultiWayBlock.forward self (Demo.iota [1; 36; 4]) = Raise RuntimeError.
Proof.
  split; [reflexivity|]. eexists. eexists.
  split; [reflexivity|]. split; [vm_compute; reflexivity|].
  split; [reflexivity|]. split; [reflexivity|]. split.
  - eexists. split; [vm_compute; reflexivity | reflexivity].
  - vm_compute. reflexivity.
Qed.

(** Under [direction = 1], path [i >= 2] is built at width
    [dim * f ** (2*(i-1))] and receives channels of width
    [dim * (f*(i-1)) ** 2] whenever its resampling succeeds. *)
Lemma expand_widths (self : MultiWayBlock.t) (x t : qtensor) (i : Z)
  (B H W : nat) :
  MultiWayBlock.direction self = 1%Z -> (2 <= i)%Z ->
  (0 <= MultiWayBlock.dim self)%Z ->
  shape x = [B; Z.to_nat (MultiWayBlock.dim self); H; W] ->
  MultiWayBlock.resample_in self i x = Ok t ->
  MultiWayBlock.new_dim self i
  = Ok (MultiWayBlock.dim self
        * MultiWayBlock.pixshuf_factor self ^ ((i - 1) * 2))%Z
  /\ nth 1 (shape t) 0
     = Z.to_nat (MultiWayBlock.dim self
                 * (MultiWayBlock.pixshuf_factor self * (i - 1)) ^ 2)%Z.
Proof.
  intros Hdir Hi Hd Hs.
  unfold MultiWayBlock.resample_in, MultiWayBlock.select_shuf,
    MultiWayBlock.new_dim.
  rewrite Hdir. cbn [Z.eqb Pos.eqb].
  destruct (Z.eqb_spec i 1); [lia|]. cbn [apply_shuf].
  intros Hu. split; [reflexivity|].
  destruct (pixel_unshuffle_shape x t _ _ _ _ _ Hs Hu) as (Hf & _ & _ & ->).
  cbn [nth]. rewrite Z.pow_2_r, !Z2Nat.inj_mul by nia. lia.
Qed.

(** Next to the untouched path ([i = 2]) the two widths are the same. *)
Lemma first_step_widths_agree (self : MultiWayBlock.t) (x t : qtensor)
  (B H W : nat) :
  MultiWayBlock.direction self = 1%Z ->
  (0 <= MultiWayBlock.dim self)%Z ->
  shape x = [B; Z.to_nat (MultiWayBlock.dim self); H; W] ->
  MultiWayBlock.resample_in self 2 x = Ok t ->
  exists d, MultiWayBlock.new_dim self 2 = Ok d
            /\ nth 1 (shape t) 0 = Z.to_nat d.
Proof.
  intros Hdir Hd Hs Hr.
  destruct (expand_widths self x t 2 B H W Hdir ltac:(lia) Hd Hs Hr)
    as [Hn Hw].
  eexists. split; [exact Hn|]. rewrite Hw. f_equal.
  change ((2 - 1) * 2)%Z with 2%Z. now rewrite Z.mul_1_r.
Qed.

(** C3 (the code departs from the claim).  [direction = 2], [num_path = 3],
    [pixshuf_factor = 3], [hidden_size = 81] is a valid configuration: the
    working dimensions are 81, 9 and 1.  The input of shape [(1, 36, 81)] has
    a square token count whose side 6 is a multiple of both resample factors,
    3 and 6.  Path 3 applies [PixelShuffle(6)] to 81 channels, which 36 does
    not divide: [forward] raises instead of returning a tensor of the input
    shape. *)
Theorem forward_raises_on_valid_input :
  spec_invalid (Demo.config 81 3 2 3 false) = false
  /\ exists self,
       snd (Demo.build (Demo.config 81 3 2 3 false)) = Ok self
       /\ map (MultiWayBlock.new_dim self) [1; 2; 3]%Z = [Ok 81; Ok 9; Ok 1]%Z
       /\ MultiWayBlock.select_shuf self 3
          = Some (PixelShuffle 6, PixelUnshuffle 6)
       /\ MultiWayBlock.forward self (Demo.iota [1; 36; 81]) = Raise RuntimeError.
Proof.
  split; [vm_compute; reflexivity|]. eexists.
  split; [reflexivity|]. split; [reflexivity|]. split; [reflexivity|].
  vm_compute. reflexivity.
Qed.

(** ** [MultiWayBlock.forward] *)

Lemma spatial_non_square (x : qtensor) (B N D : nat) :
  shape x = [B; N; D] -> 0 < B -> 0 < D -> (forall k, k * k <> N) ->
  MultiWayBlock.spatial x = Raise RuntimeError.
Proof.
  intros Hs HB HD Hsq.
  unfold MultiWayBlock.spatial, permute021. rewrite Hs. unfold bind, view.
  cbn [shape numel fold_right].
  destruct (Nat.eqb_spec (B * (D * (Nat.sqrt N * (Nat.sqrt N * 1))))
              (B * (D * (N * 1)))) as [E|_]; [|reflexivity].
  exfalso. apply (Hsq (Nat.sqrt N)). rewrite !Nat.mul_1_r in E.
  apply Nat.mul_cancel_l in E; [|lia]. apply Nat.mul_cancel_l in E; [|lia].
  exact E.
Qed.

(** C8, as the code has it.  On a non-empty input (batch and width at least
    1) whose token count is not a perfect square, [forward] raises the
    [RuntimeError] of its first [view]. *)
Theorem forward_raises_on_non_square (self : MultiWayBlock.t) (x : qtensor)
  (B N D : nat) :
  shape x = [B; N; D] -> 0 < B -> 0 < D -> (forall k, k * k <> N) ->
  MultiWayBlock.forward self x = Raise RuntimeError.
Proof.
  intros Hs HB HD Hsq. unfold MultiWayBlock.forward. rewrite Hs.
  now rewrite (spatial_non_square x B N D).
Qed.

Lemma ten_not_square (k : nat) : k * k <> 10.
Proof. destruct k as [|[|[|[|k]]]]; simpl; lia. Qed.

Lemma forward_raises_on_non_square_witness :
  MultiWayBlock.forward (MultiWayBlock.attributes (Demo.config 4 1 1 2 false))
    (Demo.iota [1; 10; 4])
  = Raise RuntimeError.
Proof.
  apply (forward_raises_on_non_square _ (Demo.iota [1; 10; 4]) 1 10 4).
  - reflexivity.
  - lia.
  - lia.
  - exact ten_not_square.
Defined.

(** C8, counterexample.  An empty batch of ten tokens passes every [view]
    (all sizes are zero) and [forward] returns a tensor of shape
    [(0, 10, 4)]. *)
Lemma forward_accepts_empty_non_square :
  (forall k, k * k <> 10)
  /\ exists self y a,
       snd (Demo.build (Demo.config 4 1 1 2 false)) = Ok self
       /\ shape (Demo.iota [0; 10; 4]) = [0; 10; 4]
       /\ MultiWayBlock.forward self (Demo.iota [0; 10; 4]) = Ok (y, a)
       /\ shape y = [0; 10; 4].
Proof.
  split; [exact ten_not_square|]. eexists. eexists. eexists.
  split; [reflexivity|]. split; [reflexivity|].
  split; [vm_compute; reflexivity | reflexivity].
Qed.

(** *** The attention map that is returned *)

Lemma each_paths_loop_app (self : MultiWayBlock.t) (l1 l2 : list Z) :
  forall st,
    MultiWayBlock.each_paths_loop self (l1 ++ l2) st
    = (st' <- MultiWayBlock.each_paths_loop self l1 st ;;
       MultiWayBlock.each_paths_loop self l2 st').
Proof.
  induction l1 as [|i l1 IH]; intros st; simpl; [reflexivity|].
  destruct (MultiWayBlock.each_path self i (MultiWayBlock.cur st))
    as [[x a]|e]; simpl; [apply IH | reflexivity].
Qed.

(** A round hands back the attention map its path module produced on the
    tokens the round fed it. *)
Lemma each_path_attention (self : MultiWayBlock.t) (i : Z) (x y a : qtensor) :
  MultiWayBlock.each_path self i x = Ok (y, a) ->
  exists tok path out,
    MultiWayBlock.tokens_in self i x = Ok tok
    /\ MultiWayBlock.lookup i (MultiWayBlock.paths self) = Ok path
    /\ path tok = Ok (out, a).
Proof.
  unfold MultiWayBlock.each_path, MultiWayBlock.tokens_in.
  destruct (MultiWayBlock.resample_in self i x) as [x1|e]; [|discriminate].
  simpl. destruct (shape x1) as [|B [|D [|H [|W [|? ?]]]]]; try discriminate.
  destruct (view x1 [B; D; H * W]) as [x2|e]; [|discriminate]. simpl.
  destruct (permute021 x2) as [tok|e]; [|discriminate]. simpl.
  destruct (MultiWayBlock.lookup i (MultiWayBlock.paths self)) as [path|e];
    [|discriminate]. simpl.
  destruct (path tok) as [[out a']|e] eqn:Ep; [|discriminate]. simpl.
  destruct (permute021 out) as [x3|e]; [|discriminate]. simpl.
  destruct (view x3 [B; D; H; W]) as [x4|e]; [|discriminate]. simpl.
  destruct (MultiWayBlock.resample_out self i x4) as [x5|e]; [|discriminate].
  simpl. intros [= _ <-]. exists tok, path, out. auto.
Qed.

Lemma forward_each_paths_last (self : MultiWayBlock.t) (x : qtensor)
  (fs : list qtensor) (a : qtensor) :
  MultiWayBlock._forward_each_paths self x = Ok (fs, a) ->
  (1 <= MultiWayBlock.num_path self)%Z
  /\ exists xin y,
       MultiWayBlock.last_round_input self x = Ok xin
       /\ MultiWayBlock.each_path self (MultiWayBlock.num_path self) xin
          = Ok (y, a).
Proof.
  unfold MultiWayBlock._forward_each_paths, MultiWayBlock.last_round_input.
  destruct (Z.le_gt_cases 1 (MultiWayBlock.num_path self)) as [Hn|Hn].
  - rewrite (py_range_snoc _ Hn), each_paths_loop_app.
    destruct (MultiWayBlock.each_paths_loop self _ _) as [st|e];
      [|discriminate]. simpl.
    destruct (MultiWayBlock.each_path self (MultiWayBlock.num_path self)
                (MultiWayBlock.cur st)) as [[y a']|e] eqn:E; [|discriminate].
    simpl. intros [= _ <-]. split; [exact Hn|]. exists (MultiWayBlock.cur st), y.
    auto.
  - rewrite py_range_empty by lia. simpl. discriminate.
Qed.

Lemma forward_attention (self : MultiWayBlock.t) (x out a : qtensor) :
  MultiWayBlock.forward self x = Ok (out, a) ->
  exists x0 fs,
    MultiWayBlock.spatial x = Ok x0
    /\ MultiWayBlock._forward_each_paths self x0 = Ok (fs, a).
Proof.
  unfold MultiWayBlock.forward.
  destruct (shape x) as [|B [|N [|D [|? ?]]]]; try discriminate.
  destruct (MultiWayBlock.spatial x) as [x0|e]; [|discriminate]. simpl.
  destruct (MultiWayBlock._forward_each_paths self x0) as [[fs a']|e] eqn:E;
    [|discriminate]. simpl.
  intros H. exists x0, fs. split; [reflexivity|]. rewrite E. f_equal. f_equal.
  destruct (MultiWayBlock.concat self).
  - destruct (cat_dim1 fs) as [x1|e]; [|discriminate]. simpl in H.
    destruct (infer_dim _ _ _) as [c|e]; [|discriminate]. simpl in H.
    destruct (view x1 _) as [x2|e]; [|discriminate]. simpl in H.
    destruct (permute021 x2) as [x3|e]; [|discriminate]. simpl in H.
    destruct (MultiWayBlock.get_layer (MultiWayBlock.fc self)) as [fc|e];
      [|discriminate]. simpl in H.
    destruct (MultiWayBlock.get_layer (MultiWayBlock.norm self)) as [nl|e];
      [|discriminate]. simpl in H.
    destruct (nl x3) as [x4|e]; [|discriminate]. simpl in H.
    destruct (fc x4) as [x5|e]; [|discriminate]. simpl in H.
    now injection H.
  - destruct fs as [|f0 rest]; [discriminate|].
    destruct (fold_left _ rest (Ok f0)) as [x1|e]; [|discriminate].
    simpl in H.
    destruct (infer_dim _ _ _) as [c|e]; [|discriminate]. simpl in H.
    destruct (view x1 _) as [x2|e]; [|discriminate]. simpl in H.
    destruct (permute021 x2) as [x3|e]; [|discriminate]. simpl in H.
    now injection H.
Qed.

(** C7. Whenever [forward] returns, the attention map it returns is the one
    the module of the last path, [path{num_path}], produced in the last round
    of the loop, on the tokens that round fed it; the maps of the earlier
    rounds are overwritten. *)
Theorem forward_returns_last_attention (self : MultiWayBlock.t)
  (x out a : qtensor) :
  MultiWayBlock.forward self x = Ok (out, a) ->
  (1 <= MultiWayBlock.num_path self)%Z
  /\ exists x0 xin tok path o,
       MultiWayBlock.spatial x = Ok x0
       /\ MultiWayBlock.last_round_input self x0 = Ok xin
       /\ MultiWayBlock.tokens_in self (MultiWayBlock.num_path self) xin = Ok tok
       /\ MultiWayBlock.lookup (MultiWayBlock.num_path self)
            (MultiWayBlock.paths self) = Ok path
       /\ path tok = Ok (o, a).
Proof.
  intros H. apply forward_attention in H as (x0 & fs & Hx0 & H).
  apply forward_each_paths_last in H as (Hn & xin & y & Hin & H).
  apply each_path_attention in H as (tok & path & o & Ht & Hl & Hp).
  split; [exact Hn|]. exists x0, xin, tok, path, o. auto.
Qed.

Lemma forward_returns_last_attention_witness :
  (1 <= MultiWayBlock.num_path (Demo.built (Demo.config 16 3 0 2 false)))%Z
  /\ exists x0 xin tok path o,
       MultiWayBlock.spatial (Demo.iota [1; 4; 16]) = Ok x0
       /\ MultiWayBlock.last_round_input
            (Demo.built (Demo.config 16 3 0 2 false)) x0 = Ok xin
       /\ MultiWayBlock.tokens_in (Demo.built (Demo.config 16 3 0 2 false))
            (MultiWayBlock.num_path (Demo.built (Demo.config 16 3 0 2 false)))
            xin = Ok tok
       /\ MultiWayBlock.lookup
            (MultiWayBlock.num_path (Demo.built (Demo.config 16 3 0 2 false)))
            (MultiWayBlock.paths (Demo.built (Demo.config 16 3 0 2 false)))
          = Ok path
       /\ path tok
          = Ok (o, mkTensor [1; 1; 16; 16] (repeat (1 # 16)%Q 256)).
Proof.
  eapply (forward_returns_last_attention
            (Demo.built (Demo.config 16 3 0 2 false)) (Demo.iota [1; 4; 16])).
  vm_compute. reflexivity.
Defined.

(** *** Shapes *)

(** [shuf2] is always the opposite rearrangement of [shuf1], by the same
    factor. *)
Lemma select_shuf_cases (self : MultiWayBlock.t) (i : Z) :
  MultiWayBlock.select_shuf self i = None
  \/ exists r,
       MultiWayBlock.select_shuf self i = Some (PixelUnshuffle r, PixelShuffle r)
       \/ MultiWayBlock.select_shuf self i
          = Some (PixelShuffle r, PixelUnshuffle r).
Proof.
  unfold MultiWayBlock.select_shuf.
  repeat match goal with
         | |- context [if ?b then _ else _] => destruct b
         end; eauto.
Qed.

Lemma unshuffle_shuffle_shape {R : Type} (x u y v : tensor R) (r : Z)
  (B C H W : nat) :
  shape x = [B; C; H; W] -> pixel_unshuffle r x = Ok u ->
  shape y = shape u -> pixel_shuffle r y = Ok v -> shape v = [B; C; H; W].
Proof.
  intros Hs Hu Hy Hv.
  destruct (pixel_unshuffle_shape x u r B C H W Hs Hu) as (Hf & EH & EW & Su).
  rewrite Su in Hy.
  destruct (pixel_shuffle_shape y v r _ _ _ _ Hy Hv) as (_ & _ & Sv).
  rewrite Sv. rewrite !(exact_div _ Hf) by assumption.
  now rewrite <- Nat.mul_assoc, Nat.div_mul by lia.
Qed.

Lemma shuffle_unshuffle_shape {R : Type} (x u y v : tensor R) (r : Z)
  (B C H W : nat) :
  shape x = [B; C; H; W] -> pixel_shuffle r x = Ok u ->
  shape y = shape u -> pixel_unshuffle r y = Ok v -> shape v = [B; C; H; W].
Proof.
  intros Hs Hu Hy Hv.
  destruct (pixel_shuffle_shape x u r B C H W Hs Hu) as (Hf & EC & Su).
  rewrite Su in Hy.
  destruct (pixel_unshuffle_shape y v r _ _ _ _ Hy Hv) as (_ & _ & _ & Sv).
  rewrite Sv, !Nat.div_mul by lia.
  pose proof (Nat.div_mod_eq C (Z.to_nat r * Z.to_nat r)).
  do 2 f_equal. lia.
Qed.

(** A round of the loop gives back a map of the shape it was given. *)
Lemma each_path_shape (self : MultiWayBlock.t) (i : Z) (x y a : qtensor)
  (B D H W : nat) :
  shape x = [B; D; H; W] ->
  MultiWayBlock.each_path self i x = Ok (y, a) -> shape y = [B; D; H; W].
Proof.
  intros Hs. unfold MultiWayBlock.each_path.
  destruct (MultiWayBlock.resample_in self i x) as [x1|e] eqn:E1;
    [|discriminate]. simpl.
  destruct (shape x1) as [|B1 [|D1 [|H1 [|W1 [|? ?]]]]] eqn:S1;
    try discriminate.
  destruct (view x1 [B1; D1; H1 * W1]) as [x2|e]; [|discriminate]. simpl.
  destruct (permute021 x2) as [tok|e]; [|discriminate]. simpl.
  destruct (MultiWayBlock.lookup i (MultiWayBlock.paths self)) as [path|e];
    [|discriminate]. simpl.
  destruct (path tok) as [[out a']|e]; [|discriminate]. simpl.
  destruct (permute021 out) as [x3|e]; [|discriminate]. simpl.
  destruct (view x3 [B1; D1; H1; W1]) as [x4|e] eqn:E4; [|discriminate]. simpl.
  destruct (MultiWayBlock.resample_out self i x4) as [x5|e] eqn:E5;
    [|discriminate]. simpl.
  intros [= <- _]. apply view_shape in E4.
  unfold MultiWayBlock.resample_in in E1.
  unfold MultiWayBlock.resample_out in E5.
  destruct (select_shuf_cases self i) as [E | [r [E | E]]];
    rewrite E in E1, E5; cbn [apply_shuf] in E1, E5.
  - injection E1 as <-. injection E5 as <-. congruence.
  - apply (unshuffle_shuffle_shape x x1 x4 x5 r B D H W Hs E1); [|exact E5].
    now rewrite E4, S1.
  - apply (shuffle_unshuffle_shape x x1 x4 x5 r B D H W Hs E1); [|exact E5].
    now rewrite E4, S1.
Qed.

Lemma each_paths_loop_shapes (self : MultiWayBlock.t) (s : list nat)
  (B D H W : nat) (idx : list Z) :
  s = [B; D; H; W] ->
  forall st st',
    MultiWayBlock.each_paths_loop self idx st = Ok st' ->
    shape (MultiWayBlock.cur st) = s ->
    Forall (fun f => shape f = s) (MultiWayBlock.features st) ->
    shape (MultiWayBlock.cur st') = s
    /\ Forall (fun f => shape f = s) (MultiWayBlock.features st').
Proof.
  intros ->. induction idx as [|i rest IH]; intros st st'; simpl.
  - intros [= <-]. auto.
  - destruct (MultiWayBlock.each_path self i (MultiWayBlock.cur st))
      as [[y a]|e] eqn:E; [|discriminate]. simpl.
    intros Hl Hc Hf. apply (each_path_shape self i _ y a B D H W Hc) in E.
    apply (IH _ _ Hl); simpl; [exact E|].
    apply Forall_app. split; [exact Hf|]. now constructor.
Qed.

(** All path outputs have the shape of the spatial map. *)
Lemma each_paths_shapes (self : MultiWayBlock.t) (x a : qtensor)
  (fs : list qtensor) (B D H W : nat) :
  shape x = [B; D; H; W] ->
  MultiWayBlock._forward_each_paths self x = Ok (fs, a) ->
  Forall (fun f => shape f = [B; D; H; W]) fs.
Proof.
  intros Hs. unfold MultiWayBlock._forward_each_paths.
  destruct (MultiWayBlock.each_paths_loop self _ _) as [st|e] eqn:E;
    [|discriminate]. simpl.
  destruct (MultiWayBlock.attn_probs st); [|discriminate].
  intros [= <- _].
  now apply (each_paths_loop_shapes self _ B D H W _ eq_refl _ _ E).
Qed.

Lemma init_layers (config config' : Config.t) (block : MultiWayBlock.factory)
  (norm_layer : Z -> result layer) (affine : list Q -> list Q)
  (self : MultiWayBlock.t) :
  MultiWayBlock.__init__ config block norm_layer affine = (config', Ok self) ->
  MultiWayBlock.dim self = Config.hidden_size config
  /\ (MultiWayBlock.concat self = true ->
      exists nl fcl,
        MultiWayBlock.norm self = Some nl
        /\ norm_layer (MultiWayBlock.total_dim self) = Ok nl
        /\ MultiWayBlock.fc self = Some fcl
        /\ nn_Linear affine (MultiWayBlock.total_dim self)
             (MultiWayBlock.dim self) = Ok fcl).
Proof.
  unfold MultiWayBlock.__init__.
  destruct (negb _); [discriminate|].
  destruct (_ && _)%bool; [discriminate|].
  destruct (MultiWayBlock.make_path (MultiWayBlock.attributes config) block config)
    as [c1 [s1|e]] eqn:E; [|discriminate].
  apply make_path_attributes in E as [ps ->].
  cbn [MultiWayBlock.concat MultiWayBlock.set_paths MultiWayBlock.attributes
       MultiWayBlock.total_dim MultiWayBlock.dim].
  destruct (Config.concat config) eqn:Ec.
  - destruct (norm_layer _) as [nl|e] eqn:En; [|discriminate].
    cbn [bind].
    destruct (nn_Linear affine _ _) as [fcl|e] eqn:Ef; [|discriminate].
    cbn [bind]. intros [= _ <-]. split; [reflexivity|].
    intros _. exists nl, fcl. auto.
  - intros [= _ <-]. split; [reflexivity|]. simpl. congruence.
Qed.

Lemma nn_Linear_shape (affine : list Q -> list Q) (n_in n_out : Z)
  (l : layer) (x y : qtensor) (B N c : nat) :
  nn_Linear affine n_in n_out = Ok l -> shape x = [B; N; c] -> l x = Ok y ->
  shape y = [B; N; Z.to_nat n_out].
Proof.
  unfold nn_Linear. destruct (_ || _)%bool; [discriminate|].
  intros [= <-] Hs. rewrite Hs. simpl.
  destruct (_ =? _)%Z; [|discriminate]. now intros [= <-].
Qed.

(** Whenever [forward] returns on an input whose width is [hidden_size], its
    output has the shape of the input, in both fusion modes. *)
Lemma forward_keeps_shape (config config' : Config.t)
  (block : MultiWayBlock.factory) (norm_layer : Z -> result layer)
  (affine : list Q -> list Q) (self : MultiWayBlock.t) (x y a : qtensor)
  (B N D : nat) :
  MultiWayBlock.__init__ config block norm_layer affine = (config', Ok self) ->
  (forall d l u v, norm_layer d = Ok l -> l u = Ok v -> shape v = shape u) ->
  shape x = [B; N; D] ->
  Config.hidden_size config = Z.of_nat D ->
  MultiWayBlock.forward self x = Ok (y, a) ->
  shape y = [B; N; D].
Proof.
  intros Hi Hn Hs Hd. apply init_layers in Hi as [Hdim Hc].
  unfold MultiWayBlock.forward. rewrite Hs.
  destruct (MultiWayBlock.spatial x) as [x0|e]; [|discriminate]. cbn [bind].
  destruct (MultiWayBlock._forward_each_paths self x0) as [[fs a']|e];
    [|discriminate]. cbn [bind].
  destruct (MultiWayBlock.concat self).
  - destruct (Hc eq_refl) as (nl & fcl & -> & Hnl & -> & Hfc).
    destruct (cat_dim1 fs) as [x1|e]; [|discriminate]. cbn [bind].
    destruct (infer_dim _ _ _) as [c|e]; [|discriminate]. cbn [bind].
    destruct (view x1 _) as [x2|e] eqn:E2; [|discriminate]. cbn [bind].
    destruct (permute021 x2) as [x3|e] eqn:E3; [|discriminate].
    cbn [bind MultiWayBlock.get_layer].
    destruct (nl x3) as [x4|e] eqn:E4; [|discriminate]. cbn [bind].
    destruct (fcl x4) as [x5|e] eqn:E5; [|discriminate]. cbn [bind].
    intros [= <- _].
    apply view_shape in E2.
    apply permute021_shape in E3 as (B' & N' & D' & S2 & S3).
    rewrite E2 in S2. injection S2 as <- <- <-.
    apply (Hn _ _ _ _ Hnl) in E4. rewrite S3 in E4.
    rewrite (nn_Linear_shape _ _ _ _ _ _ _ _ _ Hfc E4 E5).
    rewrite Hdim, Hd. now rewrite Nat2Z.id.
  - destruct fs as [|f0 rest]; [discriminate|].
    destruct (fold_left _ rest (Ok f0)) as [x1|e]; [|discriminate].
    cbn [bind]. unfold infer_dim. rewrite Hdim, Hd.
    destruct (Z.leb_spec 0 (Z.of_nat D)); [|lia]. cbn [bind].
    destruct (view x1 _) as [x2|e] eqn:E2; [|discriminate]. cbn [bind].
    destruct (permute021 x2) as [x3|e] eqn:E3; [|discriminate]. cbn [bind].
    intros [= <- _].
    apply view_shape in E2.
    apply permute021_shape in E3 as (B' & N' & D' & S2 & S3).
    rewrite E2 in S2. injection S2 as <- <- <-.
    now rewrite S3, Nat2Z.id.
Qed.

(** The example of section 8, scaled down: [num_path = 3], [direction = 0],
    [pixshuf_factor = 2]; path 1 works on channels four times as wide, path 3
    on channels four times as narrow, and [forward] returns the input shape
    in both fusion modes. *)
Lemma forward_example :
  (exists y a,
     MultiWayBlock.forward (Demo.built (Demo.config 16 3 0 2 false))
       (Demo.iota [1; 4; 16]) = Ok (y, a)
     /\ shape y = [1; 4; 16])
  /\ (exists y a,
        MultiWayBlock.forward (Demo.built (Demo.config 16 3 0 2 true))
          (Demo.iota [1; 4; 16]) = Ok (y, a)
        /\ shape y = [1; 4; 16])
  /\ map (MultiWayBlock.new_dim (Demo.built (Demo.config 16 3 0 2 false)))
       [1; 2; 3]%Z
     = [Ok 64; Ok 16; Ok 4]%Z.
Proof.
  split; [|split].
  - eexists. eexists. split; [vm_compute; reflexivity | reflexivity].
  - eexists. eexists. split; [vm_compute; reflexivity | reflexivity].
  - reflexivity.
Qed.

(** * Further properties of the module *)

(** ** The loop of [_forward_each_paths] *)

(** X1. A round of the loop that succeeds gives back a spatial map of
    exactly the shape it was given, whatever the path module returned: the
    [view] after the module and the inverse rearrangement restore
    [(B, D, H, W)]. *)
Theorem round_keeps_shape (self : MultiWayBlock.t) (i : Z) (x y a : qtensor)
  (B D H W : nat) :
  shape x = [B; D; H; W] ->
  MultiWayBlock.each_path self i x = Ok (y, a) ->
  shape y = [B; D; H; W].
Proof. apply each_path_shape. Qed.

Lemma round_keeps_shape_witness :
  match MultiWayBlock.each_path (Demo.built (Demo.config 16 3 0 2 false)) 1
          (Demo.iota [1; 16; 2; 2]) with
  | Ok (y, _) => shape y = [1; 16; 2; 2]
  | Raise _ => False
  end.
Proof.
  destruct (MultiWayBlock.each_path (Demo.built (Demo.config 16 3 0 2 false)) 1
              (Demo.iota [1; 16; 2; 2])) as [[y a]|e] eqn:E.
  - apply (round_keeps_shape (Demo.built (Demo.config 16 3 0 2 false)) 1
             (Demo.iota [1; 16; 2; 2]) y a 1 16 2 2);
      [reflexivity | exact E].
  - vm_compute in E. discriminate E.
Defined.

Lemma length_py_range (lo hi : Z) :
  length (py_range lo hi) = Z.to_nat (hi - lo).
Proof. unfold py_range. now rewrite length_map, length_seq. Qed.

Lemma each_paths_loop_length (self : MultiWayBlock.t) (idx : list Z) :
  forall st st',
    MultiWayBlock.each_paths_loop self idx st = Ok st' ->
    length (MultiWayBlock.features st')
    = length (MultiWayBlock.features st) + length idx.
Proof.
  induction idx as [|i rest IH]; intros st st'; simpl.
  - intros [= <-]. lia.
  - destruct (MultiWayBlock.each_path self i (MultiWayBlock.cur st))
      as [[y a]|e]; [|discriminate]. simpl.
    intros Hl. apply IH in Hl. simpl in Hl. rewrite length_app in Hl.
    simpl in Hl. lia.
Qed.

Lemma channels_uniform {R : Type} (ts : list (tensor R)) (s : list nat) :
  Forall (fun t => shape t = s) ts ->
  fold_right Nat.add 0 (map (fun t => nth 1 (shape t) 0) ts)
  = length ts * nth 1 s 0.
Proof.
  induction 1 as [|t l Ht _ IH]; [reflexivity|].
  cbn [map fold_right length]. rewrite IH, Ht. simpl. lia.
Qed.

Lemma cat_dim1_uniform {R : Type} (ts : list (tensor R)) (B D H W : nat) :
  ts <> [] ->
  Forall (fun t => shape t = [B; D; H; W]) ts ->
  exists t, cat_dim1 ts = Ok t /\ shape t = [B; length ts * D; H; W].
Proof.
  intros Hne Hall. destruct ts as [|t0 rest]; [contradiction|].
  unfold cat_dim1. inversion Hall as [|? ? H0 Hrest]; subst.
  rewrite H0.
  assert (Hsame : forallb
            (fun t => match shape t with
                      | [B'; _; H'; W'] => (B' =? B) && (H' =? H) && (W' =? W)
                      | _ => false
                      end) rest = true).
  { apply forallb_forall. intros t Ht.
    rewrite Forall_forall in Hrest. rewrite (Hrest t Ht).
    now rewrite !Nat.eqb_refl. }
  rewrite Hsame. eexists. split; [reflexivity|]. cbn [shape].
  now rewrite (channels_uniform (t0 :: rest) [B; D; H; W] Hall).
Qed.

(** X2. When [_forward_each_paths] returns, it returns one feature map per
    path, each of the shape of the spatial map, so that [torch.cat] along the
    channel axis yields [num_path * D] channels: the width [forward] views
    as [total_dim] in concat mode. *)
Theorem features_fill_concat (self : MultiWayBlock.t) (x a : qtensor)
  (fs : list qtensor) (B D H W : nat) :
  shape x = [B; D; H; W] ->
  MultiWayBlock._forward_each_paths self x = Ok (fs, a) ->
  length fs = Z.to_nat (MultiWayBlock.num_path self)
  /\ Forall (fun f => shape f = [B; D; H; W]) fs
  /\ exists t,
       cat_dim1 fs = Ok t
       /\ shape t = [B; Z.to_nat (MultiWayBlock.num_path self) * D; H; W].
Proof.
  intros Hs Hf.
  pose proof (each_paths_shapes self x a fs B D H W Hs Hf) as Hall.
  pose proof (forward_each_paths_last self x fs a Hf) as [Hn _].
  assert (Hlen : length fs = Z.to_nat (MultiWayBlock.num_path self)).
  { unfold MultiWayBlock._forward_each_paths in Hf.
    destruct (MultiWayBlock.each_paths_loop self _ _) as [st|e] eqn:E;
      [|discriminate]. simpl in Hf.
    destruct (MultiWayBlock.attn_probs st); [|discriminate].
    injection Hf as <- _.
    apply each_paths_loop_length in E. rewrite E, length_py_range. simpl. lia. }
  split; [exact Hlen|]. split; [exact Hall|].
  rewrite <- Hlen. apply cat_dim1_uniform; [|exact Hall].
  destruct fs; [simpl in Hlen; lia | discriminate].
Qed.

Lemma features_fill_concat_witness :
  match MultiWayBlock._forward_each_paths
          (Demo.built (Demo.config 16 3 0 2 true)) (Demo.iota [1; 16; 2; 2]) with
  | Ok (fs, _) =>
      length fs = 3
      /\ exists t, cat_dim1 fs = Ok t /\ shape t = [1; 3 * 16; 2; 2]
  | Raise _ => False
  end.
Proof.
  destruct (MultiWayBlock._forward_each_paths
              (Demo.built (Demo.config 16 3 0 2 true)) (Demo.iota [1; 16; 2; 2]))
    as [[fs a]|e] eqn:E.
  - destruct (features_fill_concat (Demo.built (Demo.config 16 3 0 2 true))
                (Demo.iota [1; 16; 2; 2]) a fs 1 16 2 2 eq_refl E)
      as (Hl & _ & Ht).
    split; [exact Hl | exact Ht].
  - vm_compute in E. discriminate E.
Defined.

(** X3. Whenever [forward] returns on an input [(B, N, D)] whose width [D] is
    the [hidden_size] the block was built with, the output has shape
    [(B, N, D)], with concatenation as with summation; the normalisation
    layer is only asked to keep shapes. *)
Theorem forward_output_shape (config config' : Config.t)
  (block : MultiWayBlock.factory) (norm_layer : Z -> result layer)
  (affine : list Q -> list Q) (self : MultiWayBlock.t) (x y a : qtensor)
  (B N D : nat) :
  MultiWayBlock.__init__ config block norm_layer affine = (config', Ok self) ->
  (forall d l u v, norm_layer d = Ok l -> l u = Ok v -> shape v = shape u) ->
  shape x = [B; N; D] ->
  Config.hidden_size config = Z.of_nat D ->
  MultiWayBlock.forward self x = Ok (y, a) ->
  shape y = [B; N; D].
Proof. apply forward_keeps_shape. Qed.

Lemma demo_norm_keeps_shape (d : Z) (l : layer) (u v : qtensor) :
  Demo.norm_layer d = Ok l -> l u = Ok v -> shape v = shape u.
Proof.
  unfold Demo.norm_layer. intros [= <-].
  destruct (rev (shape u)) as [|last front]; [discriminate|].
  destruct (_ =? _)%Z; [|discriminate]. now intros [= <-].
Qed.

Lemma forward_output_shape_witness :
  match MultiWayBlock.forward (Demo.built (Demo.config 16 3 0 2 true))
          (Demo.iota [1; 4; 16]) with
  | Ok (y, _) => shape y = [1; 4; 16]
  | Raise _ => False
  end.
Proof.
  destruct (MultiWayBlock.forward (Demo.built (Demo.config 16 3 0 2 true))
              (Demo.iota [1; 4; 16])) as [[y a]|e] eqn:E.
  - apply (forward_output_shape (Demo.config 16 3 0 2 true)
             (Demo.config 16 3 0 2 true) Demo.block Demo.norm_layer Demo.affine
             (Demo.built (Demo.config 16 3 0 2 true)) (Demo.iota [1; 4; 16])
             y a 1 4 16).
    + reflexivity.
    + exact demo_norm_keeps_shape.
    + reflexivity.
    + reflexivity.
    + exact E.
  - vm_compute in E. discriminate E.
Defined.

(** ** The two computations of a path's width *)

(** X4. Under [direction = 1] a path [i >= 2] is built by [make_path] at
    width [dim * pixshuf_factor ** (2*(i-1))], while the rearrangement
    [_forward_each_paths] applies to a map of [dim] channels, when it
    succeeds, produces [dim * (pixshuf_factor*(i-1)) ** 2] channels. *)
Theorem expand_path_widths (self : MultiWayBlock.t) (x t : qtensor) (i : Z)
  (B H W : nat) :
  MultiWayBlock.direction self = 1%Z -> (2 <= i)%Z ->
  (0 <= MultiWayBlock.dim self)%Z ->
  shape x = [B; Z.to_nat (MultiWayBlock.dim self); H; W] ->
  MultiWayBlock.resample_in self i x = Ok t ->
  MultiWayBlock.new_dim self i
  = Ok (MultiWayBlock.dim self
        * MultiWayBlock.pixshuf_factor self ^ ((i - 1) * 2))%Z
  /\ nth 1 (shape t) 0
     = Z.to_nat (MultiWayBlock.dim self
                 * (MultiWayBlock.pixshuf_factor self * (i - 1)) ^ 2)%Z.
Proof. apply expand_widths. Qed.

Lemma expand_path_widths_witness :
  match MultiWayBlock.resample_in (Demo.built (Demo.config 4 3 1 2 false)) 3
          (Demo.iota [1; 4; 4; 4]) with
  | Ok t =>
      MultiWayBlock.new_dim (Demo.built (Demo.config 4 3 1 2 false)) 3
      = Ok 64%Z
      /\ nth 1 (shape t) 0 = 64
  | Raise _ => False
  end.
Proof.
  destruct (MultiWayBlock.resample_in (Demo.built (Demo.config 4 3 1 2 false)) 3
              (Demo.iota [1; 4; 4; 4])) as [t|e] eqn:E.
  - exact (expand_path_widths (Demo.built (Demo.config 4 3 1 2 false))
             (Demo.iota [1; 4; 4; 4]) t 3 1 4 4 eq_refl ltac:(lia)
             ltac:(simpl; lia) eq_refl E).
  - vm_compute in E. discriminate E.
Defined.

(** X5. The path that [_forward_each_paths] leaves unresampled (the one for
    which the loop clears [flag]) is the path [make_path] builds at the base
    width: it is path [median] under [direction = 0] and path 1 otherwise,
    and both of its rearrangements are the identity. *)
Theorem untouched_path (self : MultiWayBlock.t) (i : Z) :
  (MultiWayBlock.select_shuf self i = None
   <-> i = (if (MultiWayBlock.direction self =? 0)%Z
            then MultiWayBlock.median self else 1%Z))
  /\ (MultiWayBlock.select_shuf self i = None ->
      MultiWayBlock.new_dim self i = Ok (MultiWayBlock.dim self)
      /\ forall x, MultiWayBlock.resample_in self i x = Ok x
                   /\ MultiWayBlock.resample_out self i x = Ok x).
Proof.
  unfold MultiWayBlock.select_shuf, MultiWayBlock.new_dim,
    MultiWayBlock.resample_in, MultiWayBlock.resample_out,
    MultiWayBlock.select_shuf.
  destruct (MultiWayBlock.direction self =? 0)%Z.
  - destruct (Z.ltb_spec i (MultiWayBlock.median self)).
    + split; [split; [discriminate | lia] | discriminate].
    + destruct (Z.gtb_spec i (MultiWayBlock.median self)).
      * split; [split; [discriminate | lia] | discriminate].
      * split; [split; [lia | reflexivity] | auto].
  - destruct (MultiWayBlock.direction self =? 1)%Z;
      destruct (Z.eqb_spec i 1);
      (split; [split; [discriminate || (intros _; assumption)
                      | contradiction || reflexivity]
              | discriminate || auto]).
Qed.

(** ** Construction: the path modules and the configuration *)

Lemma lookup_app (i : Z) (l1 l2 : list (Z * attn_module)) :
  MultiWayBlock.lookup i (l1 ++ l2)
  = match MultiWayBlock.lookup i l1 with
    | Ok m => Ok m
    | Raise _ => MultiWayBlock.lookup i l2
    end.
Proof.
  induction l1 as [|[j m] l1 IH]; simpl; [reflexivity|].
  destruct (i =? j)%Z; [reflexivity | exact IH].
Qed.

Lemma lookup_absent (i : Z) (l : list (Z * attn_module)) :
  ~ In i (map fst l) -> MultiWayBlock.lookup i l = Raise AttributeError.
Proof.
  induction l as [|[j m] l IH]; simpl; intros Hn; [reflexivity|].
  destruct (Z.eqb_spec i j) as [->|_]; [exfalso; apply Hn; now left|].
  apply IH. intros H. apply Hn. now right.
Qed.

Section PathTable.

Variable block : MultiWayBlock.factory.
Hypothesis block_reads : forall c flag, fst (block c flag) = c.
Variable self : MultiWayBlock.t.
Variable c0 : Config.t.

(** The module list the loop of [make_path] appends: one entry per index,
    built by the block class on the configuration with the derived width. *)
Lemma make_path_loop_table (idx : list Z) :
  forall config acc config' ps,
    (exists v, config = Config.set_hidden_size c0 v) ->
    MultiWayBlock.make_path_loop self block idx config acc = (config', Ok ps) ->
    exists new,
      ps = acc ++ new
      /\ map fst new = idx
      /\ forall i m, In (i, m) new ->
           exists d, MultiWayBlock.new_dim self i = Ok d
                     /\ snd (block (Config.set_hidden_size c0 d) false) = Ok m.
Proof.
  induction idx as [|i rest IH]; intros config acc config' ps Hc; simpl.
  - intros [= _ <-]. exists []. rewrite app_nil_r. repeat split.
    intros ? ? [].
  - destruct (MultiWayBlock.new_dim self i) as [d|e] eqn:Ed; [|discriminate].
    destruct Hc as [v ->]. rewrite set_hidden_size_twice.
    pose proof (block_reads (Config.set_hidden_size c0 d) false) as Hb.
    destruct (block (Config.set_hidden_size c0 d) false) as [c1 [m|e]] eqn:Eb;
      [|discriminate].
    simpl in Hb. subst c1. intros Hl.
    apply IH in Hl as (new & -> & Hk & Hm); [|now exists d].
    exists ((i, m) :: new). rewrite <- app_assoc. repeat split.
    + simpl. now rewrite Hk.
    + intros j mj [[= <- <-] | Hin].
      * exists d. now rewrite Eb.
      * now apply Hm.
Qed.

End PathTable.

Lemma NoDup_py_range (lo hi : Z) : NoDup (py_range lo hi).
Proof.
  unfold py_range. generalize (seq_NoDup (Z.to_nat (hi - lo)) 0).
  induction 1 as [|k l Hk _ IH]; simpl; constructor; [|exact IH].
  rewrite in_map_iff. intros (k' & E & Hin).
  assert (k' = k) by lia. now subst k'.
Qed.

Lemma lookup_in (i : Z) (m : attn_module) (l : list (Z * attn_module)) :
  NoDup (map fst l) -> In (i, m) l -> MultiWayBlock.lookup i l = Ok m.
Proof.
  induction l as [|[j mj] l IH]; simpl; intros Hnd Hin; [contradiction|].
  inversion Hnd as [|? ? Hnot Hnd']; subst.
  destruct Hin as [[= -> ->] | Hin].
  - now rewrite Z.eqb_refl.
  - destruct (Z.eqb_spec i j) as [->|_]; [|now apply IH].
    exfalso. apply Hnot. apply in_map_iff. now exists (j, m).
Qed.

Lemma init_paths (config config' : Config.t) (block : MultiWayBlock.factory)
  (norm_layer : Z -> result layer) (affine : list Q -> list Q)
  (self : MultiWayBlock.t) :
  MultiWayBlock.__init__ config block norm_layer affine = (config', Ok self) ->
  exists c1 ps,
    MultiWayBlock.make_path_loop (MultiWayBlock.attributes config) block
      (py_range 1 (Config.num_path config + 1)) config [] = (c1, Ok ps)
    /\ MultiWayBlock.paths self = ps
    /\ MultiWayBlock.num_path self = Config.num_path config
    /\ forall i, MultiWayBlock.new_dim self i
                 = MultiWayBlock.new_dim (MultiWayBlock.attributes config) i.
Proof.
  unfold MultiWayBlock.__init__.
  destruct (negb _); [discriminate|].
  destruct (_ && _)%bool; [discriminate|].
  unfold MultiWayBlock.make_path.
  change (MultiWayBlock.num_path (MultiWayBlock.attributes config))
    with (Config.num_path config).
  destruct (MultiWayBlock.make_path_loop _ block _ config [])
    as [c1 [ps|e]]; [|discriminate].
  cbn [MultiWayBlock.concat MultiWayBlock.set_paths MultiWayBlock.attributes].
  destruct (Config.concat config).
  - destruct (norm_layer _) as [nl|e]; [|discriminate]. cbn [bind].
    destruct (nn_Linear affine _ _) as [fcl|e]; [|discriminate]. cbn [bind].
    intros [= _ <-]. exists c1, ps. repeat split; reflexivity.
  - intros [= _ <-]. exists c1, ps. repeat split; reflexivity.
Qed.

(** X6. After a construction that returns (with a block class that does not
    write to the configuration), [getattr(self, f"path{i}")] finds a module
    exactly for [i] in [1..num_path], and it is the module the block class
    returned on the configuration carrying the width [make_path] derived
    for path [i]; any other index raises [AttributeError]. *)
Theorem path_modules_by_index (config config' : Config.t)
  (block : MultiWayBlock.factory) (norm_layer : Z -> result layer)
  (affine : list Q -> list Q) (self : MultiWayBlock.t) :
  (forall c flag, fst (block c flag) = c) ->
  MultiWayBlock.__init__ config block norm_layer affine = (config', Ok self) ->
  forall i,
    ((1 <= i <= MultiWayBlock.num_path self)%Z ->
     exists d m,
       MultiWayBlock.new_dim self i = Ok d
       /\ snd (block (Config.set_hidden_size config d) false) = Ok m
       /\ MultiWayBlock.lookup i (MultiWayBlock.paths self) = Ok m)
    /\ (~ (1 <= i <= MultiWayBlock.num_path self)%Z ->
        MultiWayBlock.lookup i (MultiWayBlock.paths self)
        = Raise AttributeError).
Proof.
  intros Hb Hi i.
  apply init_paths in Hi as (c1 & ps & Hl & -> & -> & Hnd).
  apply (make_path_loop_table block Hb _ config) in Hl as (new & -> & Hk & Hm).
  2:{ exists (Config.hidden_size config). symmetry. apply set_hidden_size_same. }
  simpl. split.
  - intros Hr.
    assert (Hin : In i (map fst new)) by (rewrite Hk; apply in_py_range; lia).
    apply in_map_iff in Hin as ([j m] & Hj & Hin). simpl in Hj. subst j.
    destruct (Hm i m Hin) as (d & Hd & Hbm).
    exists d, m. rewrite Hnd. repeat split; try assumption.
    apply lookup_in; [|exact Hin]. rewrite Hk. apply NoDup_py_range.
  - intros Hr. apply lookup_absent. rewrite Hk, in_py_range. lia.
Qed.

Lemma path_modules_by_index_witness :
  (exists d m,
     MultiWayBlock.new_dim (Demo.built (Demo.config 16 3 0 2 false)) 3 = Ok d
     /\ snd (Demo.block
               (Config.set_hidden_size (Demo.config 16 3 0 2 false) d) false)
        = Ok m
     /\ MultiWayBlock.lookup 3
          (MultiWayBlock.paths (Demo.built (Demo.config 16 3 0 2 false)))
        = Ok m)
  /\ MultiWayBlock.lookup 4
       (MultiWayBlock.paths (Demo.built (Demo.config 16 3 0 2 false)))
     = Raise AttributeError.
Proof.
  pose proof (path_modules_by_index (Demo.config 16 3 0 2 false)
                (Demo.config 16 3 0 2 false) Demo.block Demo.norm_layer
                Demo.affine (Demo.built (Demo.config 16 3 0 2 false))
                (fun c flag => eq_refl) eq_refl) as H.
  split.
  - apply (proj1 (H 3%Z)). simpl. lia.
  - apply (proj2 (H 4%Z)). simpl. lia.
Defined.



(** X8. A successful construction under [direction = 0] has its untouched
    path in the middle: [2 * median = num_path + 1], as many paths below the
    median as above it. *)
Theorem median_is_central (config config' : Config.t)
  (block : MultiWayBlock.factory) (norm_layer : Z -> result layer)
  (affine : list Q -> list Q) (self : MultiWayBlock.t) :
  MultiWayBlock.__init__ config block norm_layer affine = (config', Ok self) ->
  MultiWayBlock.direction self = 0%Z ->
  (2 * MultiWayBlock.median self = MultiWayBlock.num_path self + 1)%Z.
Proof.
  unfold MultiWayBlock.__init__.
  destruct (negb _); [discriminate|].
  destruct ((Config.direction config =? 0)%Z
            && (Config.num_path config mod 2 =? 0)%Z)%bool eqn:Et;
    [discriminate|].
  destruct (MultiWayBlock.make_path (MultiWayBlock.attributes config) block config)
    as [c1 [s1|e]] eqn:E; [|discriminate].
  apply make_path_attributes in E as [ps ->].
  cbn [MultiWayBlock.concat MultiWayBlock.set_paths MultiWayBlock.attributes].
  assert (Hgoal : Config.direction config = 0%Z ->
                  (2 * (if (Config.num_path config mod 2 =? 1)%Z
                        then Config.num_path config / 2 + 1
                        else Config.num_path config / 2)
                   = Config.num_path config + 1)%Z).
  { intros Hd. rewrite Hd in Et. simpl in Et.
    apply Z.eqb_neq in Et.
    pose proof (Z.mod_pos_bound (Config.num_path config) 2 ltac:(lia)).
    pose proof (Z.div_mod (Config.num_path config) 2 ltac:(lia)).
    destruct (Z.eqb_spec (Config.num_path config mod 2) 1); lia. }
  destruct (Config.concat config).
  - destruct (norm_layer _) as [nl|e]; [|discriminate]. cbn [bind].
    destruct (nn_Linear affine _ _) as [fcl|e]; [|discriminate]. cbn [bind].
    intros [= _ <-]. exact Hgoal.
  - intros [= _ <-]. exact Hgoal.
Qed.

Lemma median_is_central_witness :
  (2 * MultiWayBlock.median (Demo.built (Demo.config 16 5 0 2 false))
   = MultiWayBlock.num_path (Demo.built (Demo.config 16 5 0 2 false)) + 1)%Z.
Proof.
  apply (median_is_central (Demo.config 16 5 0 2 false)
           (Demo.config 16 5 0 2 false) Demo.block Demo.norm_layer Demo.affine
           (Demo.built (Demo.config 16 5 0 2 false))); reflexivity.
Defined.

(** X9. With [num_path < 1] the loop of [_forward_each_paths] never runs and
    [attn_probs] is never bound: on any input whose token count is a perfect
    square the [return] raises [UnboundLocalError]. *)
Theorem forward_without_paths (self : MultiWayBlock.t) (x x0 : qtensor) :
  (MultiWayBlock.num_path self < 1)%Z ->
  MultiWayBlock.spatial x = Ok x0 ->
  MultiWayBlock.forward self x = Raise UnboundLocalError.
Proof.
  intros Hn Hs. unfold MultiWayBlock.forward. rewrite Hs.
  unfold MultiWayBlock.spatial in Hs.
  destruct (shape x) as [|B [|N [|D [|? ?]]]]; try discriminate.
  cbn [bind]. unfold MultiWayBlock._forward_each_paths.
  rewrite py_range_empty by lia. reflexivity.
Qed.

Lemma forward_without_paths_witness :
  MultiWayBlock.forward (MultiWayBlock.attributes (Demo.config 4 0 1 2 false))
    (Demo.iota [1; 4; 4])
  = Raise UnboundLocalError.
Proof.
  eapply (forward_without_paths
            (MultiWayBlock.attributes (Demo.config 4 0 1 2 false))
            (Demo.iota [1; 4; 4])).
  - simpl. lia.
  - vm_compute. reflexivity.
Defined.

(** ** A block with a single path *)

Lemma tab3_as_tab4 {R : Type} (B C N : nat) (g : nat -> nat -> nat -> R) :
  tab3 B C N g = tab4 1 B C N (fun _ => g).
Proof. unfold tab4, tab3. unfold tab at 4. simpl. now rewrite app_nil_r. Qed.

Lemma flat3_as_flat4 (B C N b c n : nat) :
  flat3 C N b c n = flat4 B C N 0 b c n.
Proof. reflexivity. Qed.

Lemma transpose_back {R : Type} (l : list R) (B N D : nat) :
  length l = B * N * D ->
  gather (gather l (tab3 B D N (fun b d n => flat3 N D b n d)))
         (tab3 B N D (fun b n d => flat3 D N b d n))
  = l.
Proof.
  intros Hl. rewrite gather_gather.
  - rewrite !tab3_as_tab4, map_tab4.
    rewrite (tab4_ext 1 B N D _ (flat4 B N D)).
    + rewrite tab4_flat4. replace (1 * B * N * D) with (length l) by lia.
      apply gather_seq.
    + intros z b n d Hz Hb Hn Hd. assert (z = 0) by lia. subst z.
      rewrite (flat3_as_flat4 B D N b d n), nth_tab4 by lia.
      reflexivity.
  - rewrite !tab3_as_tab4, length_tab4. apply Forall_tab4.
    intros z b n d Hz Hb Hn Hd.
    rewrite (flat3_as_flat4 B D N b d n).
    apply flat4_lt; lia.
Qed.

Lemma tensor_eta {R : Type} (x : tensor R) : mkTensor (shape x) (data x) = x.
Proof. now destruct x. Qed.

(** X10. A block with one path, no resampling for it and summation as fusion
    is that path: on a well-formed input [(B, s*s, D)] for which the path
    module returns an output of the same shape, [forward] returns exactly
    the output and the attention map of the module.  The transpositions and
    views around the module cancel. *)
Theorem single_path_forward (self : MultiWayBlock.t) (path : attn_module)
  (x y a : qtensor) (B s D : nat) :
  MultiWayBlock.num_path self = 1%Z ->
  MultiWayBlock.select_shuf self 1 = None ->
  MultiWayBlock.concat self = false ->
  MultiWayBlock.dim self = Z.of_nat D ->
  MultiWayBlock.lookup 1 (MultiWayBlock.paths self) = Ok path ->
  shape x = [B; s * s; D] -> wf x ->
  path x = Ok (y, a) ->
  shape y = [B; s * s; D] -> wf y ->
  MultiWayBlock.forward self x = Ok (y, a).
Proof.
  intros Hn Hsel Hc Hd Hl Hs Hwx Hp Hsy Hwy.
  unfold wf in Hwx, Hwy. rewrite Hs in Hwx. rewrite Hsy in Hwy.
  cbn [numel fold_right] in Hwx, Hwy.
  assert (Ev1 : (numel [B; D; s; s] =? numel [B; D; s * s]) = true).
  { apply Nat.eqb_eq. cbn [numel fold_right]. lia. }
  assert (Ev2 : (numel [B; D; s * s] =? numel [B; D; s; s]) = true).
  { apply Nat.eqb_eq. cbn [numel fold_right]. lia. }
  assert (Ev3 : (numel [B; D; s * s] =? numel [B; D; s; s]) = true) by exact Ev2.
  unfold MultiWayBlock.forward, MultiWayBlock.spatial. rewrite Hs.
  rewrite Nat.sqrt_square.
  unfold permute021 at 1. rewrite Hs. cbn [bind].
  unfold view at 1. cbn [shape data]. rewrite Ev1. cbn [bind].
  unfold MultiWayBlock._forward_each_paths. rewrite Hn.
  change (py_range 1 (1 + 1)) with [1%Z].
  cbn [MultiWayBlock.each_paths_loop MultiWayBlock.cur MultiWayBlock.features].
  unfold MultiWayBlock.each_path at 1.
  unfold MultiWayBlock.resample_in, MultiWayBlock.resample_out.
  rewrite Hsel. cbn [bind shape].
  unfold view at 1. cbn [shape data]. rewrite Ev2. cbn [bind].
  unfold permute021 at 1. cbn [shape data bind].
  rewrite transpose_back by lia.
  rewrite Hl. cbn [bind]. rewrite <- Hs, tensor_eta, Hp. cbn [bind].
  unfold permute021 at 1. rewrite Hsy. cbn [bind].
  unfold view at 1. cbn [shape data]. rewrite Ev1. cbn [bind].
  cbn [MultiWayBlock.attn_probs MultiWayBlock.features app].
  rewrite Hc. cbn [fold_left bind].
  unfold infer_dim. rewrite Hd.
  destruct (Z.leb_spec 0 (Z.of_nat D)); [|lia]. cbn [bind]. rewrite Nat2Z.id.
  unfold view at 1. cbn [shape data]. rewrite Ev2. cbn [bind].
  unfold permute021 at 1. cbn [shape data bind].
  rewrite transpose_back by lia.
  now rewrite <- Hsy, tensor_eta.
Qed.

Lemma single_path_forward_witness :
  MultiWayBlock.forward (Demo.built (Demo.config 4 1 1 2 false))
    (Demo.iota [2; 4; 4])
  = Ok (Demo.iota [2; 4; 4],
        mkTensor [2; 1; 4; 4] (repeat (1 # 4)%Q 32)).
Proof.
  apply (single_path_forward (Demo.built (Demo.config 4 1 1 2 false))
           (Demo.path 4) (Demo.iota [2; 4; 4]) (Demo.iota [2; 4; 4]) _ 2 2 4);
    reflexivity.
Defined.

(** ** Rows of a tabulated list *)

Lemma sample_flat_map_seq {R : Type} (m : nat) (g : nat -> list R) (n : nat) :
  forall s r,
    (forall i, s <= i < s + n -> length (g i) = m) -> r < n ->
    sample m r (flat_map g (seq s n)) = g (s + r).
Proof.
  unfold sample. induction n as [|n IH]; intros s r Hg Hr; [lia|].
  simpl. destruct r as [|r].
  - simpl. rewrite Nat.add_0_r, firstn_app, (Hg s) by lia.
    rewrite Nat.sub_diag, firstn_O, app_nil_r.
    rewrite <- (Hg s) at 1 by lia. apply firstn_all.
  - rewrite skipn_app, (Hg s) by lia.
    rewrite (skipn_all2 (g s)) by (rewrite (Hg s) by lia; simpl; lia).
    replace (S r * m - m) with (r * m) by (simpl; lia). simpl.
    rewrite IH; [f_equal; lia | | lia].
    intros i Hi. apply Hg. lia.
Qed.

Lemma sample_tab {R : Type} (m n r : nat) (g : nat -> list R) :
  (forall i, i < n -> length (g i) = m) -> r < n ->
  sample m r (tab n g) = g r.
Proof.
  intros Hg Hr. unfold tab.
  rewrite (sample_flat_map_seq m g n 0 r); [reflexivity | | exact Hr].
  intros i Hi. apply Hg. lia.
Qed.

Lemma length_flat_map_seq_lt {R : Type} (m : nat) (g : nat -> list R) (n : nat) :
  forall s,
    (forall i, s <= i < s + n -> length (g i) = m) ->
    length (flat_map g (seq s n)) = n * m.
Proof.
  induction n as [|k IH]; intros s Hs; simpl; [reflexivity|].
  rewrite length_app, (Hs s) by lia. rewrite IH; [lia|].
  intros i Hi. apply Hs. lia.
Qed.

Lemma length_tab_lt {R : Type} (m n : nat) (g : nat -> list R) :
  (forall i, i < n -> length (g i) = m) -> length (tab n g) = n * m.
Proof.
  intros Hg. unfold tab. apply length_flat_map_seq_lt.
  intros i Hi. apply Hg. lia.
Qed.

Lemma length_sample {R : Type} (m r : nat) (l : list R) :
  (r + 1) * m <= length l -> length (sample m r l) = m.
Proof.
  intros H. unfold sample. rewrite length_firstn, length_skipn. lia.
Qed.

Lemma sample_map {A R : Type} (f : A -> R) (m r : nat) (l : list A) :
  sample m r (map f l) = map f (sample m r l).
Proof. unfold sample. now rewrite skipn_map, firstn_map. Qed.

Lemma numel_app (s1 s2 : list nat) : numel (s1 ++ s2) = numel s1 * numel s2.
Proof.
  induction s1 as [|a s1 IH]; simpl; [lia|]. rewrite IH. lia.
Qed.

Lemma numel_rev (s : list nat) : numel (rev s) = numel s.
Proof.
  induction s as [|a s IH]; simpl; [reflexivity|].
  rewrite numel_app, IH. simpl. lia.
Qed.

(** ** [nn.Linear] and [nn.Dropout] *)

Lemma length_Linear_row (self : Linear.t) (r : list Q) :
  length (Linear.row self r) = Linear.out_features self.
Proof. unfold Linear.row. now rewrite length_map, length_seq. Qed.

Lemma Linear_forward_ok (self : Linear.t) (x : qtensor) (s : list nat) (d : nat) :
  shape x = s ++ [d] -> d = Linear.in_features self ->
  Linear.forward self x
  = Ok (mkTensor (s ++ [Linear.out_features self])
          (map_rows d (numel s) (Linear.row self) (data x))).
Proof.
  intros Hs ->. unfold Linear.forward.
  rewrite Hs, rev_app_distr. simpl. rewrite Nat.eqb_refl.
  now rewrite rev_involutive, numel_rev.
Qed.

Lemma Linear_forward_mismatch (self : Linear.t) (x : qtensor) (s : list nat)
  (d : nat) :
  shape x = s ++ [d] -> d <> Linear.in_features self ->
  Linear.forward self x = Raise RuntimeError.
Proof.
  intros Hs Hd. unfold Linear.forward.
  rewrite Hs, rev_app_distr. simpl.
  now destruct (Nat.eqb_spec d (Linear.in_features self)).
Qed.

Lemma length_map_rows (len rows : nat) (f : list Q -> list Q) (l : list Q)
  (m : nat) :
  (forall r, length (f r) = m) -> length (map_rows len rows f l) = rows * m.
Proof.
  intros Hf. unfold map_rows.
  apply (length_tab m rows (fun r => f (sample len r l))). intros i. apply Hf.
Qed.

Lemma sample_map_rows (len rows : nat) (f : list Q -> list Q) (l : list Q)
  (m r : nat) :
  (forall u, length (f u) = m) -> r < rows ->
  sample m r (map_rows len rows f l) = f (sample len r l).
Proof.
  intros Hf Hr. unfold map_rows.
  apply (sample_tab m rows r (fun r => f (sample len r l))); [|exact Hr].
  intros i _. apply Hf.
Qed.

Lemma Dropout_shape (self : Dropout.t) (training : bool) (mask : nat -> bool)
  (x : qtensor) :
  shape (Dropout.forward self training mask x) = shape x.
Proof.
  unfold Dropout.forward.
  destruct (negb training || Qeq_bool (Dropout.p self) 0); [reflexivity|].
  now destruct (Qeq_bool (Dropout.p self) 1).
Qed.

Lemma length_map2_seq {A R : Type} (f : nat -> A -> R) (l : list A) :
  forall s, length (map2 f (seq s (length l)) l) = length l.
Proof.
  induction l as [|a l IH]; intros s; simpl; [reflexivity|]. now rewrite IH.
Qed.

Lemma Dropout_length (self : Dropout.t) (training : bool) (mask : nat -> bool)
  (x : qtensor) :
  length (data (Dropout.forward self training mask x)) = length (data x).
Proof.
  unfold Dropout.forward.
  destruct (negb training || Qeq_bool (Dropout.p self) 0); [reflexivity|].
  destruct (Qeq_bool (Dropout.p self) 1); simpl.
  - apply length_map.
  - apply length_map2_seq.
Qed.

Lemma Dropout_eval (self : Dropout.t) (mask : nat -> bool) (x : qtensor) :
  Dropout.forward self false mask x = x.
Proof. reflexivity. Qed.

Lemma Linear_init_fields (n_in n_out : Z) (b : bool) (w : list (list Q))
  (bv : list Q) (self : Linear.t) :
  Linear.__init__ n_in n_out b w bv = Ok self ->
  (0 <= n_in)%Z /\ (0 <= n_out)%Z
  /\ Linear.in_features self = Z.to_nat n_in
  /\ Linear.out_features self = Z.to_nat n_out.
Proof.
  unfold Linear.__init__.
  destruct (Z.ltb_spec n_in 0); [discriminate|].
  destruct (Z.ltb_spec n_out 0); [discriminate|].
  simpl. intros [= <-]. auto.
Qed.

(** ** [Mlp] *)

Lemma Mlp_init_fields (n_in n_hid n_out : Z) (act : Q -> Q) (bias : bool)
  (rate : Q) (w1 : list (list Q)) (b1 : list Q) (w2 : list (list Q))
  (b2 : list Q) (self : Mlp.t) :
  Mlp.__init__ n_in n_hid n_out act bias rate w1 b1 w2 b2 = Ok self ->
  Linear.in_features (Mlp.fc1 self) = Z.to_nat n_in
  /\ Linear.out_features (Mlp.fc1 self) = Z.to_nat n_hid
  /\ Linear.in_features (Mlp.fc2 self) = Z.to_nat n_hid
  /\ Linear.out_features (Mlp.fc2 self) = Z.to_nat n_out.
Proof.
  unfold Mlp.__init__.
  destruct (Linear.__init__ n_in n_hid bias w1 b1) as [l1|e] eqn:E1;
    [|discriminate]. cbn [bind].
  destruct (Dropout.__init__ rate) as [d1|e]; [|discriminate]. cbn [bind].
  destruct (Linear.__init__ n_hid n_out bias w2 b2) as [l2|e] eqn:E2;
    [|discriminate]. cbn [bind].
  intros [= <-]. simpl.
  apply Linear_init_fields in E1 as (_ & _ & ? & ?).
  apply Linear_init_fields in E2 as (_ & _ & ? & ?). auto.
Qed.

Lemma Mlp_forward_total (n_in n_hid n_out : Z) (act : Q -> Q) (bias : bool)
  (rate : Q) (w1 : list (list Q)) (b1 : list Q) (w2 : list (list Q))
  (b2 : list Q) (self : Mlp.t) (training : bool) (mask1 mask2 : nat -> bool)
  (x : qtensor) (s : list nat) (d : nat) :
  Mlp.__init__ n_in n_hid n_out act bias rate w1 b1 w2 b2 = Ok self ->
  shape x = s ++ [d] ->
  (d = Z.to_nat n_in ->
   exists y, Mlp.forward self training mask1 mask2 x = Ok y
             /\ shape y = s ++ [Z.to_nat n_out] /\ wf y)
  /\ (d <> Z.to_nat n_in ->
      Mlp.forward self training mask1 mask2 x = Raise RuntimeError).
Proof.
  intros Hi Hs. apply Mlp_init_fields in Hi as (I1 & O1 & I2 & O2).
  unfold Mlp.forward. split.
  - intros Hd.
    rewrite (Linear_forward_ok _ x s d Hs) by congruence. cbn [bind].
    set (h := Dropout.forward _ _ _ _).
    assert (Hh : shape h = s ++ [Linear.out_features (Mlp.fc1 self)]).
    { unfold h. now rewrite Dropout_shape. }
    rewrite (Linear_forward_ok _ h s _ Hh) by congruence. cbn [bind].
    eexists. split; [reflexivity|]. split.
    + rewrite Dropout_shape. simpl. now rewrite O2.
    + unfold wf. rewrite Dropout_length, Dropout_shape. simpl.
      rewrite numel_app. simpl.
      rewrite (length_map_rows _ _ _ _ (Linear.out_features (Mlp.fc2 self)));
        [lia|]. apply length_Linear_row.
  - intros Hd.
    now rewrite (Linear_forward_mismatch _ x s d Hs) by congruence.
Qed.

(** X11. An [Mlp] built for [in_features], [hidden_features] and
    [out_features] accepts exactly the inputs whose last extent is
    [in_features]: it returns a tensor of the same leading extents and last
    extent [out_features], in training as in evaluation, and raises
    [RuntimeError] on any other last extent. *)
Theorem Mlp_forward_shape (n_in n_hid n_out : Z) (act : Q -> Q) (bias : bool)
  (rate : Q) (w1 : list (list Q)) (b1 : list Q) (w2 : list (list Q))
  (b2 : list Q) (self : Mlp.t) (training : bool) (mask1 mask2 : nat -> bool)
  (x : qtensor) (s : list nat) (d : nat) :
  Mlp.__init__ n_in n_hid n_out act bias rate w1 b1 w2 b2 = Ok self ->
  shape x = s ++ [d] ->
  (d = Z.to_nat n_in ->
   exists y, Mlp.forward self training mask1 mask2 x = Ok y
             /\ shape y = s ++ [Z.to_nat n_out] /\ wf y)
  /\ (d <> Z.to_nat n_in ->
      Mlp.forward self training mask1 mask2 x = Raise RuntimeError).
Proof. apply Mlp_forward_total. Qed.

Lemma Mlp_forward_shape_witness :
  (exists y, Mlp.forward Sample.mlp true (fun _ => true) (fun _ => true)
               (Demo.iota [2; 3; 2]) = Ok y
             /\ shape y = [2; 3] ++ [2] /\ wf y)
  /\ Mlp.forward Sample.mlp true (fun _ => true) (fun _ => true)
       (Demo.iota [2; 2; 3])
     = Raise RuntimeError.
Proof.
  split.
  - apply (Mlp_forward_shape 2 3 2 (fun v => (v * v)%Q) true 0
             [[1; 0]; [0; 1]; [1; 1]]%Q [0; 0; 1]%Q
             [[1; 0; 0]; [0; 1; 1]]%Q [0; 0]%Q Sample.mlp true
             (fun _ => true) (fun _ => true) (Demo.iota [2; 3; 2]) [2; 3] 2);
      reflexivity.
  - apply (Mlp_forward_shape 2 3 2 (fun v => (v * v)%Q) true 0
             [[1; 0]; [0; 1]; [1; 1]]%Q [0; 0; 1]%Q
             [[1; 0; 0]; [0; 1; 1]]%Q [0; 0]%Q Sample.mlp true
             (fun _ => true) (fun _ => true) (Demo.iota [2; 2; 3]) [2; 2] 3);
      [reflexivity | reflexivity | discriminate].
Defined.

(** X12. Outside training an [Mlp] mixes nothing across tokens: row [r] of
    its output is [fc2(act(fc1(.)))] of row [r] of its input alone. *)
Theorem Mlp_tokenwise (self : Mlp.t) (mask1 mask2 : nat -> bool)
  (x y : qtensor) (s : list nat) (d r : nat) :
  Mlp.forward self false mask1 mask2 x = Ok y ->
  shape x = s ++ [d] -> r < numel s ->
  sample (Linear.out_features (Mlp.fc2 self)) r (data y)
  = Mlp.token self (sample d r (data x)).
Proof.
  intros Hf Hs Hr. unfold Mlp.forward in Hf.
  destruct (Nat.eq_dec d (Linear.in_features (Mlp.fc1 self))) as [Hd|Hd].
  2:{ rewrite (Linear_forward_mismatch _ x s d Hs Hd) in Hf. discriminate. }
  rewrite (Linear_forward_ok _ x s d Hs Hd) in Hf. cbn [bind] in Hf.
  rewrite !Dropout_eval in Hf. cbn [shape data] in Hf.
  set (h := mkTensor _ _) in Hf.
  destruct (Nat.eq_dec (Linear.out_features (Mlp.fc1 self))
              (Linear.in_features (Mlp.fc2 self))) as [Ho|Ho].
  2:{ rewrite (Linear_forward_mismatch _ h s _ eq_refl Ho) in Hf.
      discriminate. }
  rewrite (Linear_forward_ok _ h s _ eq_refl Ho) in Hf. cbn [bind] in Hf.
  injection Hf as <-. rewrite Dropout_eval. unfold h. cbn [data].
  rewrite (sample_map_rows _ _ _ _ (Linear.out_features (Mlp.fc2 self)))
    by (exact Hr || apply length_Linear_row).
  rewrite sample_map.
  rewrite (sample_map_rows _ _ _ _ (Linear.out_features (Mlp.fc1 self)))
    by (exact Hr || apply length_Linear_row).
  reflexivity.
Qed.

Lemma Mlp_tokenwise_witness :
  match Mlp.forward Sample.mlp false (fun _ => true) (fun _ => true)
          (Demo.iota [2; 3; 2]) with
  | Ok y =>
      sample 2 4 (data y) = Mlp.token Sample.mlp (sample 2 4 (data (Demo.iota [2; 3; 2])))
  | Raise _ => False
  end.
Proof.
  destruct (Mlp.forward Sample.mlp false (fun _ => true) (fun _ => true)
              (Demo.iota [2; 3; 2])) as [y|e] eqn:E.
  - apply (Mlp_tokenwise Sample.mlp (fun _ => true) (fun _ => true)
             (Demo.iota [2; 3; 2]) y [2; 3] 2 4 E); [reflexivity | simpl; lia].
  - vm_compute in E. discriminate E.
Defined.

(** ** [MultiHeadSelfAttention] *)

Lemma length_scores (G N d : nat) (scale : Q) (q k : list Q) :
  length (MHSA.scores G N d scale q k) = G * (N * N).
Proof.
  unfold MHSA.scores. apply length_tab. intros g.
  apply length_tab. intros n. now rewrite length_map, length_seq.
Qed.

Lemma length_softmax_row (exp : Q -> Q) (l : list Q) :
  length (MHSA.softmax_row exp l) = length l.
Proof. unfold MHSA.softmax_row. now rewrite !length_map. Qed.

Lemma length_probs (exp : Q -> Q) (rows N : nat) (attn : list Q) :
  length attn = rows * N ->
  length (map_rows N rows (MHSA.softmax_row exp) attn) = rows * N.
Proof.
  intros Hl. unfold map_rows. apply length_tab_lt. intros i Hi.
  rewrite length_softmax_row. apply length_sample. nia.
Qed.

(** What [forward] computes before the output projection. *)
Lemma MHSA_forward_inv (self : MHSA.t) (exp : Q -> Q) (training : bool)
  (m1 m2 : nat -> bool) (x y p : qtensor) (B N D : nat) :
  shape x = [B; N; D] ->
  MHSA.forward self exp training m1 m2 x = Ok (y, p) ->
  (0 < MHSA.num_heads self)%Z
  /\ D = Linear.in_features (MHSA.qkv self)
  /\ exists attn u,
       length attn = B * Z.to_nat (MHSA.num_heads self) * N * N
       /\ p = mkTensor [B; Z.to_nat (MHSA.num_heads self); N; N]
                (map_rows N (B * Z.to_nat (MHSA.num_heads self) * N)
                   (MHSA.softmax_row exp) attn)
       /\ shape u = [B; N; D]
       /\ Linear.forward (MHSA.proj self) u
          = Ok (mkTensor (shape y)
                  (map_rows D (numel [B; N]) (Linear.row (MHSA.proj self))
                     (data u)))
       /\ shape y = [B; N; Linear.out_features (MHSA.proj self)].
Proof.
  intros Hs. unfold MHSA.forward. rewrite Hs.
  destruct (Nat.eq_dec D (Linear.in_features (MHSA.qkv self))) as [Hd|Hd].
  2:{ rewrite (Linear_forward_mismatch _ x [B; N] D Hs Hd). discriminate. }
  rewrite (Linear_forward_ok _ x [B; N] D Hs Hd). cbn [bind].
  destruct (Z.eqb_spec (MHSA.num_heads self) 0); [discriminate|].
  destruct (Z.ltb_spec (MHSA.num_heads self) 0); [discriminate|].
  destruct (negb _); [discriminate|].
  set (h := Z.to_nat (MHSA.num_heads self)).
  set (attn := MHSA.scores _ _ _ _ _ _).
  set (probs := mkTensor [B; h; N; N] _).
  unfold view. cbn [shape].
  destruct (_ =? _); [|discriminate]. cbn [bind data].
  set (u := mkTensor [B; N; D] _).
  destruct (Nat.eq_dec D (Linear.in_features (MHSA.proj self))) as [Hp|Hp].
  2:{ rewrite (Linear_forward_mismatch _ u [B; N] D eq_refl Hp). discriminate. }
  rewrite (Linear_forward_ok _ u [B; N] D eq_refl Hp). cbn [bind].
  intros [= <- <-]. split; [lia|]. split; [exact Hd|].
  exists attn, u. split.
  { unfold attn. rewrite length_scores. lia. }
  split; [reflexivity|]. split; [reflexivity|].
  rewrite Dropout_shape. cbn [shape app]. split; [|reflexivity].
  now rewrite (Linear_forward_ok _ u [B; N] D eq_refl Hp).
Qed.

Lemma MHSA_init_fields (dim h : Z) (qb : bool) (pa pp : Q) (inv_sqrt : Z -> Q)
  (wq : list (list Q)) (bq : list Q) (wp : list (list Q)) (bp : list Q)
  (self : MHSA.t) :
  MHSA.__init__ dim h qb pa pp inv_sqrt wq bq wp bp = Ok self ->
  MHSA.num_heads self = h /\ h <> 0%Z /\ (dim mod h = 0)%Z /\ (0 < dim)%Z
  /\ Linear.in_features (MHSA.qkv self) = Z.to_nat dim
  /\ Linear.out_features (MHSA.qkv self) = 3 * Z.to_nat dim
  /\ Linear.in_features (MHSA.proj self) = Z.to_nat dim
  /\ Linear.out_features (MHSA.proj self) = Z.to_nat dim.
Proof.
  unfold MHSA.__init__.
  destruct (Z.eqb_spec h 0); [discriminate|].
  destruct (Z.eqb_spec (dim mod h) 0) as [Hm|]; [|discriminate]. cbn [negb].
  destruct (Z.eqb_spec (dim / h) 0) as [|Hq]; [discriminate|].
  destruct (float_of_int (dim / h)) as [fl|e]; [|discriminate]. cbn [bind].
  destruct (Linear.__init__ dim (dim * 3) qb wq bq) as [lq|e] eqn:Eq;
    [|discriminate]. cbn [bind].
  destruct (Dropout.__init__ pa) as [da|e]; [|discriminate]. cbn [bind].
  destruct (Linear.__init__ dim dim true wp bp) as [lp|e] eqn:Ep;
    [|discriminate]. cbn [bind].
  destruct (Dropout.__init__ pp) as [dp|e]; [|discriminate]. cbn [bind].
  intros [= <-]. cbn.
  apply Linear_init_fields in Eq as (Hd & _ & Iq & Oq).
  apply Linear_init_fields in Ep as (_ & _ & Ip & Op).
  assert (dim <> 0)%Z by (intros ->; apply Hq; apply Z.div_0_l; assumption).
  repeat split; try assumption; try lia.
Qed.

Lemma to_nat_div_exact (dim h : Z) :
  (0 < dim)%Z -> (0 < h)%Z -> (dim mod h = 0)%Z ->
  Z.to_nat h * (Z.to_nat dim / Z.to_nat h) = Z.to_nat dim.
Proof.
  intros Hd Hh Hm.
  pose proof (Z.div_mod dim h ltac:(lia)) as E. rewrite Hm, Z.add_0_r in E.
  assert (0 <= dim / h)%Z by (apply Z.div_pos; lia).
  assert (E' : Z.to_nat dim = Z.to_nat (dim / h) * Z.to_nat h)
    by (rewrite <- Z2Nat.inj_mul by lia; f_equal; lia).
  rewrite E' at 1. rewrite Nat.div_mul by lia. lia.
Qed.

Lemma MHSA_forward_total (dim h : Z) (qb : bool) (pa pp : Q)
  (inv_sqrt : Z -> Q) (wq : list (list Q)) (bq : list Q)
  (wp : list (list Q)) (bp : list Q) (self : MHSA.t) (exp : Q -> Q)
  (training : bool) (m1 m2 : nat -> bool) (x : qtensor) (B N D : nat) :
  MHSA.__init__ dim h qb pa pp inv_sqrt wq bq wp bp = Ok self ->
  (0 < h)%Z ->
  shape x = [B; N; D] ->
  (D = Z.to_nat dim ->
   exists y p,
     MHSA.forward self exp training m1 m2 x = Ok (y, p)
     /\ shape y = [B; N; Z.to_nat dim] /\ wf y
     /\ shape p = [B; Z.to_nat h; N; N] /\ wf p)
  /\ (D <> Z.to_nat dim ->
      MHSA.forward self exp training m1 m2 x = Raise RuntimeError).
Proof.
  intros Hi Hh Hs.
  apply MHSA_init_fields in Hi as (Hn & _ & Hm & Hd & Iq & Oq & Ip & Op).
  unfold MHSA.forward. rewrite Hs. split.
  - intros ->.
    rewrite (Linear_forward_ok _ x [B; N] _ Hs) by congruence. cbn [bind].
    rewrite Hn.
    destruct (Z.eqb_spec h 0); [lia|].
    destruct (Z.ltb_spec h 0); [lia|].
    cbn [shape app]. rewrite Oq.
    pose proof (to_nat_div_exact dim h Hd Hh Hm) as Ex.
    assert (E1 : (numel [B; N; 3 * Z.to_nat dim]
                  =? numel [B; N; 3; Z.to_nat h; Z.to_nat dim / Z.to_nat h])
                 = true).
    { apply Nat.eqb_eq. cbn [numel fold_right]. nia. }
    rewrite E1. cbn [negb].
    unfold view. cbn [shape].
    assert (E2 : (numel [B; N; Z.to_nat dim]
                  =? numel [B; N; Z.to_nat h; Z.to_nat dim / Z.to_nat h])
                 = true).
    { apply Nat.eqb_eq. cbn [numel fold_right]. nia. }
    rewrite E2. cbn [bind data].
    set (u := mkTensor [B; N; Z.to_nat dim] _).
    rewrite (Linear_forward_ok _ u [B; N] _ eq_refl) by congruence.
    cbn [bind]. eexists. eexists. split; [reflexivity|].
    rewrite Dropout_shape. cbn [shape app]. rewrite Op.
    split; [reflexivity|]. split.
    + unfold wf. rewrite Dropout_length, Dropout_shape. cbn [shape data app].
      rewrite (length_map_rows _ _ _ _ (Linear.out_features (MHSA.proj self)))
        by apply length_Linear_row.
      rewrite Op. cbn [numel fold_right]. lia.
    + split; [reflexivity|]. unfold wf. cbn [shape data].
      rewrite length_probs; [cbn [numel fold_right]; lia|].
      rewrite length_scores. lia.
  - intros Hne.
    now rewrite (Linear_forward_mismatch _ x [B; N] D Hs) by congruence.
Qed.

(** X13. A [MultiHeadSelfAttention] built for [dim] channels and a positive
    number [h] of heads returns, on every input [(B, N, dim)], an output of
    shape [(B, N, dim)] and attention probabilities of shape [(B, h, N, N)],
    both well formed, in training as in evaluation; on an input of any other
    width it raises [RuntimeError]. *)
Theorem attention_forward_shapes (dim h : Z) (qb : bool) (pa pp : Q)
  (inv_sqrt : Z -> Q) (wq : list (list Q)) (bq : list Q)
  (wp : list (list Q)) (bp : list Q) (self : MHSA.t) (exp : Q -> Q)
  (training : bool) (m1 m2 : nat -> bool) (x : qtensor) (B N D : nat) :
  MHSA.__init__ dim h qb pa pp inv_sqrt wq bq wp bp = Ok self ->
  (0 < h)%Z ->
  shape x = [B; N; D] ->
  (D = Z.to_nat dim ->
   exists y p,
     MHSA.forward self exp training m1 m2 x = Ok (y, p)
     /\ shape y = [B; N; Z.to_nat dim] /\ wf y
     /\ shape p = [B; Z.to_nat h; N; N] /\ wf p)
  /\ (D <> Z.to_nat dim ->
      MHSA.forward self exp training m1 m2 x = Raise RuntimeError).
Proof. apply MHSA_forward_total. Qed.

Lemma sample_attention_built :
  MHSA.__init__ 4 2 false (1 # 2) 0 (fun _ => 1%Q)
    [[1; 0; 0; 0]; [0; 1; 0; 0]; [0; 0; 1; 0]; [0; 0; 0; 1];
     [1; 1; 0; 0]; [0; 1; 1; 0]; [0; 0; 1; 1]; [1; 0; 0; 1];
     [1; 0; 1; 0]; [0; 1; 0; 1]; [1; 1; 1; 0]; [0; 1; 1; 1]]%Q []
    [[1; 0; 0; 0]; [0; 1; 0; 0]; [0; 0; 1; 0]; [0; 0; 0; 1]]%Q
    [0; 0; 0; 0]%Q
  = Ok Sample.attention.
Proof. reflexivity. Qed.

Lemma attention_forward_shapes_witness :
  (exists y p,
     MHSA.forward Sample.attention Sample.exp true (fun k => Nat.even k)
       (fun _ => true) (Demo.iota [1; 3; 4]) = Ok (y, p)
     /\ shape y = [1; 3; Z.to_nat 4] /\ wf y
     /\ shape p = [1; Z.to_nat 2; 3; 3] /\ wf p)
  /\ MHSA.forward Sample.attention Sample.exp true (fun k => Nat.even k)
       (fun _ => true) (Demo.iota [1; 4; 3])
     = Raise RuntimeError.
Proof.
  split.
  - apply (attention_forward_shapes 4 2 false (1 # 2) 0 (fun _ => 1%Q)
             _ _ _ _ Sample.attention Sample.exp true (fun k => Nat.even k)
             (fun _ => true) (Demo.iota [1; 3; 4]) 1 3 4
             sample_attention_built); [lia | reflexivity | reflexivity].
  - apply (attention_forward_shapes 4 2 false (1 # 2) 0 (fun _ => 1%Q)
             _ _ _ _ Sample.attention Sample.exp true (fun k => Nat.even k)
             (fun _ => true) (Demo.iota [1; 4; 3]) 1 4 3
             sample_attention_built); [lia | reflexivity | discriminate].
Defined.

Lemma Linear_forward_same_shape (self : Linear.t) (u v a : qtensor) :
  shape u = shape v -> Linear.forward self u = Ok a ->
  exists b, Linear.forward self v = Ok b.
Proof.
  unfold Linear.forward. intros <-.
  destruct (rev (shape u)) as [|d front]; [discriminate|].
  destruct (d =? Linear.in_features self); [|discriminate].
  intros _. eexists. reflexivity.
Qed.

(** X14. The attention probabilities [forward] returns are taken before
    [attn_drop]: the training flag and the draws of both dropouts change
    neither whether [forward] returns nor the probabilities it returns. *)
Theorem attention_probs_before_dropout (self : MHSA.t) (exp : Q -> Q)
  (training training' : bool) (m1 m2 m1' m2' : nat -> bool)
  (x y p : qtensor) :
  MHSA.forward self exp training m1 m2 x = Ok (y, p) ->
  exists y', MHSA.forward self exp training' m1' m2' x = Ok (y', p).
Proof.
  unfold MHSA.forward.
  destruct (shape x) as [|B [|N [|D [|? ?]]]]; try discriminate.
  destruct (Linear.forward (MHSA.qkv self) x) as [qkv|e]; [|discriminate].
  cbn [bind].
  destruct (MHSA.num_heads self =? 0)%Z; [discriminate|].
  destruct (MHSA.num_heads self <? 0)%Z; [discriminate|].
  destruct (negb _); [discriminate|].
  unfold view. cbn [shape].
  destruct (_ =? _); [|discriminate]. cbn [bind data].
  match goal with
  | |- context [Linear.forward (MHSA.proj self) ?u] => set (u1 := u)
  end.
  match goal with
  | |- context [Linear.forward (MHSA.proj self)
                  (mkTensor [B; N; D] ?d)] =>
      match d with
      | context [training'] => set (u2 := mkTensor [B; N; D] d)
      end
  end.
  destruct (Linear.forward (MHSA.proj self) u1) as [o|e] eqn:E1;
    [|discriminate]. cbn [bind]. intros [= _ <-].
  destruct (Linear_forward_same_shape (MHSA.proj self) u1 u2 o eq_refl E1)
    as [o' ->].
  cbn [bind]. eexists. reflexivity.
Qed.

Lemma attention_probs_before_dropout_witness :
  match MHSA.forward Sample.attention Sample.exp true (fun k => Nat.even k)
          (fun _ => true) (Demo.iota [1; 3; 4]) with
  | Ok (_, p) =>
      exists y',
        MHSA.forward Sample.attention Sample.exp false (fun _ => true)
          (fun _ => true) (Demo.iota [1; 3; 4]) = Ok (y', p)
  | Raise _ => False
  end.
Proof.
  destruct (MHSA.forward Sample.attention Sample.exp true (fun k => Nat.even k)
              (fun _ => true) (Demo.iota [1; 3; 4])) as [[y p]|e] eqn:E.
  - exact (attention_probs_before_dropout Sample.attention Sample.exp true
             false (fun k => Nat.even k) (fun _ => true) (fun _ => true)
             (fun _ => true) (Demo.iota [1; 3; 4]) y p E).
  - vm_compute in E. discriminate E.
Defined.

Section SoftmaxSum.

Local Open Scope Q_scope.

Lemma sumQ_div (S : Q) (e : list Q) :
  ~ S == 0 -> sumQ (map (fun v => v / S) e) == sumQ e / S.
Proof.
  intros HS. induction e as [|a e IH]; simpl.
  - unfold Qdiv. ring.
  - rewrite IH. field. exact HS.
Qed.

Lemma sumQ_pos (e : list Q) :
  e <> [] -> Forall (fun v => 0 < v) e -> 0 < sumQ e.
Proof.
  intros Hne Hall. induction Hall as [|a e Ha Hall IH]; [contradiction|].
  simpl. destruct e as [|b e].
  - simpl. rewrite Qplus_0_r. exact Ha.
  - assert (0 < sumQ (b :: e)) by (apply IH; discriminate).
    apply Qlt_trans with (0 + sumQ (b :: e)).
    + now rewrite Qplus_0_l.
    + apply Qplus_lt_l. exact Ha.
Qed.

(** In exact arithmetic, the softmax of a non-empty row sums to one. *)
Lemma softmax_row_sum (exp : Q -> Q) (l : list Q) :
  (forall v, 0 < exp v) -> l <> [] -> sumQ (MHSA.softmax_row exp l) == 1.
Proof.
  intros Hexp Hne. unfold MHSA.softmax_row.
  assert (Hpos : 0 < sumQ (map exp l)).
  { apply sumQ_pos.
    - destruct l; [contradiction | discriminate].
    - apply Forall_forall. intros v Hv. apply in_map_iff in Hv as (u & <- & _).
      apply Hexp. }
  assert (Hnz : ~ sumQ (map exp l) == 0).
  { intros E. rewrite E in Hpos. now apply Qlt_irrefl in Hpos. }
  rewrite (sumQ_div _ _ Hnz). field. exact Hnz.
Qed.

End SoftmaxSum.

(** X15. In exact arithmetic, with any positive function as exponential,
    every row of the attention probabilities [forward] returns (one row per
    batch element, head and query position) sums to 1 over the key axis,
    whatever the training flag and the dropout draws. *)
Theorem attention_rows_sum_to_one (self : MHSA.t) (exp : Q -> Q)
  (training : bool) (m1 m2 : nat -> bool) (x y p : qtensor)
  (B N D r : nat) :
  (forall v, (0 < exp v)%Q) ->
  shape x = [B; N; D] ->
  MHSA.forward self exp training m1 m2 x = Ok (y, p) ->
  r < B * Z.to_nat (MHSA.num_heads self) * N ->
  (sumQ (sample N r (data p)) == 1)%Q.
Proof.
  intros Hexp Hs Hf Hr.
  destruct (MHSA_forward_inv self exp training m1 m2 x y p B N D Hs Hf)
    as (_ & _ & attn & u & Hl & -> & _).
  cbn [data]. unfold map_rows.
  assert (Hrow : forall i, i < B * Z.to_nat (MHSA.num_heads self) * N ->
                 length (sample N i attn) = N).
  { intros i Hi. apply length_sample. nia. }
  rewrite (sample_tab N _ r
             (fun r => MHSA.softmax_row exp (sample N r attn))).
  - apply softmax_row_sum; [exact Hexp|].
    intros E. apply (f_equal (@length Q)) in E.
    rewrite (Hrow r Hr) in E. simpl in E. subst N. lia.
  - intros i Hi. rewrite length_softmax_row. now apply Hrow.
  - exact Hr.
Qed.

Lemma sample_exp_pos (v : Q) : (0 < Sample.exp v)%Q.
Proof.
  unfold Sample.exp.
  apply Qlt_le_trans with (1 + 0)%Q; [reflexivity|].
  apply Qplus_le_r. unfold Qle, Qmult. simpl.
  rewrite Z.mul_1_r. apply Z.square_nonneg.
Qed.

Lemma attention_rows_sum_to_one_witness :
  match MHSA.forward Sample.attention Sample.exp true (fun k => Nat.even k)
          (fun _ => true) (Demo.iota [1; 3; 4]) with
  | Ok (_, p) => (sumQ (sample 3 5 (data p)) == 1)%Q
  | Raise _ => False
  end.
Proof.
  destruct (MHSA.forward Sample.attention Sample.exp true (fun k => Nat.even k)
              (fun _ => true) (Demo.iota [1; 3; 4])) as [[y p]|e] eqn:E.
  - apply (attention_rows_sum_to_one Sample.attention Sample.exp true
             (fun k => Nat.even k) (fun _ => true) (Demo.iota [1; 3; 4]) y p
             1 3 4 5 sample_exp_pos eq_refl E).
    simpl. lia.
  - vm_compute in E. discriminate E.
Defined.

(** A head too wide for a float: [head_dim ** -0.5] raises. *)
Lemma attention_init_overflow :
  MHSA.__init__ (10 ^ 400) 1 false 0 0 (fun _ => 0%Q) [] [] [] []
  = Raise OverflowError.
Proof. vm_compute. reflexivity. Qed.

(** X16. The tests of the constructor of [MultiHeadSelfAttention].  It
    fails the [assert] exactly when [num_heads] is non-zero and does not
    divide [dim]; it raises [ZeroDivisionError] exactly when [num_heads] or
    [dim] is zero ([dim % 0] and [0 ** -0.5]); it raises [OverflowError] when
    [head_dim] is beyond the floats.  Whenever it returns, [num_heads] is
    non-zero and divides [dim], [dim] is positive, [head_dim] converts to a
    float and both dropout rates lie in [0, 1]. *)
Theorem attention_init_errors (dim h : Z) (qb : bool) (pa pp : Q)
  (inv_sqrt : Z -> Q) (wq : list (list Q)) (bq : list Q)
  (wp : list (list Q)) (bp : list Q) :
  (MHSA.__init__ dim h qb pa pp inv_sqrt wq bq wp bp = Raise AssertionError
   <-> (h <> 0%Z /\ (dim mod h <> 0)%Z))
  /\ (MHSA.__init__ dim h qb pa pp inv_sqrt wq bq wp bp
      = Raise ZeroDivisionError
      <-> (h = 0%Z \/ dim = 0%Z))
  /\ (h <> 0%Z -> (dim mod h = 0)%Z ->
      float_of_int (dim / h) = Raise OverflowError ->
      MHSA.__init__ dim h qb pa pp inv_sqrt wq bq wp bp = Raise OverflowError)
  /\ (forall self,
        MHSA.__init__ dim h qb pa pp inv_sqrt wq bq wp bp = Ok self ->
        h <> 0%Z /\ (dim mod h = 0)%Z /\ (0 < dim)%Z
        /\ (exists v, float_of_int (dim / h) = Ok v)
        /\ (0 <= pa /\ pa <= 1)%Q /\ (0 <= pp /\ pp <= 1)%Q).
Proof.
  unfold MHSA.__init__, Linear.__init__, Dropout.__init__.
  assert (Hq : h <> 0%Z -> (dim mod h = 0)%Z -> (dim / h = 0)%Z -> dim = 0%Z).
  { intros Hh Hm Hq. pose proof (Z.div_mod dim h Hh). lia. }
  assert (F0 : float_of_int 0 = Ok 0%Q) by reflexivity.
  destruct (Z.eqb_spec h 0) as [Hh|Hh].
  { repeat split; try discriminate; try tauto. }
  destruct (Z.eqb_spec (dim mod h) 0) as [Hm|Hm]; cbn [negb].
  2:{ repeat split; try discriminate; try tauto.
      intros [H| ->]; [contradiction|].
      rewrite Z.mod_0_l in Hm by exact Hh. contradiction. }
  destruct (Z.eqb_spec (dim / h) 0) as [Hd|Hd].
  { pose proof (Hq Hh Hm Hd) as ->.
    repeat split; try discriminate; try tauto. }
  assert (Hd0 : dim <> 0%Z).
  { intros ->. apply Hd. now apply Z.div_0_l. }
  destruct (float_of_int (dim / h)) as [fl|e] eqn:Ef; cbn [bind].
  2:{ assert (e = OverflowError) as ->.
      { unfold float_of_int in Ef. destruct (float_overflow _); congruence. }
      repeat split; try discriminate; try tauto. }
  assert (Rest : forall r : result MHSA.t,
            (r = Raise AssertionError -> False) ->
            (r = Raise ZeroDivisionError -> False) ->
            (forall self, r = Ok self ->
               (0 < dim)%Z /\ (0 <= pa /\ pa <= 1)%Q /\ (0 <= pp /\ pp <= 1)%Q) ->
            (r = Raise AssertionError <-> h <> 0%Z /\ (dim mod h <> 0)%Z)
            /\ (r = Raise ZeroDivisionError <-> h = 0%Z \/ dim = 0%Z)
            /\ (h <> 0%Z -> (dim mod h = 0)%Z ->
                @Ok Q fl = Raise OverflowError -> r = Raise OverflowError)
            /\ (forall self, r = Ok self ->
                  h <> 0%Z /\ (dim mod h = 0)%Z /\ (0 < dim)%Z
                  /\ (exists v, @Ok Q fl = Ok v)
                  /\ (0 <= pa /\ pa <= 1)%Q /\ (0 <= pp /\ pp <= 1)%Q)).
  { intros r H1 H2 H3. split; [|split; [|split]].
    - tauto.
    - tauto.
    - discriminate.
    - intros self H. destruct (H3 self H) as (A & B & C).
      repeat split; try tauto. now eexists. }
  apply Rest.
  - destruct (Z.ltb_spec dim 0); cbn [orb bind]; [discriminate|].
    destruct (Z.ltb_spec (dim * 3) 0); cbn [bind]; [discriminate|].
    destruct (Qlt_le_dec pa 0); cbn [bind]; [discriminate|].
    destruct (Qlt_le_dec 1 pa); cbn [bind]; [discriminate|].
    destruct (Qlt_le_dec pp 0); cbn [bind]; [discriminate|].
    destruct (Qlt_le_dec 1 pp); cbn [bind]; discriminate.
  - destruct (Z.ltb_spec dim 0); cbn [orb bind]; [discriminate|].
    destruct (Z.ltb_spec (dim * 3) 0); cbn [bind]; [discriminate|].
    destruct (Qlt_le_dec pa 0); cbn [bind]; [discriminate|].
    destruct (Qlt_le_dec 1 pa); cbn [bind]; [discriminate|].
    destruct (Qlt_le_dec pp 0); cbn [bind]; [discriminate|].
    destruct (Qlt_le_dec 1 pp); cbn [bind]; discriminate.
  - intros self.
    destruct (Z.ltb_spec dim 0); cbn [orb bind]; [discriminate|].
    destruct (Z.ltb_spec (dim * 3) 0); cbn [bind]; [discriminate|].
    destruct (Qlt_le_dec pa 0); cbn [bind]; [discriminate|].
    destruct (Qlt_le_dec 1 pa); cbn [bind]; [discriminate|].
    destruct (Qlt_le_dec pp 0); cbn [bind]; [discriminate|].
    destruct (Qlt_le_dec 1 pp); cbn [bind]; [discriminate|].
    intros _. repeat split; try assumption. lia.
Qed.

(** ** [Block] assembled from its sub-modules *)

Lemma shape_eqb_refl (s : list nat) : shape_eqb s s = true.
Proof.
  unfold shape_eqb. rewrite Nat.eqb_refl. simpl.
  induction s as [|a s IH]; simpl; [reflexivity|].
  now rewrite Nat.eqb_refl.
Qed.

Lemma tadd_same_shape (x y : qtensor) :
  shape x = shape y ->
  tadd x y = Ok (mkTensor (shape x) (map2 Qplus (data x) (data y))).
Proof. intros H. unfold tadd. now rewrite <- H, shape_eqb_refl. Qed.

Lemma Block_init_inv (dim h ratio : Z) (qb : bool) (pa pp : Q) (act : Q -> Q)
  (norm_layer : Z -> result layer) (dp dr : Q) (ps : block_params) (rn : run)
  (blk : Block.t) :
  Block.__init__ dim h ratio qb pa pp act norm_layer dp dr ps rn = Ok blk ->
  exists n1 n2 a m,
    norm_layer dim = Ok n1 /\ norm_layer dim = Ok n2
    /\ MHSA.__init__ dim h qb pa pp (inv_sqrt ps) (w_qkv ps) (b_qkv ps)
         (w_proj ps) (b_proj ps) = Ok a
    /\ Mlp.__init__ dim (dim * ratio) dim act true dr (w_fc1 ps) (b_fc1 ps)
         (w_fc2 ps) (b_fc2 ps) = Ok m
    /\ blk = Block.mk n1
               (MHSA.forward a (exp rn) (training rn) (mask_attn rn)
                  (mask_proj rn))
               (Block.make_gate dp) n2
               (Mlp.forward m (training rn) (mask_fc1 rn) (mask_fc2 rn))
               (Block.make_gate dp).
Proof.
  unfold Block.__init__.
  destruct (norm_layer dim) as [n|e]; [|discriminate]. cbn [bind].
  destruct (MHSA.__init__ _ _ _ _ _ _ _ _ _ _) as [a|e]; [|discriminate].
  cbn [bind].
  destruct (Mlp.__init__ _ _ _ _ _ _ _ _ _ _) as [m|e]; [|discriminate].
  cbn [bind]. intros [= <-]. exists n, n, a, m. auto.
Qed.

(** X17. A [Block] built for [dim] channels and a positive number [h] of
    heads, with a normalisation that keeps the shape of [(B, N, dim)]
    inputs, maps every input [(B, N, dim)] to an output of the same shape
    together with attention probabilities of shape [(B, h, N, N)]: the two
    residual additions always meet operands of one shape. *)
Theorem Block_forward_shapes (dim h ratio : Z) (qb : bool) (pa pp : Q)
  (act : Q -> Q) (norm_layer : Z -> result layer) (dp dr : Q)
  (ps : block_params) (rn : run) (blk : Block.t) (x : qtensor) (B N : nat) :
  Block.__init__ dim h ratio qb pa pp act norm_layer dp dr ps rn = Ok blk ->
  (0 < h)%Z ->
  (forall l u, norm_layer dim = Ok l -> shape u = [B; N; Z.to_nat dim] ->
               exists v, l u = Ok v /\ shape v = shape u) ->
  shape x = [B; N; Z.to_nat dim] ->
  exists y p,
    Block.forward blk x = Ok (y, p)
    /\ shape y = [B; N; Z.to_nat dim]
    /\ shape p = [B; Z.to_nat h; N; N].
Proof.
  intros Hi Hh Hnorm Hs.
  apply Block_init_inv in Hi as (n1 & n2 & a & m & Hn1 & Hn2 & Ha & Hm & ->).
  unfold Block.forward. cbn [Block.norm1 Block.attn Block.norm2 Block.mlp].
  destruct (Hnorm n1 x Hn1 Hs) as (v1 & -> & Sv1). cbn [bind].
  rewrite Hs in Sv1.
  destruct (MHSA_forward_total dim h qb pa pp _ _ _ _ _ a (exp rn)
              (training rn) (mask_attn rn) (mask_proj rn) v1 B N
              (Z.to_nat dim) Ha Hh Sv1) as [Hok _].
  destruct (Hok eq_refl) as (o & p & -> & So & _ & Sp & _). cbn [bind].
  rewrite tadd_same_shape by congruence. cbn [bind].
  set (x1 := mkTensor (shape x) _).
  assert (Sx1 : shape x1 = [B; N; Z.to_nat dim]) by exact Hs.
  destruct (Hnorm n2 x1 Hn2 Sx1) as (v2 & -> & Sv2). cbn [bind].
  rewrite Sx1 in Sv2.
  destruct (Mlp_forward_total dim (dim * ratio) dim act true dr _ _ _ _ m
              (training rn) (mask_fc1 rn) (mask_fc2 rn) v2 [B; N]
              (Z.to_nat dim) Hm Sv2) as [Hmlp _].
  destruct (Hmlp eq_refl) as (o2 & -> & So2 & _). cbn [bind].
  rewrite tadd_same_shape by (rewrite Sx1, So2; reflexivity). cbn [bind].
  eexists. eexists. split; [reflexivity|]. split; [exact Sx1 | exact Sp].
Qed.

Lemma sample_block_built :
  Block.__init__ 4 2 2 false (1 # 2) 0 (fun v => (v * v)%Q)
    (fun _ => Ok (fun x => Ok x)) (1 # 2) 0 SampleBlock.params SampleBlock.state
  = Ok SampleBlock.block.
Proof. reflexivity. Qed.

Lemma Block_forward_shapes_witness :
  exists y p,
    Block.forward SampleBlock.block (Demo.iota [1; 3; 4]) = Ok (y, p)
    /\ shape y = [1; 3; Z.to_nat 4]
    /\ shape p = [1; Z.to_nat 2; 3; 3].
Proof.
  apply (Block_forward_shapes 4 2 2 false (1 # 2) 0 (fun v => (v * v)%Q)
           (fun _ => Ok (fun x => Ok x)) (1 # 2) 0 SampleBlock.params SampleBlock.state
           SampleBlock.block (Demo.iota [1; 3; 4]) 1 3 sample_block_built).
  - lia.
  - intros l u [= <-] Hu. exists u. split; reflexivity.
  - reflexivity.
Defined.

(** ** The function [drop_path] *)

Section PerSample.

Local Open Scope Q_scope.

Lemma Forall_map_zero (c : Q) (l : list Q) :
  c == 0 -> Forall (fun v => v == 0) (map (fun v => v * c) l).
Proof.
  intros Hc. apply Forall_forall. intros v Hv.
  apply in_map_iff in Hv as (u & <- & _). rewrite Hc. ring.
Qed.

Lemma Forall2_map_scaled (c : Q) (f : Q -> Q) (l : list Q) :
  (forall v, v * c == f v) ->
  Forall2 (fun v' v => v' == f v) (map (fun v => v * c) l) l.
Proof.
  intros Hc. induction l as [|a l IH]; simpl; constructor; auto.
Qed.

End PerSample.

(** X19. In training, with a rate strictly between 0 and 1, [drop_path]
    works sample by sample on a well-formed tensor: the result has the shape
    of the input; a sample the draw drops becomes zero everywhere; a sample
    it keeps is divided by [1 - rate] when [scale_by_keep] is set and is
    left as it is otherwise. *)
Theorem drop_path_per_sample (x : qtensor) (p : Q) (scale : bool)
  (rnd : nat -> bool) (B : nat) (rest : list nat) :
  (0 < p)%Q -> (p < 1)%Q ->
  shape x = B :: rest -> wf x ->
  exists y,
    DropPath.drop_path
      [DropPath.VTensor x; DropPath.VFloat p; DropPath.VBool true;
       DropPath.VBool scale] rnd
    = Ok (DropPath.VTensor y)
    /\ shape y = shape x /\ wf y
    /\ forall b, b < B ->
         (rnd b = false ->
          Forall (fun v => (v == 0)%Q) (sample (numel rest) b (data y)))
         /\ (rnd b = true ->
             Forall2 (fun v' v => (v' == if scale then v / (1 - p) else v)%Q)
               (sample (numel rest) b (data y))
               (sample (numel rest) b (data x))).
Proof.
  intros Hp0 Hp1 Hs Hwf.
  unfold wf in Hwf. rewrite Hs in Hwf. cbn [numel fold_right] in Hwf.
  fold (numel rest) in Hwf.
  assert (Hk : (0 < 1 - p)%Q) by lra.
  assert (Hknz : ~ (1 - p == 0)%Q) by lra.
  assert (Hk1 : ~ (1 < 1 - p)%Q) by lra.
  unfold DropPath.drop_path. cbn [DropPath.bind_positional length Nat.ltb
    Nat.leb orb Nat.add Nat.sub skipn app bind].
  assert (Hne : Qeq_bool p 0 = false).
  { destruct (Qeq_bool p 0) eqn:E; [|reflexivity].
    apply Qeq_bool_iff in E. lra. }
  rewrite Hne. cbn [orb negb].
  unfold DropPath.stochastic. rewrite Hs.
  destruct (Qlt_le_dec (1 - p) 0) as [Hneg|_].
  { exfalso. lra. }
  destruct (Qlt_le_dec 1 (1 - p)) as [Hbig|_]; [contradiction|].
  cbn [bind]. eexists. split; [reflexivity|]. cbn [shape data].
  set (g := fun b => map (fun v => (v * DropPath.random_tensor (1 - p) scale rnd b)%Q)
                         (sample (numel rest) b (data x))).
  assert (Hg : forall i, i < B -> length (g i) = numel rest).
  { intros i Hi. unfold g. rewrite length_map. apply length_sample. nia. }
  split; [reflexivity|]. split.
  { unfold wf. cbn [shape data numel fold_right]. fold (numel rest).
    now rewrite (length_tab_lt (numel rest) B g Hg). }
  intros b Hb. rewrite (sample_tab (numel rest) B b g Hg Hb). unfold g.
  unfold DropPath.random_tensor.
  destruct (Qlt_le_dec 0 (1 - p)) as [_|Hle].
  2:{ exfalso. lra. }
  split; intros Hr; rewrite Hr.
  - apply Forall_map_zero. destruct scale; [|reflexivity].
    unfold Qdiv. ring.
  - apply Forall2_map_scaled. intros v. destruct scale.
    + field. exact Hknz.
    + ring.
Qed.

Lemma drop_path_per_sample_witness :
  exists y,
    DropPath.drop_path
      [DropPath.VTensor (Demo.iota [2; 3]); DropPath.VFloat (1 # 4);
       DropPath.VBool true; DropPath.VBool true] (fun b => Nat.eqb b 1)
    = Ok (DropPath.VTensor y)
    /\ shape y = shape (Demo.iota [2; 3]) /\ wf y
    /\ forall b, b < 2 ->
         ((fun b => Nat.eqb b 1) b = false ->
          Forall (fun v => (v == 0)%Q) (sample (numel [3]) b (data y)))
         /\ ((fun b => Nat.eqb b 1) b = true ->
             Forall2 (fun v' v => (v' == if true then v / (1 - (1 # 4)) else v)%Q)
               (sample (numel [3]) b (data y))
               (sample (numel [3]) b (data (Demo.iota [2; 3])))).
Proof.
  apply (drop_path_per_sample (Demo.iota [2; 3]) (1 # 4) true
           (fun b => Nat.eqb b 1) 2 [3]); reflexivity.
Defined.

(** ** The training size of [train_polyp.py] *)

Section TrainSize.

Local Open Scope Q_scope.

Lemma float_op_exact (q : Q) (m s : Z) :
  q == inject_Z m / 2 ^ s -> (Z.abs m < 2 ^ 53)%Z -> (0 <= s <= 1074)%Z ->
  exists v, float_op q = Ok v /\ v == q.
Proof.
  intros Eq Hm Hs. unfold float_op.
  rewrite round_binary64_finite.
  - eexists. split; [reflexivity|]. now apply (round_binary64_exact q m s).
  - assert (Hps : 1 <= 2 ^ s) by (apply Qpower_1_le; [lra | lia]).
    rewrite (Qabs_wd _ _ Eq). unfold Qdiv.
    rewrite Qabs_Qmult, Qabs_Qinv, Qabs_inject_Z.
    rewrite (Qabs_pos (2 ^ s)) by lra.
    assert (HM : inject_Z (Z.abs m) < 2 ^ 53).
    { change 2 with (inject_Z 2). rewrite <- Zpower_Qpower by lia.
      now rewrite <- Zlt_Qlt. }
    assert (HM0 : 0 <= inject_Z (Z.abs m)).
    { change 0 with (inject_Z 0). rewrite <- Zle_Qle. lia. }
    assert (H53 : 2 ^ 53 <= 2 ^ 1023)
      by (apply Qpower_le_compat_l; [lia | lra]).
    apply Qle_lt_trans with (inject_Z (Z.abs m)); [|lra].
    apply Qle_shift_div_r; [lra|].
    set (A := inject_Z (Z.abs m)) in *. set (P := 2 ^ s) in *.
    assert (0 <= A * (P - 1)) by (apply Qmult_le_0_compat; lra).
    lra.
Qed.

Lemma round_half_even_positive (q : Q) : (0 < round_half_even q)%Z <-> 1 # 2 < q.
Proof.
  pose proof (Qfloor_le q) as Hlo. pose proof (Qlt_floor q) as Hhi.
  rewrite inject_Z_plus in Hhi. change (inject_Z 1) with 1 in Hhi.
  unfold round_half_even.
  destruct (Qcompare_spec (q - inject_Z (Qfloor q)) (1 # 2)) as [E|L|G].
  - destruct (Z.even (Qfloor q)) eqn:Ev.
    + split; intros H.
      * assert (1 <= Qfloor q)%Z by lia.
        assert (inject_Z 1 <= inject_Z (Qfloor q)) by (rewrite <- Zle_Qle; lia).
        change (inject_Z 1) with 1 in *. lra.
      * destruct (Z_lt_le_dec 0 (Qfloor q)) as [|Hn]; [assumption|].
        exfalso.
        destruct (Z.eq_dec (Qfloor q) 0) as [E0|Hne].
        { rewrite E0 in E. change (inject_Z 0) with 0 in E. lra. }
        assert (Qfloor q <= -1)%Z by lia.
        assert (inject_Z (Qfloor q) <= inject_Z (-1))
          by (rewrite <- Zle_Qle; lia).
        change (inject_Z (-1)) with (-1 # 1) in *. lra.
    + split; intros H.
      * destruct (Z.eq_dec (Qfloor q) 0) as [E0|Hne].
        { rewrite E0 in Ev. discriminate. }
        assert (1 <= Qfloor q)%Z by lia.
        assert (inject_Z 1 <= inject_Z (Qfloor q)) by (rewrite <- Zle_Qle; lia).
        change (inject_Z 1) with 1 in *. lra.
      * destruct (Z_lt_le_dec 0 (Qfloor q + 1)) as [|Hn]; [assumption|].
        exfalso.
        assert (Qfloor q <= -1)%Z by lia.
        assert (inject_Z (Qfloor q) <= inject_Z (-1))
          by (rewrite <- Zle_Qle; lia).
        change (inject_Z (-1)) with (-1 # 1) in *. lra.
  - split; intros H.
    + assert (1 <= Qfloor q)%Z by lia.
      assert (inject_Z 1 <= inject_Z (Qfloor q)) by (rewrite <- Zle_Qle; lia).
      change (inject_Z 1) with 1 in *. lra.
    + destruct (Z_lt_le_dec 0 (Qfloor q)) as [|Hn]; [assumption|].
      exfalso.
      assert (inject_Z (Qfloor q) <= inject_Z 0) by (rewrite <- Zle_Qle; lia).
      change (inject_Z 0) with 0 in *. lra.
  - split; intros H.
    + assert (0 <= Qfloor q)%Z by lia.
      assert (inject_Z 0 <= inject_Z (Qfloor q)) by (rewrite <- Zle_Qle; lia).
      change (inject_Z 0) with 0 in *. lra.
    + destruct (Z_lt_le_dec 0 (Qfloor q + 1)) as [|Hn]; [assumption|].
      exfalso.
      assert (Qfloor q <= -1)%Z by lia.
      assert (inject_Z (Qfloor q) <= inject_Z (-1)) by (rewrite <- Zle_Qle; lia).
      change (inject_Z (-1)) with (-1 # 1) in *. lra.
Qed.

Lemma trainsize_exact (img_size : Z) (rate : pynum) :
  In rate size_rates -> (Z.abs img_size < 2 ^ 50)%Z ->
  trainsize img_size rate
  = Ok (round_half_even (inject_Z img_size * num_value rate / 32) * 32)%Z.
Proof.
  intros Hr Hi.
  assert (Float : forall c : Z, (0 < c <= 5)%Z ->
            trainsize img_size (PFloat (inject_Z c / 4))
            = Ok (round_half_even
                    (inject_Z img_size * (inject_Z c / 4) / 32) * 32)%Z).
  { intros c Hc. unfold trainsize.
    assert (Hic : (Z.abs (img_size * c) < 2 ^ 53)%Z).
    { rewrite Z.abs_mul. change (2 ^ 53)%Z with (8 * 2 ^ 50)%Z.
      set (P := (2 ^ 50)%Z) in *. nia. }
    destruct (float_op_exact (inject_Z img_size) img_size 0)
      as (x & Ex & Hx); [unfold Qdiv; simpl; field | lia | lia |].
    change (float_of_int img_size) with (float_op (inject_Z img_size)).
    rewrite Ex. cbn [bind].
    destruct (float_op_exact (x * (inject_Z c / 4)) (img_size * c) 2)
      as (y & Ey & Hy); [rewrite Hx, inject_Z_mult; simpl; field | exact Hic | lia |].
    rewrite Ey. cbn [bind].
    destruct (float_op_exact (y / 32) (img_size * c) 7)
      as (z & Ez & Hz);
      [rewrite Hy, Hx, inject_Z_mult; simpl; field | exact Hic | lia |].
    rewrite Ez. cbn [bind]. do 2 f_equal.
    apply round_half_even_comp. rewrite Hz, Hy, Hx. reflexivity. }
  destruct Hr as [<- | [<- | [<- | []]]].
  - exact (Float 3%Z ltac:(lia)).
  - unfold trainsize.
    destruct (float_op_exact (inject_Z (img_size * 1) / 32) img_size 5)
      as (v & Ev & Hv); [rewrite Z.mul_1_r; simpl; field | lia | lia |].
    rewrite Ev. cbn [bind]. do 2 f_equal.
    apply round_half_even_comp. rewrite Hv, Z.mul_1_r. cbn [num_value]. field.
  - exact (Float 5%Z ltac:(lia)).
Qed.

(** Beyond the range of exact floats the product is rounded: at
    [img_size = 2^60 + 100] the size is 75 away from [img_size * 0.75], and
    an [img_size] beyond the floats raises. *)
Lemma trainsize_large :
  trainsize (2 ^ 60 + 100) (PFloat (3 # 4)) = Ok 864691128455135232%Z
  /\ inject_Z (2 ^ 60 + 100) * (3 # 4) - inject_Z 864691128455135232 == 75
  /\ trainsize (10 ^ 400) (PInt 1) = Raise OverflowError.
Proof. repeat split; vm_compute; reflexivity. Qed.

(** X20. For an [img_size] below [2^50] in absolute value and each of the
    three rates of [train] (0.75, 1 and 1.25), line 86 raises nothing and
    the size a batch is rescaled to is the multiple of 32 nearest to
    [img_size * rate] (at most 16 away, ties going to the even multiple); it
    is positive exactly when [img_size * rate] exceeds 16. *)
Theorem trainsize_nearest_multiple (img_size : Z) (rate : pynum) :
  In rate size_rates -> (Z.abs img_size < 2 ^ 50)%Z ->
  exists t,
    trainsize img_size rate = Ok t
    /\ (exists k, t = (k * 32)%Z)
    /\ inject_Z t - inject_Z img_size * num_value rate <= 16
    /\ inject_Z img_size * num_value rate - inject_Z t <= 16
    /\ ((0 < t)%Z <-> 16 < inject_Z img_size * num_value rate).
Proof.
  intros Hr Hi. eexists. split; [now apply trainsize_exact|].
  set (q := inject_Z img_size * num_value rate / 32).
  assert (Eq : inject_Z img_size * num_value rate == 32 * q)
    by (unfold q; field).
  pose proof (round_half_even_near q) as [H1 H2].
  pose proof (round_half_even_positive q) as Hp.
  rewrite inject_Z_mult. change (inject_Z 32) with 32.
  split; [now exists (round_half_even q)|].
  split; [lra|]. split; [lra|].
  split; intros H.
  - assert (0 < round_half_even q)%Z by lia. apply Hp in H0. lra.
  - assert (1 # 2 < q) by lra. apply Hp in H0. lia.
Qed.

Lemma trainsize_nearest_multiple_witness :
  trainsize 352 (PFloat (3 # 4)) = Ok 256%Z
  /\ exists t,
       trainsize 352 (PFloat (3 # 4)) = Ok t
       /\ (exists k, t = (k * 32)%Z)
       /\ inject_Z t - inject_Z 352 * num_value (PFloat (3 # 4)) <= 16
       /\ inject_Z 352 * num_value (PFloat (3 # 4)) - inject_Z t <= 16
       /\ ((0 < t)%Z <-> 16 < inject_Z 352 * num_value (PFloat (3 # 4))).
Proof.
  split; [vm_compute; reflexivity|].
  apply (trainsize_nearest_multiple 352 (PFloat (3 # 4))).
  - left. reflexivity.
  - vm_compute. reflexivity.
Defined.

End TrainSize.

(** ** The rounds are chained *)

Lemma each_paths_loop_chained (self : MultiWayBlock.t) (idx : list Z) :
  forall st st',
    MultiWayBlock.each_paths_loop self idx st = Ok st' ->
    exists ys,
      MultiWayBlock.features st' = MultiWayBlock.features st ++ ys
      /\ chained self (MultiWayBlock.cur st) idx ys.
Proof.
  induction idx as [|i rest IH]; intros st st'; simpl.
  - intros [= <-]. exists []. now rewrite app_nil_r.
  - destruct (MultiWayBlock.each_path self i (MultiWayBlock.cur st))
      as [[y a]|e] eqn:E; [|discriminate]. simpl.
    intros Hl. apply IH in Hl as (ys & Hf & Hc). simpl in Hf, Hc.
    exists (y :: ys). rewrite Hf, <- app_assoc. split; [reflexivity|].
    split; [now exists a | exact Hc].
Qed.

(** X21. The paths do not each work on the input of [forward]: the loop
    rebinds [x], so path 1 is run on the spatial map of the input and every
    later path on the feature map the path before it produced. *)
Theorem paths_are_chained (self : MultiWayBlock.t) (x a : qtensor)
  (fs : list qtensor) :
  MultiWayBlock._forward_each_paths self x = Ok (fs, a) ->
  chained self x (py_range 1 (MultiWayBlock.num_path self + 1)) fs.
Proof.
  unfold MultiWayBlock._forward_each_paths.
  destruct (MultiWayBlock.each_paths_loop self _ _) as [st|e] eqn:E;
    [|discriminate]. simpl.
  destruct (MultiWayBlock.attn_probs st); [|discriminate].
  intros [= <- _].
  apply each_paths_loop_chained in E as (ys & -> & Hc). exact Hc.
Qed.

Lemma paths_are_chained_witness :
  match MultiWayBlock._forward_each_paths
          (Demo.built (Demo.config 16 3 0 2 false)) (Demo.iota [1; 16; 2; 2]) with
  | Ok (fs, _) =>
      chained (Demo.built (Demo.config 16 3 0 2 false)) (Demo.iota [1; 16; 2; 2])
        (py_range 1
           (MultiWayBlock.num_path (Demo.built (Demo.config 16 3 0 2 false)) + 1))
        fs
  | Raise _ => False
  end.
Proof.
  destruct (MultiWayBlock._forward_each_paths
              (Demo.built (Demo.config 16 3 0 2 false)) (Demo.iota [1; 16; 2; 2]))
    as [[fs a]|e] eqn:E.
  - exact (paths_are_chained _ _ a fs E).
  - vm_compute in E. discriminate E.
Defined.
